(** * DistrictRun: mileage-based access tiers

    A shallow embedding of the core of the repository:
    - the SQL migrations (tables [users], [activities], [mileage_summary],
      [drops], [drop_access], their triggers and PL/pgSQL functions), and
    - the activity-sync edge function (token refresh, activity import).

    PostgreSQL [decimal] values are exact, so they are rationals ([Q]); SQL
    NULL is [None]; a table is the list of its rows in insertion order; the
    numbers of the edge function are IEEE 754 binary64 values
    ([spec_float] at precision 53). *)

From Stdlib Require Import ZArith QArith Qround Qabs List String Bool Lia Lqa.
From Stdlib Require Import Floats.SpecFloat.
Import ListNotations.

Local Open Scope Z_scope.

(* ===================================================================== *)
(** ** SQL values *)
(* ===================================================================== *)

Module Sql.

(** [uuid] keys; only equality is ever used on them. *)
Definition uuid := Z.

(** Three-valued comparison of nullable decimals. *)
Definition ge (a b : option Q) : option bool :=
  match a, b with
  | Some x, Some y => Some (Qle_bool y x)
  | _, _ => None
  end.

Definition lt (a b : option Q) : option bool :=
  match a, b with
  | Some x, Some y => Some (negb (Qle_bool y x))
  | _, _ => None
  end.

Definition le (a b : option Q) : option bool := ge b a.

(** SQL [AND]: false dominates NULL. *)
Definition and3 (a b : option bool) : option bool :=
  match a, b with
  | Some false, _ | _, Some false => Some false
  | Some true, Some true => Some true
  | _, _ => None
  end.

(** [x = true] for a nullable boolean. *)
Definition eq_true (a : option bool) : option bool := a.

(** A [WHERE], [WHEN] or [IF] condition holds only when it is true. *)
Definition holds (c : option bool) : bool :=
  match c with Some true => true | _ => false end.

Definition coalesce {A} (a : option A) (d : A) : A :=
  match a with Some x => x | None => d end.

(** [SUM] over the rows of a group: NULL on no row. *)
Definition sum (l : list Q) : option Q :=
  match l with
  | [] => None
  | x :: r => Some (fold_left Qplus r x)
  end.

(** [ROUND(v, s)] on numeric: ties go away from zero. *)
Definition round_half_away (q : Q) : Z :=
  if Qle_bool 0 q then Qfloor (q + (1 # 2))
  else - Qfloor (- q + (1 # 2)).

Definition round (q : Q) (s : nat) : Q :=
  let p := Z.pow 10 (Z.of_nat s) in
  Qmake (round_half_away (q * inject_Z p)) (Z.to_pos p).

End Sql.

(* ===================================================================== *)
(** ** JavaScript numbers (binary64) *)
(* ===================================================================== *)

Module Js.

Definition number := spec_float.

Definition prec : Z := 53.
Definition emax : Z := 1024.

Definition mul : number -> number -> number := SFmul prec emax.
Definition div : number -> number -> number := SFdiv prec emax.

(** An integer as a number (exact below 2^53). *)
Definition of_Z (z : Z) : number := binary_normalize prec emax z 0 false.

(** The number a decimal literal [n / 10^k] denotes: both operands are
    exact for [|n| < 2^53] and [k <= 22], and the division rounds the
    exact quotient to nearest, as reading the literal does. *)
Definition literal (n : Z) (k : nat) : number :=
  div (of_Z n) (of_Z (Z.pow 10 (Z.of_nat k))).

(** The exact value of a finite number. *)
Definition value (x : number) : option Q :=
  match x with
  | S754_zero _ => Some 0%Q
  | S754_finite s m e =>
      let z := if s then Zneg m else Zpos m in
      Some (if 0 <=? e then inject_Z (z * Z.pow 2 e)
            else Qmake z (Z.to_pos (Z.pow 2 (- e))))
  | _ => None
  end.

(** The number nearest to a rational (ties to even): the division
    of [SpecFloat] rounds the exact quotient of two integers. *)
Definition parse (q : Q) : number :=
  match Qnum q with
  | Z0 => S754_zero false
  | Zpos p => div (S754_finite false p 0) (S754_finite false (Qden q) 0)
  | Zneg p => div (S754_finite true p 0) (S754_finite false (Qden q) 0)
  end.

Definition pow10 (n : Z) : Q :=
  if 0 <=? n then inject_Z (Z.pow 10 n)
  else Qmake 1 (Z.to_pos (Z.pow 10 (- n))).

(** The least [n] from [n0] on with [v < 10^n]. *)
Fixpoint magnitude_from (fuel : nat) (n0 : Z) (v : Q) : Z :=
  match fuel with
  | O => n0
  | S f => if Qle_bool (pow10 n0) v then magnitude_from f (n0 + 1) v else n0
  end.

(** The [n] with [10^(n-1) <= v < 10^n], for [v > 0].  The search starts
    below it: [2^l <= v] for the [l] computed here, and
    [0.30102 < log10 2 < 0.30103]. *)
Definition magnitude (v : Q) : Z :=
  let l := Z.log2 (Qnum v) - Z.log2 (Zpos (Qden v)) - 1 in
  let n0 := if 0 <=? l then (l * 30102) / 100000 else (l * 30103) / 100000 in
  magnitude_from 8 n0 v.

Definition Qabs_diff (a b : Q) : Q := Qabs (a - b).

(** The decimals with [k] significant digits on either side of [v]
    that read back as [x], the nearer one first; of two that are equally
    near, the one whose digits [s] are even comes first. *)
Definition digit_candidates (x : number) (v : Q) (n k : Z) : list Q :=
  let scale := pow10 (n - k) in
  let s := Qfloor (v / scale) in
  let lo := (inject_Z s * scale)%Q in
  let hi := (inject_Z (s + 1) * scale)%Q in
  let ordered :=
    match Qcompare (Qabs_diff lo v) (Qabs_diff hi v) with
    | Lt => [lo; hi]
    | Gt => [hi; lo]
    | Eq => if Z.even s then [lo; hi] else [hi; lo]
    end in
  filter (fun c => SFeqb (parse c) x) ordered.

Fixpoint shortest (fuel : nat) (x : number) (v : Q) (n k : Z) : Q :=
  match fuel with
  | O => v
  | S f =>
      match digit_candidates x v n k with
      | c :: _ => c
      | [] => shortest f x v n (k + 1)
      end
  end.

(** [JSON.stringify] of a number, read as a decimal: the decimal with the
    fewest significant digits that reads back as the same number (the
    nearest one if there are several, the one with the even last digit
    if two are equally near); NaN and the infinities become [null]. *)
Definition to_decimal (x : number) : option Q :=
  match x with
  | S754_zero _ => Some 0%Q
  | S754_finite s m e =>
      match value (S754_finite false m e) with
      | Some v =>
          let d := shortest 17 (S754_finite false m e) v (magnitude v) 1 in
          Some (if s then Qopp d else d)
      | None => None
      end
  | _ => None
  end.

(** [Math.round]: the nearest integer, ties toward +infinity; NaN and the
    infinities are returned as they are, and a result of zero keeps the
    sign of the argument. *)
Definition Math_round (x : number) : number :=
  match x with
  | S754_finite s m e =>
      if 0 <=? e then x
      else
        let z := if s then Zneg m else Zpos m in
        let k := Qfloor (Qmake z (Z.to_pos (Z.pow 2 (- e))) + (1 # 2)) in
        binary_normalize prec emax k 0 s
  | _ => x
  end.

End Js.

(* ===================================================================== *)
(** ** Timestamps *)
(* ===================================================================== *)

(** A [timestamptz] read in the session time zone (UTC): calendar fields
    and the microsecond of the day.  On well-formed values the order of
    instants is the lexicographic order of the fields. *)
Module Time.

Record timestamptz := mk {
  year : Z;
  month : Z;        (* 1 .. 12 *)
  day : Z;          (* 1 .. 31 *)
  usec : Z          (* microsecond of the day *)
}.

Definition compare (a b : timestamptz) : comparison :=
  match year a ?= year b with
  | Eq =>
      match month a ?= month b with
      | Eq =>
          match day a ?= day b with
          | Eq => usec a ?= usec b
          | c => c
          end
      | c => c
      end
  | c => c
  end.

(** [a <= b], [a < b], [a >= b] *)
Definition leb (a b : timestamptz) : bool :=
  match compare a b with Gt => false | _ => true end.
Definition ltb (a b : timestamptz) : bool :=
  match compare a b with Lt => true | _ => false end.
Definition geb (a b : timestamptz) : bool := leb b a.

Definition is_leap (y : Z) : bool :=
  ((y mod 4 =? 0) && negb (y mod 100 =? 0)) || (y mod 400 =? 0).

Definition days_in_month (y m : Z) : Z :=
  if m =? 2 then (if is_leap y then 29 else 28)
  else if (m =? 4) || (m =? 6) || (m =? 9) || (m =? 11) then 30
  else 31.

(** [date_trunc('month', t)] and [date_trunc('year', t)] *)
Definition date_trunc_month (t : timestamptz) : timestamptz :=
  mk (year t) (month t) 1 0.
Definition date_trunc_year (t : timestamptz) : timestamptz :=
  mk (year t) 1 1 0.

(** [t - interval '1 month']: the month steps back, the year with it
    from January, and a day past the end of the new month is clamped to
    its last day. *)
Definition minus_one_month (t : timestamptz) : timestamptz :=
  let y := if month t =? 1 then year t - 1 else year t in
  let m := if month t =? 1 then 12 else month t - 1 in
  mk y m (Z.min (day t) (days_in_month y m)) (usec t).

(** [MAX] of a column of timestamps: NULL on no row. *)
Definition later (a b : timestamptz) : timestamptz :=
  if leb a b then b else a.
Definition max (l : list timestamptz) : option timestamptz :=
  match l with
  | [] => None
  | t :: r => Some (fold_left later r t)
  end.

End Time.

(* ===================================================================== *)
(** ** Tables *)
(* ===================================================================== *)

(** Failing statements carry their SQLSTATE or message. *)
Inductive result (A : Type) : Type :=
| Ok (a : A)
| Error (code : string).
Arguments Ok {A} a.
Arguments Error {A} code.

Definition not_null_violation : string := "23502".
Definition foreign_key_violation : string := "23503".
Definition unique_violation : string := "23505".
Definition numeric_value_out_of_range : string := "22003".
Definition invalid_text_representation : string := "22P02".

(** The values of the [access_tier] columns. *)
Inductive tier : Type := none | basic | premium | exclusive.

(** [users]: the columns the sync function selects.  The two timestamps
    are kept as the [Date] values the function handles (milliseconds
    since the epoch). *)
Module Users.
Record row := mk {
  id : Sql.uuid;
  strava_access_token : option string;
  strava_refresh_token : option string;
  token_expires_at : option Z;
  last_synced_at : option Z
}.
End Users.

(** [activities]: the columns of the heart-rate, speed, elevation and
    place fields are carried by no function below and are left out. *)
Module Activities.
Record row := mk {
  user_id : Sql.uuid;
  strava_activity_id : Z;
  activity_type : string;
  activity_date : Time.timestamptz;
  distance_meters : Q;
  distance_miles : Q;
  moving_time_seconds : option Z;
  elapsed_time_seconds : option Z;
  start_latitude : option Q;
  start_longitude : option Q;
  is_dc_metro_area : option bool;
  manual : option bool
}.
End Activities.

Module MileageSummary.
Record row := mk {
  user_id : Sql.uuid;
  current_month_miles : option Q;
  last_month_miles : option Q;
  current_year_miles : option Q;
  total_miles : option Q;
  total_activities : option Z;
  dc_activities : option Z;
  last_activity_date : option Time.timestamptz;
  access_tier : option tier;
  last_calculated_at : option Time.timestamptz;
  created_at : option Time.timestamptz;
  updated_at : option Time.timestamptz
}.
End MileageSummary.

(** [drops]: the key and the three thresholds; the descriptive columns are
    read by no function. *)
Module Drops.
Record row := mk {
  id : Sql.uuid;
  required_miles_basic : option Q;
  required_miles_premium : option Q;
  required_miles_exclusive : option Q
}.
End Drops.

(** [drop_access], without its generated surrogate key. *)
Module DropAccess.
Record row := mk {
  drop_id : Sql.uuid;
  user_id : Sql.uuid;
  access_tier : tier;
  qualified_at : option Time.timestamptz;
  mileage_at_qualification : Q;
  notified_at : option Time.timestamptz;
  first_viewed_at : option Time.timestamptz;
  created_at : option Time.timestamptz
}.
End DropAccess.

Record database := mkdb {
  users : list Users.row;
  activities : list Activities.row;
  mileage_summary : list MileageSummary.row;
  drops : list Drops.row;
  drop_access : list DropAccess.row
}.

Definition with_users (db : database) (t : list Users.row) : database :=
  mkdb t (activities db) (mileage_summary db) (drops db) (drop_access db).
Definition with_activities (db : database) (t : list Activities.row) : database :=
  mkdb (users db) t (mileage_summary db) (drops db) (drop_access db).
Definition with_mileage_summary (db : database) (t : list MileageSummary.row) : database :=
  mkdb (users db) (activities db) t (drops db) (drop_access db).
Definition with_drop_access (db : database) (t : list DropAccess.row) : database :=
  mkdb (users db) (activities db) (mileage_summary db) (drops db) t.

Definition user_exists (db_users : list Users.row) (u : Sql.uuid) : bool :=
  existsb (fun r => Users.id r =? u) db_users.

(* ===================================================================== *)
(** ** Mileage summary: tier trigger and recalculation *)
(* ===================================================================== *)

Module Mileage.
Import MileageSummary.

(** [calculate_access_tier(miles decimal)]; an [IF] on NULL falls
    through to the next branch. *)
Definition calculate_access_tier (miles : option Q) : tier :=
  if Sql.holds (Sql.ge miles (Some 150%Q)) then exclusive
  else if Sql.holds (Sql.ge miles (Some 100%Q)) then premium
  else if Sql.holds (Sql.ge miles (Some 50%Q)) then basic
  else none.

(** One [column = expression] of a [SET] list; the expression reads the
    row as it was before the statement. *)
Inductive assignment : Type :=
| set_current_month_miles (e : row -> option Q)
| set_last_month_miles (e : row -> option Q)
| set_current_year_miles (e : row -> option Q)
| set_total_miles (e : row -> option Q)
| set_total_activities (e : row -> option Z)
| set_dc_activities (e : row -> option Z)
| set_last_activity_date (e : row -> option Time.timestamptz)
| set_access_tier (e : row -> option tier)
| set_last_calculated_at (e : row -> option Time.timestamptz)
| set_created_at (e : row -> option Time.timestamptz)
| set_updated_at (e : row -> option Time.timestamptz).

Definition assign (OLD : row) (r : row) (a : assignment) : row :=
  match a with
  | set_current_month_miles e =>
      mk (user_id r) (e OLD) (last_month_miles r) (current_year_miles r)
         (total_miles r) (total_activities r) (dc_activities r)
         (last_activity_date r) (access_tier r) (last_calculated_at r)
         (created_at r) (updated_at r)
  | set_last_month_miles e =>
      mk (user_id r) (current_month_miles r) (e OLD) (current_year_miles r)
         (total_miles r) (total_activities r) (dc_activities r)
         (last_activity_date r) (access_tier r) (last_calculated_at r)
         (created_at r) (updated_at r)
  | set_current_year_miles e =>
      mk (user_id r) (current_month_miles r) (last_month_miles r) (e OLD)
         (total_miles r) (total_activities r) (dc_activities r)
         (last_activity_date r) (access_tier r) (last_calculated_at r)
         (created_at r) (updated_at r)
  | set_total_miles e =>
      mk (user_id r) (current_month_miles r) (last_month_miles r)
         (current_year_miles r) (e OLD) (total_activities r) (dc_activities r)
         (last_activity_date r) (access_tier r) (last_calculated_at r)
         (created_at r) (updated_at r)
  | set_total_activities e =>
      mk (user_id r) (current_month_miles r) (last_month_miles r)
         (current_year_miles r) (total_miles r) (e OLD) (dc_activities r)
         (last_activity_date r) (access_tier r) (last_calculated_at r)
         (created_at r) (updated_at r)
  | set_dc_activities e =>
      mk (user_id r) (current_month_miles r) (last_month_miles r)
         (current_year_miles r) (total_miles r) (total_activities r) (e OLD)
         (last_activity_date r) (access_tier r) (last_calculated_at r)
         (created_at r) (updated_at r)
  | set_last_activity_date e =>
      mk (user_id r) (current_month_miles r) (last_month_miles r)
         (current_year_miles r) (total_miles r) (total_activities r)
         (dc_activities r) (e OLD) (access_tier r) (last_calculated_at r)
         (created_at r) (updated_at r)
  | set_access_tier e =>
      mk (user_id r) (current_month_miles r) (last_month_miles r)
         (current_year_miles r) (total_miles r) (total_activities r)
         (dc_activities r) (last_activity_date r) (e OLD)
         (last_calculated_at r) (created_at r) (updated_at r)
  | set_last_calculated_at e =>
      mk (user_id r) (current_month_miles r) (last_month_miles r)
         (current_year_miles r) (total_miles r) (total_activities r)
         (dc_activities r) (last_activity_date r) (access_tier r) (e OLD)
         (created_at r) (updated_at r)
  | set_created_at e =>
      mk (user_id r) (current_month_miles r) (last_month_miles r)
         (current_year_miles r) (total_miles r) (total_activities r)
         (dc_activities r) (last_activity_date r) (access_tier r)
         (last_calculated_at r) (e OLD) (updated_at r)
  | set_updated_at e =>
      mk (user_id r) (current_month_miles r) (last_month_miles r)
         (current_year_miles r) (total_miles r) (total_activities r)
         (dc_activities r) (last_activity_date r) (access_tier r)
         (last_calculated_at r) (created_at r) (e OLD)
  end.

Definition is_current_month_miles (a : assignment) : bool :=
  match a with set_current_month_miles _ => true | _ => false end.
Definition is_access_tier (a : assignment) : bool :=
  match a with set_access_tier _ => true | _ => false end.

(** Trigger function [update_access_tier()] *)
Definition update_access_tier (now : Time.timestamptz) (NEW : row) : row :=
  let NEW := assign NEW NEW
               (set_access_tier
                  (fun _ => Some (calculate_access_tier (current_month_miles NEW)))) in
  assign NEW NEW (set_updated_at (fun _ => Some now)).

(** [INSERT INTO mileage_summary]: trigger [set_access_tier] (BEFORE
    INSERT), then the primary key, then the reference to [users]. *)
Definition insert (now : Time.timestamptz) (db_users : list Users.row)
    (r : row) (tbl : list row) : result (list row) :=
  let NEW := update_access_tier now r in
  if existsb (fun o => user_id o =? user_id NEW) tbl then Error unique_violation
  else if negb (user_exists db_users (user_id NEW)) then Error foreign_key_violation
  else Ok (tbl ++ [NEW]).

(** [UPDATE mileage_summary SET ... WHERE ...]: trigger [set_access_tier]
    is BEFORE UPDATE OF current_month_miles, so it runs on the rows of a
    statement whose [SET] list names that column. *)
Definition update (now : Time.timestamptz) (set : list assignment)
    (where_ : row -> bool) (tbl : list row) : list row :=
  map (fun OLD =>
         if where_ OLD then
           let NEW := fold_left (assign OLD) set OLD in
           if existsb is_current_month_miles set
           then update_access_tier now NEW else NEW
         else OLD) tbl.

Definition in_region (a : Activities.row) : option bool :=
  Sql.eq_true (Activities.is_dc_metro_area a).

(** [SUM(CASE WHEN c THEN distance_miles ELSE 0 END)] *)
Definition sum_case (c : Activities.row -> option bool)
    (rows : list Activities.row) : option Q :=
  Sql.sum (map (fun a => if Sql.holds (c a)
                         then Activities.distance_miles a else 0%Q) rows).

(** The row the [SELECT] of [recalculate_user_mileage] produces: the
    aggregates have no [GROUP BY], so there is one row also when the user
    has no activity.  The columns the statement does not list take their
    defaults. *)
Definition aggregate (now : Time.timestamptz) (p_user_id : Sql.uuid)
    (db_activities : list Activities.row) : row :=
  let v_current_month_start := Time.date_trunc_month now in
  let v_current_year_start := Time.date_trunc_year now in
  let v_last_month_start := Time.date_trunc_month (Time.minus_one_month now) in
  let v_last_month_end := v_current_month_start in
  let rows := filter (fun a => Activities.user_id a =? p_user_id) db_activities in
  let date := Activities.activity_date in
  mk p_user_id
     (Some (Sql.coalesce
        (sum_case (fun a => Sql.and3 (Some (Time.geb (date a) v_current_month_start))
                                     (in_region a)) rows) 0%Q))
     (Some (Sql.coalesce
        (sum_case (fun a => Sql.and3
                              (Sql.and3 (Some (Time.geb (date a) v_last_month_start))
                                        (Some (Time.ltb (date a) v_last_month_end)))
                              (in_region a)) rows) 0%Q))
     (Some (Sql.coalesce
        (sum_case (fun a => Sql.and3 (Some (Time.geb (date a) v_current_year_start))
                                     (in_region a)) rows) 0%Q))
     (Some (Sql.coalesce (sum_case in_region rows) 0%Q))
     (Some (Z.of_nat (List.length rows)))
     (Some (Z.of_nat (List.length (filter (fun a => Sql.holds (in_region a)) rows))))
     (Time.max (map date rows))
     (Some none)
     (Some now)
     (Some now)
     (Some now).

(** [ON CONFLICT (user_id) DO UPDATE SET ...] *)
Definition do_update_set (now : Time.timestamptz) (EXCLUDED : row) : list assignment :=
  [ set_current_month_miles (fun _ => current_month_miles EXCLUDED);
    set_last_month_miles (fun _ => last_month_miles EXCLUDED);
    set_current_year_miles (fun _ => current_year_miles EXCLUDED);
    set_total_miles (fun _ => total_miles EXCLUDED);
    set_total_activities (fun _ => total_activities EXCLUDED);
    set_dc_activities (fun _ => dc_activities EXCLUDED);
    set_last_activity_date (fun _ => last_activity_date EXCLUDED);
    set_last_calculated_at (fun _ => Some now) ].

(** [recalculate_user_mileage(p_user_id uuid)], at transaction time
    [now].  The proposed row passes the BEFORE INSERT trigger first; on a
    conflict the existing row is updated instead. *)
Definition recalculate_user_mileage (now : Time.timestamptz)
    (p_user_id : Sql.uuid) (db : database) : result database :=
  let EXCLUDED := update_access_tier now (aggregate now p_user_id (activities db)) in
  let tbl := mileage_summary db in
  if existsb (fun o => user_id o =? p_user_id) tbl then
    Ok (with_mileage_summary db
          (update now (do_update_set now EXCLUDED)
                  (fun o => user_id o =? p_user_id) tbl))
  else if negb (user_exists (users db) p_user_id) then Error foreign_key_violation
  else Ok (with_mileage_summary db (tbl ++ [EXCLUDED])).

End Mileage.

(* ===================================================================== *)
(** ** Activity store: geofence, unit conversion, insert *)
(* ===================================================================== *)

Module ActivityStore.

(** [is_in_dc_metro(lat, lon)]; [x BETWEEN a AND b] is
    [x >= a AND x <= b]. *)
Definition is_in_dc_metro (lat lon : option Q) : option bool :=
  Sql.and3
    (Sql.and3 (Sql.ge lat (Some 38.8%Q)) (Sql.le lat (Some 39.2%Q)))
    (Sql.and3 (Sql.ge lon (Some (-77.5)%Q)) (Sql.le lon (Some (-76.9)%Q))).

(** [meters_to_miles(meters)]: numeric multiplication is exact. *)
Definition meters_to_miles (meters : Q) : Q :=
  Sql.round (meters * 0.000621371) 2.

(** The values an [INSERT INTO activities] supplies, before the
    constraints are checked: a column declared NOT NULL may still be
    given as NULL. *)
Record new_row := mk_new {
  user_id : Sql.uuid;
  strava_activity_id : Z;
  activity_type : string;
  activity_date : option Time.timestamptz;
  distance_meters : option Q;
  distance_miles : option Q;
  moving_time_seconds : option Z;
  elapsed_time_seconds : option Z;
  start_latitude : option Q;
  start_longitude : option Q;
  is_dc_metro_area : option bool;
  manual : option bool
}.

(** Trigger function [set_dc_metro_area()] (BEFORE INSERT OR UPDATE) *)
Definition set_dc_metro_area (NEW : new_row) : new_row :=
  match start_latitude NEW, start_longitude NEW with
  | Some _, Some _ =>
      mk_new (user_id NEW) (strava_activity_id NEW) (activity_type NEW)
             (activity_date NEW) (distance_meters NEW) (distance_miles NEW)
             (moving_time_seconds NEW) (elapsed_time_seconds NEW)
             (start_latitude NEW) (start_longitude NEW)
             (is_in_dc_metro (start_latitude NEW) (start_longitude NEW))
             (manual NEW)
  | _, _ => NEW
  end.

(** A whole number of the JSON payload read into a [bigint] (64 bits) or
    an [integer] (32 bits) column.  From 10^21 on the payload writes the
    number with an exponent, which the column's input does not read; below
    that, a number outside the column's range is out of range. *)
Definition integer_input (bits : Z) (z : Z) : result Z :=
  if 10 ^ 21 <=? Z.abs z then Error invalid_text_representation
  else if (z <? - 2 ^ (bits - 1)) || (2 ^ (bits - 1) <=? z)
  then Error numeric_value_out_of_range
  else Ok z.

Definition nullable_integer_input (bits : Z) (z : option Z) : result (option Z) :=
  match z with
  | None => Ok None
  | Some z =>
      match integer_input bits z with
      | Ok z => Ok (Some z)
      | Error code => Error code
      end
  end.

(** The constraints of [activities] on a row whose values have been read:
    the trigger, then the NOT NULL columns, then the unique index on
    [strava_activity_id], then the reference to [users]. *)
Definition insert_row (db_users : list Users.row) (r : new_row)
    (tbl : list Activities.row) : result (list Activities.row) :=
  let NEW := set_dc_metro_area r in
  match activity_date NEW, distance_meters NEW, distance_miles NEW with
  | Some date, Some meters, Some miles =>
      if existsb (fun o => Activities.strava_activity_id o =? strava_activity_id NEW) tbl
      then Error unique_violation
      else if negb (user_exists db_users (user_id NEW))
      then Error foreign_key_violation
      else Ok (tbl ++ [Activities.mk (user_id NEW) (strava_activity_id NEW)
                         (activity_type NEW) date meters miles
                         (moving_time_seconds NEW) (elapsed_time_seconds NEW)
                         (start_latitude NEW) (start_longitude NEW)
                         (is_dc_metro_area NEW) (manual NEW)])
  | _, _, _ => Error not_null_violation
  end.

(** [INSERT INTO activities]: the values of the payload are read into the
    types of their columns, [strava_activity_id] (bigint),
    [moving_time_seconds] and [elapsed_time_seconds] (integer) in the order
    of the columns, and a value that cannot be read fails the statement
    before any constraint is looked at. *)
Definition insert (db_users : list Users.row) (r : new_row)
    (tbl : list Activities.row) : result (list Activities.row) :=
  match integer_input 64 (strava_activity_id r) with
  | Error code => Error code
  | Ok _ =>
      match nullable_integer_input 32 (moving_time_seconds r) with
      | Error code => Error code
      | Ok _ =>
          match nullable_integer_input 32 (elapsed_time_seconds r) with
          | Error code => Error code
          | Ok _ => insert_row db_users r tbl
          end
      end
  end.

End ActivityStore.

(* ===================================================================== *)
(** ** Drop qualification *)
(* ===================================================================== *)

Module DropGrants.

Definition same_pair (d u : Sql.uuid) (g : DropAccess.row) : bool :=
  (DropAccess.drop_id g =? d) && (DropAccess.user_id g =? u).

(** One proposed row under [ON CONFLICT (drop_id, user_id) DO NOTHING]. *)
Definition insert_do_nothing (g : DropAccess.row) (tbl : list DropAccess.row)
  : list DropAccess.row :=
  if existsb (same_pair (DropAccess.drop_id g) (DropAccess.user_id g)) tbl
  then tbl else tbl ++ [g].

(** One row of the [SELECT] proposed for insertion.
    [mileage_at_qualification] is NOT NULL, and that is checked before
    the conflict is looked for; a failed row fails the statement. *)
Definition propose (now : Time.timestamptz) (p_drop_id : Sql.uuid) (t : tier)
    (acc : result (list DropAccess.row)) (s : MileageSummary.row)
  : result (list DropAccess.row) :=
  match acc with
  | Error c => Error c
  | Ok tb =>
      match MileageSummary.current_month_miles s with
      | None => Error not_null_violation
      | Some m =>
          Ok (insert_do_nothing
                (DropAccess.mk p_drop_id (MileageSummary.user_id s) t
                               (Some now) m None None (Some now)) tb)
      end
  end.

(** [INSERT INTO drop_access (drop_id, user_id, access_tier,
    mileage_at_qualification) SELECT p_drop_id, user_id, t,
    current_month_miles FROM mileage_summary WHERE ... ON CONFLICT
    (drop_id, user_id) DO NOTHING] *)
Definition insert_select (now : Time.timestamptz) (p_drop_id : Sql.uuid)
    (t : tier) (where_ : MileageSummary.row -> option bool)
    (ms : list MileageSummary.row) (tbl : list DropAccess.row)
  : result (list DropAccess.row) :=
  fold_left (propose now p_drop_id t)
            (filter (fun s => Sql.holds (where_ s)) ms)
            (Ok tbl).

Definition count_where {A} (p : A -> bool) (l : list A) : Z :=
  Z.of_nat (List.length (filter p l)).

(** [grant_drop_access_to_qualifying_users(p_drop_id uuid)]; a failing
    statement aborts the call and leaves the tables as they were. *)
Definition grant_drop_access_to_qualifying_users (now : Time.timestamptz)
    (p_drop_id : Sql.uuid) (db : database) : result (Z * database) :=
  let v_granted_count := 0 in
  match find (fun d => Drops.id d =? p_drop_id) (drops db) with
  | None => Error "Drop not found"
  | Some v_drop =>
      let miles := MileageSummary.current_month_miles in
      let ms := mileage_summary db in
      match insert_select now p_drop_id exclusive
              (fun s => Sql.ge (miles s) (Drops.required_miles_exclusive v_drop))
              ms (drop_access db) with
      | Error c => Error c
      | Ok t1 =>
          let v_granted_count :=
            v_granted_count +
            count_where (fun s => Sql.holds
              (Sql.ge (miles s) (Drops.required_miles_exclusive v_drop))) ms in
          match insert_select now p_drop_id premium
                  (fun s => Sql.and3
                     (Sql.ge (miles s) (Drops.required_miles_premium v_drop))
                     (Sql.lt (miles s) (Drops.required_miles_exclusive v_drop)))
                  ms t1 with
          | Error c => Error c
          | Ok t2 =>
              match insert_select now p_drop_id basic
                      (fun s => Sql.and3
                         (Sql.ge (miles s) (Drops.required_miles_basic v_drop))
                         (Sql.lt (miles s) (Drops.required_miles_premium v_drop)))
                      ms t2 with
              | Error c => Error c
              | Ok t3 =>
                  let v_granted_count :=
                    count_where (fun g => DropAccess.drop_id g =? p_drop_id) t3 in
                  Ok (v_granted_count, with_drop_access db t3)
              end
          end
      end
  end.

(** [user_has_drop_access(p_user_id, p_drop_id)] *)
Definition user_has_drop_access (p_user_id p_drop_id : Sql.uuid)
    (db : database) : bool :=
  existsb (same_pair p_drop_id p_user_id) (drop_access db).

End DropGrants.

(* ===================================================================== *)
(** ** The activity-sync edge function *)
(* ===================================================================== *)

Module Sync.

Record StravaActivity := mk_activity {
  id : Z;
  type : string;
  sport_type : string;
  start_date : option Time.timestamptz;
  distance : Js.number;
  moving_time : Z;
  elapsed_time : Z;
  start_latlng : option (Js.number * Js.number);
  manual : bool
}.

Record RefreshTokenResponse := mk_refresh {
  access_token : string;
  expires_at : Z;
  refresh_token : string
}.

(** What a [fetch] of the provider comes to: a response that is [ok]
    with its JSON, a response that is not, or a rejected promise. *)
Inductive fetched (A : Type) : Type :=
| fetch_ok (json : A)
| fetch_not_ok (text : string)
| fetch_throws (message : string).
Arguments fetch_ok {A} json.
Arguments fetch_not_ok {A} text.
Arguments fetch_throws {A} message.

(** The provider: the token endpoint, asked with a refresh token and the
    client identity, and the activity listing, asked with an access
    token and the [after] horizon. *)
Record Provider := mk_provider {
  oauth_token : string -> string -> string -> fetched RefreshTokenResponse;
  athlete_activities : string -> Z -> fetched (list StravaActivity)
}.

Inductive call : Type :=
| call_oauth_token (refresh_token client_id client_secret : string)
| call_athlete_activities (access_token : string) (after : Z).

(** The clock readings of one invocation, in the order they are taken:
    [new Date()] before the expiry test, [Date.now()] for the default
    horizon, [new Date()] for [last_synced_at], and the database's
    [now()] in the recalculation. *)
Record Clock := mk_clock {
  now : Z;
  Date_now : Z;
  synced_now : Z;
  db_now : Time.timestamptz
}.

Record Env := mk_env {
  STRAVA_CLIENT_ID : option string;
  STRAVA_CLIENT_SECRET : option string
}.

Record Request := mk_request {
  method : string;
  userId : option Sql.uuid
}.

Inductive Body : Type :=
| no_body
| error_body (error : string) (details : option string)
| synced_body (message : string) (total inserted skipped : Z).

Record Response := mk_response {
  status : Z;
  body : Body
}.

(** [refreshStravaToken]: a thrown error is [Error] with its message. *)
Definition refreshStravaToken (provider : Provider)
    (refreshToken clientId clientSecret : string) : result RefreshTokenResponse :=
  match oauth_token provider refreshToken clientId clientSecret with
  | fetch_ok json => Ok json
  | fetch_not_ok _ => Error "Failed to refresh Strava token"
  | fetch_throws message => Error message
  end.

Definition is_run (a : StravaActivity) : bool :=
  String.eqb (type a) "Run" || String.eqb (sport_type a) "Run" ||
  String.eqb (type a) "TrailRun" || String.eqb (sport_type a) "TrailRun" ||
  String.eqb (type a) "VirtualRun" || String.eqb (sport_type a) "VirtualRun".

(** [Math.round((activity.distance * 0.000621371) * 100) / 100] *)
Definition distanceMiles (activity : StravaActivity) : Js.number :=
  Js.div
    (Js.Math_round
       (Js.mul (Js.mul (distance activity) (Js.literal 621371 9)) (Js.of_Z 100)))
    (Js.of_Z 100).

(** The object handed to [insert]; the numbers travel as JSON. *)
Definition insert_values (userId : Sql.uuid) (activity : StravaActivity)
  : ActivityStore.new_row :=
  ActivityStore.mk_new
    userId
    (id activity)
    (if String.eqb (type activity) "" then sport_type activity else type activity)
    (start_date activity)
    (Js.to_decimal (distance activity))
    (Js.to_decimal (distanceMiles activity))
    (Some (moving_time activity))
    (Some (elapsed_time activity))
    (match start_latlng activity with
     | Some (lat, _) => Js.to_decimal lat
     | None => None
     end)
    (match start_latlng activity with
     | Some (_, lng) => Js.to_decimal lng
     | None => None
     end)
    (Some false)
    (Some (manual activity)).

Record progress := mk_progress {
  stored : list Activities.row;
  insertedCount : Z;
  skippedCount : Z
}.

(** The body of [for (const activity of runActivities)] *)
Definition insert_one (db_users : list Users.row) (userId : Sql.uuid)
    (p : progress) (activity : StravaActivity) : progress :=
  match ActivityStore.insert db_users (insert_values userId activity) (stored p) with
  | Error code =>
      if String.eqb code "23505"
      then mk_progress (stored p) (insertedCount p) (skippedCount p + 1)
      else p
  | Ok tbl => mk_progress tbl (insertedCount p + 1) (skippedCount p)
  end.

Definition insert_all (db_users : list Users.row) (userId : Sql.uuid)
    (runActivities : list StravaActivity) (tbl : list Activities.row) : progress :=
  fold_left (insert_one db_users userId) runActivities (mk_progress tbl 0 0).

Definition error_response (st : Z) (message : string) : Response :=
  mk_response st (error_body message None).

(** [new Date(t).toISOString()] for a time value of [t] milliseconds: a
    date beyond 8.64e15 ms of the epoch is invalid and the call throws a
    RangeError; otherwise the string names the instant [t]. *)
Definition toISOString (t : Z) : result Z :=
  if Z.abs t <=? 8640000000000000 then Ok t else Error "Invalid time value".

(** The string of [toISOString] read into a [timestamptz] column.  The
    years 0001 to 9999 are written with four digits and are read as
    written.  The year 0000 is refused as out of range (22008).  Every
    other year is written with a sign and six digits, which the column's
    input takes for a time zone: beyond 15 it is refused as a displacement
    out of range (22009), up to 15 as malformed (22007). *)
Definition timestamptz_input (t : Z) : result Z :=
  if (-62135596800000 <=? t) && (t <=? 253402300799999) then Ok t
  else if 253402300799999 <? t then Error "22009"
  else if -62167219200000 <=? t then Error "22008"
  else if -62640518400000 <=? t then Error "22007"
  else Error "22009".

(** [update({strava_access_token, strava_refresh_token,
    token_expires_at}).eq("id", userId)]; the handler does not look at the
    outcome, so a statement the database refuses leaves the table as it
    was. *)
Definition update_tokens (userId : Sql.uuid) (refreshData : RefreshTokenResponse)
    (token_expires_at : Z) (tbl : list Users.row) : list Users.row :=
  match timestamptz_input token_expires_at with
  | Error _ => tbl
  | Ok t =>
      map (fun u =>
             if Users.id u =? userId then
               Users.mk (Users.id u)
                        (Some (access_token refreshData))
                        (Some (refresh_token refreshData))
                        (Some t)
                        (Users.last_synced_at u)
             else u) tbl
  end.

Definition update_last_synced (userId : Sql.uuid) (t : Z)
    (tbl : list Users.row) : list Users.row :=
  map (fun u =>
         if Users.id u =? userId then
           Users.mk (Users.id u) (Users.strava_access_token u)
                    (Users.strava_refresh_token u) (Users.token_expires_at u)
                    (Some t)
         else u) tbl.

(** From the activity listing on: filter, insert, mark the sync time,
    recalculate (a failure there is only logged), respond. *)
Definition import (provider : Provider) (clock : Clock) (userId : Sql.uuid)
    (last_synced_at : option Z) (accessToken : string)
    (db : database) (calls : list call) : Response * database * list call :=
  let after :=
    match last_synced_at with
    | Some t => t / 1000
    | None => (Date_now clock - 90 * 24 * 60 * 60 * 1000) / 1000
    end in
  let calls := calls ++ [call_athlete_activities accessToken after] in
  match athlete_activities provider accessToken after with
  | fetch_throws message => (error_response 500 message, db, calls)
  | fetch_not_ok errorText =>
      (mk_response 500
         (error_body "Failed to fetch activities from Strava" (Some errorText)),
       db, calls)
  | fetch_ok activities_ =>
      let runActivities := filter is_run activities_ in
      let p := insert_all (users db) userId runActivities (activities db) in
      let db := with_activities db (stored p) in
      let db := with_users db (update_last_synced userId (synced_now clock) (users db)) in
      let db :=
        match Mileage.recalculate_user_mileage (db_now clock) userId db with
        | Ok db' => db'
        | Error _ => db
        end in
      (mk_response 200
         (synced_body "Activities synced successfully"
            (Z.of_nat (List.length runActivities))
            (insertedCount p) (skippedCount p)),
       db, calls)
  end.

(** The handler given to [Deno.serve]: the response, the database it
    leaves, and the provider calls it made. *)
Definition handler (env : Env) (provider : Provider) (clock : Clock)
    (req : Request) (db : database) : Response * database * list call :=
  if String.eqb (method req) "OPTIONS" then (mk_response 200 no_body, db, [])
  else
    match userId req with
    | None => (error_response 400 "No user ID provided", db, [])
    | Some userId =>
        match STRAVA_CLIENT_ID env, STRAVA_CLIENT_SECRET env with
        | Some stravaClientId, Some stravaClientSecret =>
            if String.eqb stravaClientId "" || String.eqb stravaClientSecret ""
            then (error_response 500 "Strava not configured", db, [])
            else
              match find (fun u => Users.id u =? userId) (users db) with
              | None => (error_response 404 "User not found", db, [])
              | Some user =>
                  match Users.strava_access_token user,
                        Users.strava_refresh_token user with
                  | Some access, Some refresh =>
                      if String.eqb access "" || String.eqb refresh ""
                      then (error_response 400 "User has not connected Strava", db, [])
                      else
                        let tokenExpiresAt :=
                          match Users.token_expires_at user with
                          | Some t => t
                          | None => 0
                          end in
                        if now clock >=? tokenExpiresAt then
                          let calls :=
                            [call_oauth_token refresh stravaClientId stravaClientSecret] in
                          match refreshStravaToken provider refresh
                                  stravaClientId stravaClientSecret with
                          | Error message => (error_response 500 message, db, calls)
                          | Ok refreshData =>
                              match toISOString (expires_at refreshData * 1000) with
                              | Error message =>
                                  (error_response 500 message, db, calls)
                              | Ok token_expires_at =>
                                  import provider clock userId
                                    (Users.last_synced_at user)
                                    (access_token refreshData)
                                    (with_users db
                                       (update_tokens userId refreshData
                                          token_expires_at (users db)))
                                    calls
                              end
                          end
                        else
                          import provider clock userId
                            (Users.last_synced_at user) access db []
                  | _, _ => (error_response 400 "User has not connected Strava", db, [])
                  end
              end
        | _, _ => (error_response 500 "Strava not configured", db, [])
        end
    end.

End Sync.

(* ===================================================================== *)
(** ** Reference definitions, in the words of the specification *)
(* ===================================================================== *)

Module Reference.

(** The tier step function: [m >= 150] exclusive; [100 <= m < 150]
    premium; [50 <= m < 100] basic; [m < 50] none. *)
Inductive tier_of (m : Q) : tier -> Prop :=
| tier_exclusive : (150 <= m)%Q -> tier_of m exclusive
| tier_premium : (100 <= m)%Q -> (m < 150)%Q -> tier_of m premium
| tier_basic : (50 <= m)%Q -> (m < 100)%Q -> tier_of m basic
| tier_none : (m < 50)%Q -> tier_of m none.

(** Calendar windows anchored to [now]. *)
Definition first_instant_of_month (y m : Z) : Time.timestamptz := Time.mk y m 1 0.

Definition current_month_start (now : Time.timestamptz) : Time.timestamptz :=
  first_instant_of_month (Time.year now) (Time.month now).

Definition previous_month_start (now : Time.timestamptz) : Time.timestamptz :=
  if Time.month now =? 1 then first_instant_of_month (Time.year now - 1) 12
  else first_instant_of_month (Time.year now) (Time.month now - 1).

Definition current_year_start (now : Time.timestamptz) : Time.timestamptz :=
  first_instant_of_month (Time.year now) 1.

(** An Activity Record flagged in-region. *)
Definition in_region (a : Activities.row) : bool :=
  match Activities.is_dc_metro_area a with Some true => true | _ => false end.

(** The Activity Records of a user. *)
Definition activities_of (u : Sql.uuid) (l : list Activities.row) : list Activities.row :=
  filter (fun a => Activities.user_id a =? u) l.

(** The in-region miles of the records whose date is in a window. *)
Definition region_miles (window : Time.timestamptz -> bool)
    (l : list Activities.row) : Q :=
  fold_right Qplus 0%Q
    (map Activities.distance_miles
         (filter (fun a => in_region a && window (Activities.activity_date a)) l)).

Definition in_current_month (now d : Time.timestamptz) : bool :=
  Time.leb (current_month_start now) d.
Definition in_previous_month (now d : Time.timestamptz) : bool :=
  Time.leb (previous_month_start now) d && Time.ltb d (current_month_start now).
Definition in_current_year (now d : Time.timestamptz) : bool :=
  Time.leb (current_year_start now) d.

(** What a Mileage Summary row of user [u] holds after a recalculation at
    [now] over the activity records [l]. *)
Definition summarises (now : Time.timestamptz) (u : Sql.uuid)
    (l : list Activities.row) (r : MileageSummary.row) : Prop :=
  let mine := activities_of u l in
  (exists x, MileageSummary.current_month_miles r = Some x /\
             (x == region_miles (in_current_month now) mine)%Q) /\
  (exists x, MileageSummary.last_month_miles r = Some x /\
             (x == region_miles (in_previous_month now) mine)%Q) /\
  (exists x, MileageSummary.current_year_miles r = Some x /\
             (x == region_miles (in_current_year now) mine)%Q) /\
  (exists x, MileageSummary.total_miles r = Some x /\
             (x == region_miles (fun _ => true) mine)%Q) /\
  MileageSummary.total_activities r = Some (Z.of_nat (List.length mine)) /\
  MileageSummary.dc_activities r = Some (Z.of_nat (List.length (filter in_region mine))) /\
  MileageSummary.last_calculated_at r = Some now.

End Reference.

(* ===================================================================== *)
(** ** Invariants and notions used in the statements *)
(* ===================================================================== *)

(** The tier stored in a summary row is the one its stored current-month
    distance gives. *)
Definition tier_fresh (r : MileageSummary.row) : Prop :=
  MileageSummary.access_tier r =
  Some (Mileage.calculate_access_tier (MileageSummary.current_month_miles r)).

(** The statements that change [mileage_summary]: an insert, an update
    (one that writes [current_month_miles], or one that leaves both that
    column and [access_tier] alone), a recalculation, a delete (the cascade
    from [users]); any statement on the other tables. *)
Inductive summary_step (db : database) : database -> Prop :=
| step_insert now r tbl :
    Mileage.insert now (users db) r (mileage_summary db) = Ok tbl ->
    summary_step db (with_mileage_summary db tbl)
| step_update now set where_ :
    existsb Mileage.is_current_month_miles set = true \/
    existsb Mileage.is_access_tier set = false ->
    summary_step db
      (with_mileage_summary db (Mileage.update now set where_ (mileage_summary db)))
| step_recalculate now p_user_id db' :
    Mileage.recalculate_user_mileage now p_user_id db = Ok db' ->
    summary_step db db'
| step_delete where_ :
    summary_step db
      (with_mileage_summary db
         (filter (fun r => negb (where_ r)) (mileage_summary db)))
| step_elsewhere db' :
    mileage_summary db' = mileage_summary db ->
    summary_step db db'.

(** The states the statements lead to from the empty table the migration
    creates. *)
Inductive reachable : database -> Prop :=
| reachable_created db : mileage_summary db = [] -> reachable db
| reachable_step db db' : reachable db -> summary_step db db' -> reachable db'.

(** A summary row carries the aggregates of [E], the tier they give, and
    the time [now] of the statement that wrote it. *)
Definition written_from (now : Time.timestamptz) (E r : MileageSummary.row) : Prop :=
  MileageSummary.current_month_miles r = MileageSummary.current_month_miles E /\
  MileageSummary.last_month_miles r = MileageSummary.last_month_miles E /\
  MileageSummary.current_year_miles r = MileageSummary.current_year_miles E /\
  MileageSummary.total_miles r = MileageSummary.total_miles E /\
  MileageSummary.total_activities r = MileageSummary.total_activities E /\
  MileageSummary.dc_activities r = MileageSummary.dc_activities E /\
  MileageSummary.last_activity_date r = MileageSummary.last_activity_date E /\
  MileageSummary.access_tier r =
    Some (Mileage.calculate_access_tier (MileageSummary.current_month_miles E)) /\
  MileageSummary.last_calculated_at r = Some now /\
  MileageSummary.updated_at r = Some now.

(** A row whose two statement timestamps are set to [now]. *)
Definition touch (now : Time.timestamptz) (r : MileageSummary.row) : MileageSummary.row :=
  Mileage.assign r
    (Mileage.assign r r (Mileage.set_last_calculated_at (fun _ => Some now)))
    (Mileage.set_updated_at (fun _ => Some now)).

(** The key of a grant. *)
Definition pair_of (g : DropAccess.row) : Sql.uuid * Sql.uuid :=
  (DropAccess.drop_id g, DropAccess.user_id g).

(** The three [WHERE] conditions of the qualification, and their
    disjunction. *)
Definition meets_exclusive (v_drop : Drops.row) (s : MileageSummary.row) : option bool :=
  Sql.ge (MileageSummary.current_month_miles s) (Drops.required_miles_exclusive v_drop).
Definition meets_premium (v_drop : Drops.row) (s : MileageSummary.row) : option bool :=
  Sql.and3
    (Sql.ge (MileageSummary.current_month_miles s) (Drops.required_miles_premium v_drop))
    (Sql.lt (MileageSummary.current_month_miles s) (Drops.required_miles_exclusive v_drop)).
Definition meets_basic (v_drop : Drops.row) (s : MileageSummary.row) : option bool :=
  Sql.and3
    (Sql.ge (MileageSummary.current_month_miles s) (Drops.required_miles_basic v_drop))
    (Sql.lt (MileageSummary.current_month_miles s) (Drops.required_miles_premium v_drop)).
Definition qualifies (v_drop : Drops.row) (s : MileageSummary.row) : bool :=
  Sql.holds (meets_exclusive v_drop s) || Sql.holds (meets_premium v_drop s) ||
  Sql.holds (meets_basic v_drop s).

(** The external ids stored in [activities]. *)
Definition stored_ids (tbl : list Activities.row) : list Z :=
  map Activities.strava_activity_id tbl.

(** The whole number can be read into a column of [bits] bits. *)
Definition readable (bits : Z) (z : Z) : bool :=
  match ActivityStore.integer_input bits z with
  | Ok _ => true
  | Error _ => false
  end.

(** The activity can be stored as far as its own values go: its external
    id can be read into the bigint column and its two times into the
    integer columns, and it carries every value the NOT NULL columns
    need, a start date and a distance whose JSON form and whose miles are
    numbers. *)
Definition complete (a : Sync.StravaActivity) : bool :=
  readable 64 (Sync.id a) && readable 32 (Sync.moving_time a) &&
  readable 32 (Sync.elapsed_time a) &&
  match Sync.start_date a, Js.to_decimal (Sync.distance a),
        Js.to_decimal (Sync.distanceMiles a) with
  | Some _, Some _, Some _ => true
  | _, _, _ => false
  end.

(** The activity is complete and its external id is already stored. *)
Definition already_stored (tbl : list Activities.row) (a : Sync.StravaActivity) : bool :=
  complete a && existsb (fun o => Activities.strava_activity_id o =? Sync.id a) tbl.

(** *** Worked examples *)

(** A connected user whose token expired at the epoch. *)
Definition example_user : Users.row :=
  Users.mk 1 (Some "access"%string) (Some "refresh"%string) (Some 0) None.

(** A 10 km run of user 1 inside the region, on 10 January 2026. *)
Definition example_activity : Activities.row :=
  Activities.mk 1 1001 "Run" (Time.mk 2026 1 10 0) 10000 6.21 None None
                (Some 39.0%Q) (Some (-77.0)%Q) (Some true) (Some false).

Definition example_db : database :=
  mkdb [example_user] [example_activity] [] [] [].

Definition example_now : Time.timestamptz := Time.mk 2026 1 20 43200000000.

(** [example_db] after a first recalculation for user 1. *)
Definition example_db_recalculated : database :=
  match Mileage.recalculate_user_mileage example_now 1 example_db with
  | Ok db => db
  | Error _ => example_db
  end.

(** Later the same day, and early in the following month. *)
Definition example_later : Time.timestamptz := Time.mk 2026 1 20 43260000000.
Definition example_next_month : Time.timestamptz := Time.mk 2026 2 1 60000000.

(** A drop with the default thresholds; user 1 already holds a basic grant
    frozen at 55 miles and now stands at 160, user 2 stands at 60, user 3
    at 20. *)
Definition example_drop : Drops.row :=
  Drops.mk 7 (Some 50%Q) (Some 100%Q) (Some 150%Q).

Definition example_summary (u : Sql.uuid) (miles : Q) : MileageSummary.row :=
  MileageSummary.mk u (Some miles) (Some 0%Q) (Some miles) (Some miles)
    (Some 1) (Some 1) None
    (Some (Mileage.calculate_access_tier (Some miles)))
    (Some example_now) (Some example_now) (Some example_now).

Definition example_grant : DropAccess.row :=
  DropAccess.mk 7 1 basic (Some (Time.mk 2026 1 5 0)) 55 None None
                (Some (Time.mk 2026 1 5 0)).

Definition example_drop_db : database :=
  mkdb [Users.mk 1 None None None None; Users.mk 2 None None None None;
        Users.mk 3 None None None None]
       []
       [example_summary 1 160; example_summary 2 60; example_summary 3 20]
       [example_drop]
       [example_grant].

(** [example_drop_db] after the qualification of drop 7. *)
Definition example_drop_db_granted : database :=
  with_drop_access example_drop_db
    [example_grant;
     DropAccess.mk 7 2 basic (Some example_now) 60 None None (Some example_now)].

(** The summaries after user 2 has reached 170 miles. *)
Definition example_summaries_later : list MileageSummary.row :=
  [example_summary 1 160; example_summary 2 170; example_summary 3 20].

(** A run of the given distance, for the worked examples. *)
Definition run_of (activity_id : Z) (meters : Js.number) : Sync.StravaActivity :=
  Sync.mk_activity activity_id "Run" "Run" (Some (Time.mk 2026 1 10 0)) meters
                   0 0 None false.

(** An invocation for user 1 on 20 January 2026, with a provider that
    rejects the refresh exchange and lists two runs: one of 5 km, and one
    whose distance is beyond the range of a number and so reads as
    [Infinity], which JSON writes as [null]. *)
Definition example_env : Sync.Env :=
  Sync.mk_env (Some "client-id"%string) (Some "client-secret"%string).

Definition example_request : Sync.Request := Sync.mk_request "POST" (Some 1).

Definition example_clock : Sync.Clock :=
  Sync.mk_clock 1768910400000 1768910400100 1768910400900 example_now.

Definition example_provider : Sync.Provider :=
  Sync.mk_provider
    (fun _ _ _ => Sync.fetch_not_ok "Bad Request")
    (fun _ _ => Sync.fetch_ok [run_of 2001 (Js.of_Z 5000);
                               run_of 2002 (S754_infinity false)]).

(** A database whose user 1 holds a token that is still valid. *)
Definition example_valid_db : database :=
  mkdb [Users.mk 1 (Some "access"%string) (Some "refresh"%string)
                 (Some 1768996800000) (Some 1768824000000)]
       [] [] [] [].

(** Two fetched runs: the first is the one [example_db] already stores,
    the second is new. *)
Definition example_fetched : list Sync.StravaActivity :=
  [run_of 1001 (Js.of_Z 10000); run_of 1002 (Js.literal 50005 1)].

(* ===================================================================== *)
(** ** Further notions *)
(* ===================================================================== *)

(** The order [none < basic < premium < exclusive]. *)
Definition tier_rank (t : tier) : Z :=
  match t with none => 0 | basic => 1 | premium => 2 | exclusive => 3 end.

(** What the importer stores for a fetched activity. *)
Definition stored_from (userId : Sql.uuid) (a : Sync.StravaActivity)
    (r : Activities.row) : Prop :=
  Activities.user_id r = userId /\
  Activities.strava_activity_id r = Sync.id a /\
  Activities.activity_type r =
    (if String.eqb (Sync.type a) "" then Sync.sport_type a else Sync.type a) /\
  Sync.start_date a = Some (Activities.activity_date r) /\
  Js.to_decimal (Sync.distance a) = Some (Activities.distance_meters r) /\
  Js.to_decimal (Sync.distanceMiles a) = Some (Activities.distance_miles r) /\
  Activities.is_dc_metro_area r =
    match Activities.start_latitude r, Activities.start_longitude r with
    | Some lat, Some lon => ActivityStore.is_in_dc_metro (Some lat) (Some lon)
    | _, _ => Some false
    end /\
  Activities.is_dc_metro_area r <> None.

(** The summary row meets the [WHERE] condition of the statement that
    grants tier [t]. *)
Definition granted_as (v_drop : Drops.row) (s : MileageSummary.row) (t : tier) : Prop :=
  match t with
  | exclusive => Sql.holds (meets_exclusive v_drop s) = true
  | premium => Sql.holds (meets_premium v_drop s) = true
  | basic => Sql.holds (meets_basic v_drop s) = true
  | none => False
  end.

(** A grant row written at [now] for drop [p] from the summary row [s]. *)
Definition granted_from (now : Time.timestamptz) (p : Sql.uuid) (v_drop : Drops.row)
    (s : MileageSummary.row) (g : DropAccess.row) : Prop :=
  DropAccess.drop_id g = p /\
  DropAccess.user_id g = MileageSummary.user_id s /\
  MileageSummary.current_month_miles s = Some (DropAccess.mileage_at_qualification g) /\
  DropAccess.qualified_at g = Some now /\
  DropAccess.notified_at g = None /\
  DropAccess.first_viewed_at g = None /\
  granted_as v_drop s (DropAccess.access_tier g).

(** The [after] parameter of the activity listing: the last sync in whole
    seconds, or 90 days before [Date.now()]. *)
Definition horizon (clock : Sync.Clock) (last_synced_at : option Z) : Z :=
  match last_synced_at with
  | Some t => t / 1000
  | None => (Sync.Date_now clock - 90 * 24 * 60 * 60 * 1000) / 1000
  end.

(** The stored credentials of a [users] row. *)
Definition credentials (u : Users.row) : option string * option string * option Z :=
  (Users.strava_access_token u, Users.strava_refresh_token u, Users.token_expires_at u).

(** What the sync handler may change for a request of user [userId]: the
    row of that user in [users], appended rows in [activities], the row of
    that user in [mileage_summary]; nothing in [drops] and [drop_access]. *)
Definition changed_only_for (userId : Sql.uuid) (db db' : database) : Prop :=
  drops db' = drops db /\
  drop_access db' = drop_access db /\
  Forall2 (fun u u' => Users.id u' = Users.id u /\ (Users.id u <> userId -> u' = u))
          (users db) (users db') /\
  (exists new, activities db' = activities db ++ new) /\
  (forall r, MileageSummary.user_id r <> userId ->
             (In r (mileage_summary db') <-> In r (mileage_summary db))).

(* ===================================================================== *)
(** ** Community statistics *)
(* ===================================================================== *)

Module CommunityStats.

(** The rows of a nullable column that are not NULL: [SUM] skips the
    others. *)
Definition non_null {A} (l : list (option A)) : list A :=
  flat_map (fun o => match o with Some x => [x] | None => [] end) l.

(** [SUM] of an integer column: NULL on no row. *)
Definition sum_int (l : list Z) : option Z :=
  match l with
  | [] => None
  | x :: r => Some (fold_left Z.add r x)
  end.

(** The object [json_build_object] returns. *)
Record stats := mk_stats {
  waitlist_count : Z;
  total_miles : Q;
  connected_users : Z;
  total_activities : Z
}.

(** [get_community_stats()]; of [waitlist] only the number of rows is
    read. *)
Definition get_community_stats {W} (waitlist : list W) (db : database) : stats :=
  let v_waitlist_count := Z.of_nat (List.length waitlist) in
  let v_total_miles :=
    Sql.coalesce
      (Sql.sum (non_null (map MileageSummary.total_miles (mileage_summary db)))) 0%Q in
  let v_connected_users := Z.of_nat (List.length (mileage_summary db)) in
  let v_total_activities :=
    Sql.coalesce
      (sum_int (non_null (map MileageSummary.total_activities (mileage_summary db)))) 0 in
  mk_stats v_waitlist_count (Sql.round v_total_miles 1)
           v_connected_users v_total_activities.

End CommunityStats.

(* ===================================================================== *)
(** ** The OAuth callback *)
(* ===================================================================== *)

(** [users] with the columns the callback writes next to those the sync
    function selects ([user]); [connected_at] is kept like the other two
    timestamps, as milliseconds since the epoch.  [email] and
    [created_at] are written by neither function; [updated_at], which a
    trigger stamps on each updated row, is read by none. *)
Module Accounts.
Record row := mk {
  user : Users.row;
  strava_id : option Z;
  connected_at : option Z;
  first_name : string;
  last_name : option string;
  profile_picture_url : option string;
  city : option string;
  state : option string
}.
End Accounts.

Module Athlete.
Record t := mk {
  id : Z;
  username : string;
  firstname : string;
  lastname : string;
  city : string;
  state : string;
  profile : string
}.
End Athlete.

Module OAuth.

Record StravaTokenResponse := mk_token {
  token_type : string;
  expires_at : Z;
  expires_in : Z;
  refresh_token : string;
  access_token : string;
  athlete : Athlete.t
}.

(** The token endpoint, asked with the client identity and the
    authorization code. *)
Record Provider := mk_provider {
  oauth_token : string -> string -> string -> Sync.fetched StravaTokenResponse
}.

(** The requests the callback sends: the token exchange, and the sync
    function of the same deployment, which it does not wait for. *)
Inductive call : Type :=
| call_oauth_token (client_id client_secret code : string)
| call_sync (userId : Sql.uuid).

Record Env := mk_env {
  STRAVA_CLIENT_ID : option string;
  STRAVA_CLIENT_SECRET : option string;
  APP_URL : option string
}.

(** The request: its method and the [code] and [state] parameters of its
    URL, [state] carrying the id of the user who is connecting. *)
Record Request := mk_request {
  method : string;
  code : option string;
  state : option Sql.uuid
}.

(** [{ error: error.message }] of an error the database reports is kept
    as the error's SQLSTATE. *)
Inductive Body : Type :=
| no_body
| error_body (error : string) (details : option string)
| database_error (sqlstate : string).

Record Response := mk_response {
  status : Z;
  body : Body;
  Location : option string
}.

(** [!s] of a string that may be missing. *)
Definition missing (s : option string) : bool :=
  match s with
  | None => true
  | Some s => String.eqb s ""
  end.

(** [a || b] on strings. *)
Definition or_else (a : option string) (b : string) : string :=
  match a with
  | None => b
  | Some s => if String.eqb s "" then b else s
  end.

Definition error_response (st : Z) (message : string) : Response :=
  mk_response st (error_body message None) None.

(** The row [update({...})] leaves in place of [a]. *)
Definition connected (tokenData : StravaTokenResponse) (connected_now : Z)
    (a : Accounts.row) : Accounts.row :=
  Accounts.mk
    (Users.mk (Users.id (Accounts.user a))
              (Some (access_token tokenData))
              (Some (refresh_token tokenData))
              (Some (expires_at tokenData * 1000))
              (Users.last_synced_at (Accounts.user a)))
    (Some (Athlete.id (athlete tokenData)))
    (Some connected_now)
    (or_else (Some (Athlete.firstname (athlete tokenData))) "")
    (Some (Athlete.lastname (athlete tokenData)))
    (Some (Athlete.profile (athlete tokenData)))
    (Some (Athlete.city (athlete tokenData)))
    (Some (Athlete.state (athlete tokenData))).

Definition is_user (userId : Sql.uuid) (a : Accounts.row) : bool :=
  Users.id (Accounts.user a) =? userId.

Definition has_strava_id (athlete_id : Z) (a : Accounts.row) : bool :=
  match Accounts.strava_id a with
  | Some s => s =? athlete_id
  | None => false
  end.

(** The constraints of [users] on the rows of id [userId] rewritten:
    [strava_id] is UNIQUE, so the statement fails when a rewritten row
    meets another row of the same [strava_id], be it one left alone or a
    second rewritten one. *)
Definition update_rows (userId : Sql.uuid) (tokenData : StravaTokenResponse)
    (connected_now : Z) (tbl : list Accounts.row) : result (list Accounts.row) :=
  let rewritten := filter (is_user userId) tbl in
  let others := filter (fun a => negb (is_user userId a)) tbl in
  match rewritten with
  | [] => Ok tbl
  | [_] =>
      if existsb (has_strava_id (Athlete.id (athlete tokenData))) others
      then Error unique_violation
      else Ok (map (fun a => if is_user userId a
                             then connected tokenData connected_now a else a) tbl)
  | _ :: _ :: _ => Error unique_violation
  end.

(** [update({...}).eq("id", userId)]: the values of the payload are read
    into the types of their columns first, [strava_id] (bigint) before
    [token_expires_at] (timestamptz), and a value its column does not
    read fails the statement; then the rows are rewritten. *)
Definition update_user (userId : Sql.uuid) (tokenData : StravaTokenResponse)
    (connected_now : Z) (tbl : list Accounts.row) : result (list Accounts.row) :=
  match ActivityStore.integer_input 64 (Athlete.id (athlete tokenData)) with
  | Error sqlstate => Error sqlstate
  | Ok _ =>
      match Sync.timestamptz_input (expires_at tokenData * 1000) with
      | Error sqlstate => Error sqlstate
      | Ok _ => update_rows userId tokenData connected_now tbl
      end
  end.

(** The handler given to [Deno.serve]: the response, the [users] table it
    leaves, and the requests it sent.  [connected_now] is the reading
    of [new Date()] for [connected_at]; the token endpoint's JSON has the
    shape of [StravaTokenResponse].  The object handed to [update] is
    built first: an expiry that is no valid date makes [toISOString] throw
    and the handler answer with the error's message before the database
    is asked. *)
Definition handler (env : Env) (provider : Provider) (connected_now : Z)
    (req : Request) (tbl : list Accounts.row)
  : Response * list Accounts.row * list call :=
  if String.eqb (method req) "OPTIONS" then (mk_response 200 no_body None, tbl, [])
  else if missing (code req)
  then (error_response 400 "No authorization code provided", tbl, [])
  else
    match state req with
    | None => (error_response 400 "No user ID provided", tbl, [])
    | Some userId =>
        if missing (STRAVA_CLIENT_ID env) || missing (STRAVA_CLIENT_SECRET env)
        then (error_response 500
                "Strava not configured. Set STRAVA_CLIENT_ID and STRAVA_CLIENT_SECRET environment variables.",
              tbl, [])
        else
          let stravaClientId := or_else (STRAVA_CLIENT_ID env) "" in
          let stravaClientSecret := or_else (STRAVA_CLIENT_SECRET env) "" in
          let code_ := or_else (code req) "" in
          let calls := [call_oauth_token stravaClientId stravaClientSecret code_] in
          match oauth_token provider stravaClientId stravaClientSecret code_ with
          | Sync.fetch_throws message => (error_response 500 message, tbl, calls)
          | Sync.fetch_not_ok errorText =>
              (mk_response 500
                 (error_body "Failed to exchange code for token" (Some errorText))
                 None,
               tbl, calls)
          | Sync.fetch_ok tokenData =>
              match Sync.toISOString (expires_at tokenData * 1000) with
              | Error message => (error_response 500 message, tbl, calls)
              | Ok _ =>
                  match update_user userId tokenData connected_now tbl with
                  | Error sqlstate =>
                      (mk_response 500 (database_error sqlstate) None, tbl, calls)
                  | Ok tbl' =>
                      let appUrl :=
                        or_else (APP_URL env) "https://www.districtrun.co" in
                      (mk_response 302 no_body
                         (Some (appUrl ++ "/dashboard?strava=connected")%string),
                       tbl', calls ++ [call_sync userId])
                  end
              end
          end
    end.

(** The environment and the database as the sync function sees them. *)
Definition sync_env (env : Env) : Sync.Env :=
  Sync.mk_env (STRAVA_CLIENT_ID env) (STRAVA_CLIENT_SECRET env).

Definition sync_view (tbl : list Accounts.row) (db : database) : database :=
  with_users db (map Accounts.user tbl).

(** The [strava_id]s in use. *)
Definition strava_ids (tbl : list Accounts.row) : list Z :=
  flat_map (fun a => match Accounts.strava_id a with
                     | Some s => [s]
                     | None => []
                     end) tbl.

End OAuth.

Definition example_token : OAuth.StravaTokenResponse :=
  OAuth.mk_token "Bearer" 1768996800 21600 "new-refresh" "new-access"
    (Athlete.mk 4242 "runner" "Ada" "Lovelace" "Washington" "DC" "https://example.org/a.png").

Definition example_oauth_provider : OAuth.Provider :=
  OAuth.mk_provider (fun _ _ _ => Sync.fetch_ok example_token).

Definition example_oauth_env : OAuth.Env :=
  OAuth.mk_env (Some "client-id"%string) (Some "client-secret"%string) None.

Definition example_accounts : list Accounts.row :=
  [Accounts.mk (Users.mk 1 None None None None) None None "" None None None None;
   Accounts.mk (Users.mk 2 (Some "a2"%string) (Some "r2"%string) (Some 0) None)
               (Some 77) (Some 0) "Bob" None None None None].

Definition example_callback : OAuth.Request :=
  OAuth.mk_request "GET" (Some "auth-code"%string) (Some 1).

(* ===================================================================== *)
(** ** Access tier *)
(* ===================================================================== *)

Lemma Qle_bool_false_lt (a b : Q) : Qle_bool a b = false -> (b < a)%Q.
Proof.
  intros H. apply Qnot_le_lt. intros Hle.
  apply Qle_bool_iff in Hle. congruence.
Qed.

Lemma calculate_access_tier_reference (m : Q) :
  Reference.tier_of m (Mileage.calculate_access_tier (Some m)).
Proof.
  unfold Mileage.calculate_access_tier; simpl.
  destruct (Qle_bool 150 m) eqn:E1; simpl.
  { constructor. now apply Qle_bool_iff. }
  apply Qle_bool_false_lt in E1.
  destruct (Qle_bool 100 m) eqn:E2; simpl.
  { constructor; [now apply Qle_bool_iff | exact E1]. }
  apply Qle_bool_false_lt in E2.
  destruct (Qle_bool 50 m) eqn:E3; simpl.
  { constructor; [now apply Qle_bool_iff | exact E2]. }
  apply Qle_bool_false_lt in E3.
  now constructor.
Qed.

Lemma tier_of_deterministic (m : Q) (t1 t2 : tier) :
  Reference.tier_of m t1 -> Reference.tier_of m t2 -> t1 = t2.
Proof.
  intros H1 H2; destruct H1; destruct H2; try reflexivity; exfalso;
    repeat match goal with
           | H : (_ <= _)%Q |- _ => apply Qle_bool_iff in H; unfold Qle_bool in H; simpl in H
           | H : (_ < _)%Q |- _ => unfold Qlt in H; simpl in H
           end;
    repeat match goal with
           | H : (_ <=? _)%Z = true |- _ => apply Z.leb_le in H
           end; lia.
Qed.

(** C3. [calculate_access_tier] is the reference step function of the
    current-month distance: for every distance [m] it returns a tier, and
    that tier is the one the four intervals give ([m >= 150] exclusive,
    [100 <= m < 150] premium, [50 <= m < 100] basic, [m < 50] none); the
    six boundary values map as listed. *)
Theorem calculate_access_tier_is_step_function :
  (forall (m : Q) (t : tier),
      Reference.tier_of m t <-> Mileage.calculate_access_tier (Some m) = t) /\
  Mileage.calculate_access_tier (Some 49.99%Q) = none /\
  Mileage.calculate_access_tier (Some 50.00%Q) = basic /\
  Mileage.calculate_access_tier (Some 99.99%Q) = basic /\
  Mileage.calculate_access_tier (Some 100.00%Q) = premium /\
  Mileage.calculate_access_tier (Some 149.99%Q) = premium /\
  Mileage.calculate_access_tier (Some 150.00%Q) = exclusive.
Proof.
  split; [|repeat split; reflexivity].
  intros m t; split.
  - intros H. eapply tier_of_deterministic; [apply calculate_access_tier_reference | exact H].
  - intros <-. apply calculate_access_tier_reference.
Qed.

(* ===================================================================== *)
(** ** Unit conversion *)
(* ===================================================================== *)

Lemma round_half_away_near (q : Q) :
  (Qabs (inject_Z (Sql.round_half_away q) - q) <= 1 # 2)%Q.
Proof.
  apply Qabs_Qle_condition. unfold Sql.round_half_away.
  destruct (Qle_bool 0 q).
  - pose proof (Qfloor_le (q + (1 # 2))) as Hlo.
    pose proof (Qlt_floor (q + (1 # 2))) as Hhi.
    rewrite inject_Z_plus in Hhi. change (inject_Z 1) with 1%Q in Hhi.
    set (k := inject_Z (Qfloor (q + (1 # 2)))) in *. clearbody k.
    split; lra.
  - pose proof (Qfloor_le (- q + (1 # 2))) as Hlo.
    pose proof (Qlt_floor (- q + (1 # 2))) as Hhi.
    rewrite inject_Z_plus in Hhi. change (inject_Z 1) with 1%Q in Hhi.
    rewrite inject_Z_opp.
    set (k := inject_Z (Qfloor (- q + (1 # 2)))) in *. clearbody k.
    split; lra.
Qed.

Lemma meters_to_miles_hundredths (meters : Q) :
  ActivityStore.meters_to_miles meters =
  Qmake (Sql.round_half_away (meters * 0.000621371 * 100)) 100.
Proof. reflexivity. Qed.

Lemma meters_to_miles_near (meters : Q) :
  (Qabs (ActivityStore.meters_to_miles meters - meters * 0.000621371) <= 1 # 200)%Q.
Proof.
  rewrite meters_to_miles_hundredths.
  set (x := (meters * 0.000621371)%Q).
  pose proof (round_half_away_near (x * 100)) as H.
  set (k := Sql.round_half_away (x * 100)) in *.
  apply Qabs_Qle_condition in H. apply Qabs_Qle_condition.
  assert (E : (k # 100 == inject_Z k / 100)%Q).
  { rewrite (Qmake_Qdiv k 100). reflexivity. }
  rewrite E. split.
  - apply Qle_minus_iff. destruct H as [H _]. apply Qle_minus_iff in H.
    setoid_replace (inject_Z k / 100 - x + - - (1 # 200))%Q
      with ((inject_Z k - x * 100 + - - (1 # 2)) * (1 # 100))%Q by (field).
    apply Qmult_le_0_compat; [exact H | discriminate].
  - apply Qle_minus_iff. destruct H as [_ H]. apply Qle_minus_iff in H.
    setoid_replace ((1 # 200) + - (inject_Z k / 100 - x))%Q
      with (((1 # 2) + - (inject_Z k - x * 100)) * (1 # 100))%Q by (field).
    apply Qmult_le_0_compat; [exact H | discriminate].
Qed.

(** Rounding to the nearest integer with ties away from zero, as an
    interval: closed below for a value that is not negative, closed above
    for a negative one. *)
Lemma round_half_away_interval (q : Q) :
  let k := inject_Z (Sql.round_half_away q) in
  ((0 <= q)%Q -> (k - (1 # 2) <= q)%Q /\ (q < k + (1 # 2))%Q) /\
  ((q < 0)%Q -> (k - (1 # 2) < q)%Q /\ (q <= k + (1 # 2))%Q).
Proof.
  cbv zeta. unfold Sql.round_half_away.
  destruct (Qle_bool 0 q) eqn:E.
  - apply Qle_bool_iff in E.
    pose proof (Qfloor_le (q + (1 # 2))) as Hlo.
    pose proof (Qlt_floor (q + (1 # 2))) as Hhi.
    rewrite inject_Z_plus in Hhi. change (inject_Z 1) with 1%Q in Hhi.
    set (k := inject_Z (Qfloor (q + (1 # 2)))) in *. clearbody k.
    split; intros H; split; lra.
  - apply Qle_bool_false_lt in E.
    pose proof (Qfloor_le (- q + (1 # 2))) as Hlo.
    pose proof (Qlt_floor (- q + (1 # 2))) as Hhi.
    rewrite inject_Z_plus in Hhi. change (inject_Z 1) with 1%Q in Hhi.
    rewrite inject_Z_opp.
    set (k := inject_Z (Qfloor (- q + (1 # 2)))) in *. clearbody k.
    split; intros H; split; lra.
Qed.

(** [ROUND(v, s)] as an interval around the result. *)
Lemma round_interval (q : Q) (s : nat) :
  let r := Sql.round q s in
  let h := (1 # 2 * Z.to_pos (10 ^ Z.of_nat s))%Q in
  (exists k : Z, r = Qmake k (Z.to_pos (10 ^ Z.of_nat s))) /\
  ((0 <= q)%Q -> (r - h <= q)%Q /\ (q < r + h)%Q) /\
  ((q < 0)%Q -> (r - h < q)%Q /\ (q <= r + h)%Q).
Proof.
  cbv zeta. unfold Sql.round.
  set (p := 10 ^ Z.of_nat s).
  assert (Hp : 0 < p) by (apply Z.pow_pos_nonneg; lia).
  split; [eexists; reflexivity|].
  set (d := Z.to_pos p).
  assert (Ed : (inject_Z p == inject_Z (Zpos d))%Q).
  { unfold d. rewrite Z2Pos.id by exact Hp. reflexivity. }
  destruct (round_half_away_interval (q * inject_Z p)) as [Hnon Hneg].
  set (k := Sql.round_half_away (q * inject_Z p)) in *.
  assert (Er : (k # d == inject_Z k / inject_Z (Zpos d))%Q) by apply Qmake_Qdiv.
  assert (Eh : ((1 # 2 * d) == (1 # 2) / inject_Z (Zpos d))%Q).
  { unfold Qeq, Qdiv, Qmult, Qinv, inject_Z. simpl. lia. }
  assert (Hd : (0 < inject_Z (Zpos d))%Q) by (unfold Qlt, inject_Z; simpl; lia).
  rewrite Ed in Hnon, Hneg.
  set (D := inject_Z (Zpos d)) in *. set (K := inject_Z k) in *.
  assert (Hmul : forall a b : Q, (a <= b -> a / D <= b / D)%Q).
  { intros a b Hab. apply Qmult_le_compat_r; [exact Hab|].
    apply Qlt_le_weak, Qinv_lt_0_compat, Hd. }
  assert (Hmuls : forall a b : Q, (a < b -> a / D < b / D)%Q).
  { intros a b Hab. apply Qmult_lt_compat_r; [apply Qinv_lt_0_compat, Hd | exact Hab]. }
  assert (Eq : (q * D / D == q)%Q) by (field; intros H0; rewrite H0 in Hd; discriminate).
  assert (E1 : ((K - (1 # 2)) / D == K / D - (1 # 2) / D)%Q)
    by (field; intros H0; rewrite H0 in Hd; discriminate).
  assert (E2 : ((K + (1 # 2)) / D == K / D + (1 # 2) / D)%Q)
    by (field; intros H0; rewrite H0 in Hd; discriminate).
  rewrite Er, Eh. split.
  - intros H0. destruct Hnon as [H1 H2].
    { apply Qmult_le_0_compat; [exact H0 | apply Qlt_le_weak, Hd]. }
    apply Hmul in H1. apply Hmuls in H2. rewrite Eq in H1, H2.
    rewrite E1 in H1. rewrite E2 in H2. split; assumption.
  - intros H0. destruct Hneg as [H1 H2].
    { setoid_replace 0%Q with (0 * D)%Q by ring.
      apply Qmult_lt_compat_r; assumption. }
    apply Hmuls in H1. apply Hmul in H2. rewrite Eq in H1, H2.
    rewrite E1 in H1. rewrite E2 in H2. split; assumption.
Qed.

(** X25.  The SQL conversion [meters_to_miles] rounds to the nearest
    hundredth with ties away from zero: for every distance in meters the
    result [r] is a whole number of hundredths, and the product
    [p = meters * 0.000621371] lies in [r - 0.005, r + 0.005) when it is
    not negative and in (r - 0.005, r + 0.005] when it is negative; so the
    result is within half a hundredth of the product and determined by
    it.  Ties: 5000000 m gives 3106.86, 15000000 m gives 9320.57 and
    -5000000 m gives -3106.86.  1609.34 m converts to 1.00 and 10000 m to
    6.21, and the importer's binary64 computation
    [Math.round(distance * 0.000621371 * 100) / 100] stores the same 1.00
    and 6.21 for these two distances. *)
Theorem meters_to_miles_rounds_to_hundredths :
  (forall meters : Q,
      let r := ActivityStore.meters_to_miles meters in
      let p := (meters * 0.000621371)%Q in
      (exists k : Z, r = Qmake k 100) /\
      ((0 <= p)%Q -> (r - (1 # 200) <= p)%Q /\ (p < r + (1 # 200))%Q) /\
      ((p < 0)%Q -> (r - (1 # 200) < p)%Q /\ (p <= r + (1 # 200))%Q) /\
      (Qabs (r - p) <= 1 # 200)%Q) /\
  (ActivityStore.meters_to_miles 5000000 == 3106.86)%Q /\
  (ActivityStore.meters_to_miles 15000000 == 9320.57)%Q /\
  (ActivityStore.meters_to_miles (-5000000) == -3106.86)%Q /\
  (ActivityStore.meters_to_miles 1609.34 == 1.00)%Q /\
  (ActivityStore.meters_to_miles 10000 == 6.21)%Q /\
  Js.to_decimal (Js.literal 160934 2) = Some 1609.34%Q /\
  (exists q, Js.to_decimal (Sync.distanceMiles (run_of 1 (Js.literal 160934 2))) = Some q /\
             (q == 1.00)%Q) /\
  (exists q, Js.to_decimal (Sync.distanceMiles (run_of 2 (Js.of_Z 10000))) = Some q /\
             (q == 6.21)%Q).
Proof.
  split.
  { intros meters r p.
    destruct (round_interval p 2) as (Hk & Hnon & Hneg).
    refine (conj Hk (conj Hnon (conj Hneg _))).
    apply meters_to_miles_near. }
  repeat split; try (vm_compute; reflexivity).
  - eexists; split; [vm_compute; reflexivity | reflexivity].
  - eexists; split; [vm_compute; reflexivity | reflexivity].
Qed.

Lemma meters_to_miles_rounds_to_hundredths_witness :
  (0 <= 5000000 * 0.000621371)%Q /\
  (ActivityStore.meters_to_miles 5000000 - (1 # 200) <= 5000000 * 0.000621371)%Q /\
  (5000000 * 0.000621371 < ActivityStore.meters_to_miles 5000000 + (1 # 200))%Q.
Proof.
  assert (H : (0 <= 5000000 * 0.000621371)%Q) by (unfold Qle; simpl; lia).
  split; [exact H|].
  exact (proj1 (proj2 (proj1 meters_to_miles_rounds_to_hundredths 5000000%Q)) H).
Defined.

(** C9.  The importer does not reproduce the rounding policy.  The
    provider's number 40.23361244731408 (meters) is stored as that decimal
    in [distance_meters].  Its product with 0.000621371 lies strictly
    between 0.015 and 0.025, so rounded to two places it is 0.02, and
    0.02 is what the SQL conversion [meters_to_miles] returns for it.  The
    importer's [Math.round(distance * 0.000621371 * 100) / 100] stores
    0.03 in [distance_miles]: the binary64 product reaches the tie 2.5
    that the exact product stays below. *)
Theorem importer_rounding_differs_from_meters_to_miles :
  let activity := run_of 3 (Js.literal 4023361244731408 14) in
  Js.to_decimal (Sync.distance activity) = Some 40.23361244731408%Q /\
  (0.015 < 40.23361244731408 * 0.000621371)%Q /\
  (40.23361244731408 * 0.000621371 < 0.025)%Q /\
  ActivityStore.meters_to_miles 40.23361244731408 = 0.02%Q /\
  Js.to_decimal (Sync.distanceMiles activity) = Some 0.03%Q /\
  (exists v,
      Js.value (Js.mul (Js.mul (Sync.distance activity) (Js.literal 621371 9))
                       (Js.of_Z 100)) = Some v /\
      (v == 2.5)%Q) /\
  ~ (0.03 == 0.02)%Q.
Proof.
  cbv zeta.
  refine (conj _ (conj _ (conj _ (conj _ (conj _ (conj _ _))))));
    try (vm_compute; reflexivity).
  - eexists. split; vm_compute; reflexivity.
  - intros H. vm_compute in H. discriminate H.
Qed.


(* ===================================================================== *)
(** ** The tier trigger *)
(* ===================================================================== *)

Lemma update_access_tier_fresh now (r : MileageSummary.row) :
  tier_fresh (Mileage.update_access_tier now r).
Proof. reflexivity. Qed.

Lemma update_access_tier_current_month_miles now (r : MileageSummary.row) :
  MileageSummary.current_month_miles (Mileage.update_access_tier now r) =
  MileageSummary.current_month_miles r.
Proof. reflexivity. Qed.

Lemma insert_keeps_fresh now db_users r tbl tbl' :
  Mileage.insert now db_users r tbl = Ok tbl' ->
  Forall tier_fresh tbl -> Forall tier_fresh tbl'.
Proof.
  unfold Mileage.insert. intros H Hall.
  destruct (existsb _ tbl); [discriminate|].
  destruct (negb _); [discriminate|].
  injection H as <-. apply Forall_app. split; [exact Hall|].
  constructor; [apply update_access_tier_fresh | constructor].
Qed.

Lemma assign_untouched (OLD : MileageSummary.row) set :
  existsb Mileage.is_current_month_miles set = false ->
  existsb Mileage.is_access_tier set = false ->
  forall r,
    MileageSummary.current_month_miles (fold_left (Mileage.assign OLD) set r) =
    MileageSummary.current_month_miles r /\
    MileageSummary.access_tier (fold_left (Mileage.assign OLD) set r) =
    MileageSummary.access_tier r.
Proof.
  induction set as [|a set IH]; simpl; intros Hm Ht r; [split; reflexivity|].
  apply orb_false_iff in Hm as [Ha Hm]. apply orb_false_iff in Ht as [Hb Ht].
  destruct (IH Hm Ht (Mileage.assign OLD r a)) as [E1 E2]. rewrite E1, E2.
  destruct a; simpl in *; try discriminate; split; reflexivity.
Qed.

Lemma update_keeps_fresh now set where_ tbl :
  existsb Mileage.is_current_month_miles set = true \/
  existsb Mileage.is_access_tier set = false ->
  Forall tier_fresh tbl -> Forall tier_fresh (Mileage.update now set where_ tbl).
Proof.
  intros Hset Hall. unfold Mileage.update. apply Forall_map.
  eapply Forall_impl; [|exact Hall]. intros OLD Hfresh.
  destruct (where_ OLD); [|exact Hfresh].
  destruct (existsb Mileage.is_current_month_miles set) eqn:Em.
  - apply update_access_tier_fresh.
  - destruct Hset as [Hset|Hset]; [discriminate|].
    destruct (assign_untouched OLD set Em Hset OLD) as [E1 E2].
    unfold tier_fresh. rewrite E1, E2. exact Hfresh.
Qed.

Lemma recalculate_keeps_fresh now p_user_id db db' :
  Mileage.recalculate_user_mileage now p_user_id db = Ok db' ->
  Forall tier_fresh (mileage_summary db) -> Forall tier_fresh (mileage_summary db').
Proof.
  unfold Mileage.recalculate_user_mileage. intros H Hall.
  destruct (existsb _ (mileage_summary db)).
  - injection H as <-. simpl. apply update_keeps_fresh; [left; reflexivity | exact Hall].
  - destruct (negb _); [discriminate|]. injection H as <-. simpl.
    apply Forall_app. split; [exact Hall|].
    constructor; [apply update_access_tier_fresh | constructor].
Qed.

Lemma step_keeps_fresh db db' :
  summary_step db db' ->
  Forall tier_fresh (mileage_summary db) -> Forall tier_fresh (mileage_summary db').
Proof.
  intros Hstep Hall. destruct Hstep; simpl.
  - eapply insert_keeps_fresh; eassumption.
  - now apply update_keeps_fresh.
  - eapply recalculate_keeps_fresh; eassumption.
  - apply Forall_forall. intros x Hx. apply filter_In in Hx as [Hx _].
    revert x Hx. now apply Forall_forall.
  - now rewrite H.
Qed.

Lemma assign_user_id (OLD : MileageSummary.row) set :
  forall r,
    MileageSummary.user_id (fold_left (Mileage.assign OLD) set r) =
    MileageSummary.user_id r.
Proof.
  induction set as [|a set IH]; simpl; intros r; [reflexivity|].
  rewrite IH. destruct a; reflexivity.
Qed.

Lemma update_written_rows_fresh now set where_ tbl :
  existsb Mileage.is_current_month_miles set = true ->
  Forall2 (fun OLD NEW => where_ OLD = true -> tier_fresh NEW)
          tbl (Mileage.update now set where_ tbl).
Proof.
  intros Hset. unfold Mileage.update. induction tbl as [|OLD tbl IH]; simpl.
  - constructor.
  - constructor; [|exact IH]. intros ->. rewrite Hset.
    apply update_access_tier_fresh.
Qed.

Lemma update_user_id now set where_ tbl :
  map MileageSummary.user_id (Mileage.update now set where_ tbl) =
  map MileageSummary.user_id tbl.
Proof.
  unfold Mileage.update. rewrite map_map. apply map_ext. intros OLD.
  destruct (where_ OLD); [|reflexivity].
  destruct (existsb _ set); simpl; apply assign_user_id.
Qed.

Lemma recalculate_written_row_fresh now p_user_id db db' :
  Mileage.recalculate_user_mileage now p_user_id db = Ok db' ->
  forall r, In r (mileage_summary db') ->
    MileageSummary.user_id r = p_user_id -> tier_fresh r.
Proof.
  unfold Mileage.recalculate_user_mileage. intros H r Hin Hr.
  destruct (existsb _ (mileage_summary db)) eqn:Ex.
  - injection H as <-. simpl in Hin. unfold Mileage.update in Hin.
    apply in_map_iff in Hin as [OLD [<- _]].
    destruct (MileageSummary.user_id OLD =? p_user_id) eqn:E.
    + apply update_access_tier_fresh.
    + apply Z.eqb_neq in E. simpl in Hr. contradiction.
  - destruct (negb _); [discriminate|]. injection H as <-. simpl in Hin.
    apply in_app_or in Hin as [Hin|[<-|[]]].
    + exfalso. assert (Ht : existsb (fun o => MileageSummary.user_id o =? p_user_id)
                                    (mileage_summary db) = true).
      { apply existsb_exists. exists r. split; [exact Hin | now apply Z.eqb_eq]. }
      congruence.
    + apply update_access_tier_fresh.
Qed.

(** C4.  Every write of the current-month distance leaves the tier of the
    written row equal to [calculate_access_tier] of the stored distance:
    an insert for the row it adds, an update whose [SET] list names
    [current_month_miles] for every row it changes, a recalculation for the
    row of its user.  So in every state reached from the empty
    [mileage_summary] table by inserts, recalculations, deletes and updates
    (those that write [current_month_miles], and those that write neither
    it nor the tier), every row's stored [access_tier] is
    [calculate_access_tier] of its stored [current_month_miles]. *)
Theorem access_tier_never_stale :
  (forall now db_users r tbl tbl',
      Mileage.insert now db_users r tbl = Ok tbl' ->
      exists NEW, tbl' = tbl ++ [NEW] /\ tier_fresh NEW) /\
  (forall now set where_ tbl,
      existsb Mileage.is_current_month_miles set = true ->
      Forall2 (fun OLD NEW => where_ OLD = true -> tier_fresh NEW)
              tbl (Mileage.update now set where_ tbl)) /\
  (forall now p_user_id db db',
      Mileage.recalculate_user_mileage now p_user_id db = Ok db' ->
      forall r, In r (mileage_summary db') ->
        MileageSummary.user_id r = p_user_id -> tier_fresh r) /\
  (forall db, reachable db ->
     forall r, In r (mileage_summary db) ->
       MileageSummary.access_tier r =
       Some (Mileage.calculate_access_tier (MileageSummary.current_month_miles r))).
Proof.
  repeat split.
  - intros now db_users r tbl tbl' H. unfold Mileage.insert in H.
    destruct (existsb _ tbl); [discriminate|].
    destruct (negb _); [discriminate|]. injection H as <-.
    eexists; split; [reflexivity | apply update_access_tier_fresh].
  - apply update_written_rows_fresh.
  - apply recalculate_written_row_fresh.
  - intros db Hreach. apply Forall_forall.
    induction Hreach as [db Hempty | db db' _ IH Hstep].
    + rewrite Hempty. constructor.
    + eapply step_keeps_fresh; eassumption.
Qed.

Lemma example_db_recalculated_reachable : reachable example_db_recalculated.
Proof.
  apply (reachable_step example_db).
  - apply reachable_created. reflexivity.
  - apply (step_recalculate example_db example_now 1). reflexivity.
Qed.

Lemma access_tier_never_stale_witness :
  reachable example_db_recalculated /\
  example_db_recalculated <> example_db /\
  Forall tier_fresh (mileage_summary example_db_recalculated).
Proof.
  split; [exact example_db_recalculated_reachable|].
  split; [discriminate|].
  apply Forall_forall.
  exact (proj2 (proj2 (proj2 access_tier_never_stale))
           example_db_recalculated example_db_recalculated_reachable).
Defined.


(* ===================================================================== *)
(** ** Recalculation *)
(* ===================================================================== *)

Lemma fold_left_Qplus (l : list Q) (x : Q) :
  (fold_left Qplus l x == x + fold_right Qplus 0 l)%Q.
Proof.
  revert x. induction l as [|y l IH]; intros x; simpl.
  - ring.
  - rewrite IH. ring.
Qed.

Lemma sum_coalesce (l : list Q) :
  (Sql.coalesce (Sql.sum l) 0 == fold_right Qplus 0 l)%Q.
Proof.
  destruct l as [|x l]; simpl; [reflexivity | apply fold_left_Qplus].
Qed.

Lemma sum_case_filter {A} (c : A -> bool) (d : A -> Q) (l : list A) :
  (fold_right Qplus 0 (map (fun a => if c a then d a else 0) l) ==
   fold_right Qplus 0 (map d (filter c l)))%Q.
Proof.
  induction l as [|a l IH]; simpl; [reflexivity|].
  destruct (c a); simpl; rewrite IH; ring.
Qed.

Lemma sum_case_region_miles (c : Activities.row -> option bool)
    (window : Time.timestamptz -> bool) (rows : list Activities.row) :
  (forall a, Sql.holds (c a) =
             Reference.in_region a && window (Activities.activity_date a)) ->
  (Sql.coalesce (Mileage.sum_case c rows) 0 == Reference.region_miles window rows)%Q.
Proof.
  intros Hc. unfold Mileage.sum_case, Reference.region_miles.
  rewrite sum_coalesce.
  rewrite (sum_case_filter (fun a => Sql.holds (c a)) Activities.distance_miles).
  rewrite (filter_ext _ _ Hc). reflexivity.
Qed.

Lemma date_trunc_previous_month (now : Time.timestamptz) :
  Time.date_trunc_month (Time.minus_one_month now) = Reference.previous_month_start now.
Proof.
  unfold Time.date_trunc_month, Time.minus_one_month, Reference.previous_month_start.
  simpl. destruct (Time.month now =? 1); reflexivity.
Qed.

Lemma aggregate_summarises now u (l : list Activities.row) :
  Reference.summarises now u l (Mileage.aggregate now u l).
Proof.
  unfold Reference.summarises, Mileage.aggregate; simpl.
  fold (Reference.activities_of u l).
  refine (conj _ (conj _ (conj _ (conj _ (conj _ (conj _ _)))))).
  - eexists; split; [reflexivity|]. apply sum_case_region_miles.
    intros a. unfold Mileage.in_region, Sql.eq_true, Reference.in_region,
      Reference.in_current_month, Time.geb.
    destruct (Activities.is_dc_metro_area a) as [[|]|];
      destruct (Time.leb _ _); reflexivity.
  - eexists; split; [reflexivity|]. apply sum_case_region_miles.
    intros a. rewrite date_trunc_previous_month.
    unfold Mileage.in_region, Sql.eq_true, Reference.in_region,
      Reference.in_previous_month, Time.geb.
    change (Time.date_trunc_month now) with (Reference.current_month_start now).
    destruct (Activities.is_dc_metro_area a) as [[|]|];
      destruct (Time.leb _ _); destruct (Time.ltb _ _); reflexivity.
  - eexists; split; [reflexivity|]. apply sum_case_region_miles.
    intros a. unfold Mileage.in_region, Sql.eq_true, Reference.in_region,
      Reference.in_current_year, Time.geb.
    destruct (Activities.is_dc_metro_area a) as [[|]|];
      destruct (Time.leb _ _); reflexivity.
  - eexists; split; [reflexivity|]. apply sum_case_region_miles.
    intros a. unfold Mileage.in_region, Sql.eq_true, Reference.in_region.
    destruct (Activities.is_dc_metro_area a) as [[|]|]; reflexivity.
  - reflexivity.
  - reflexivity.
  - reflexivity.
Qed.

Lemma NoDup_snoc {A} (l : list A) (a : A) :
  NoDup l -> ~ In a l -> NoDup (l ++ [a]).
Proof.
  induction l as [|x l IH]; simpl; intros Hnd Hin.
  - constructor; [intros [] | constructor].
  - inversion Hnd as [|? ? Hx Hl]; subst. constructor.
    + rewrite in_app_iff. simpl. intros [H|[H|[]]]; [now apply Hx|].
      apply Hin. now left.
    + apply IH; [exact Hl|]. intros H. apply Hin. now right.
Qed.

Lemma recalculate_update_row now u l (OLD : MileageSummary.row) :
  written_from now (Mileage.aggregate now u l)
    (Mileage.update_access_tier now
       (fold_left (Mileage.assign OLD)
          (Mileage.do_update_set now
             (Mileage.update_access_tier now (Mileage.aggregate now u l))) OLD)).
Proof. unfold written_from. simpl. repeat split; reflexivity. Qed.

Lemma recalculate_insert_row now u l :
  written_from now (Mileage.aggregate now u l)
    (Mileage.update_access_tier now (Mileage.aggregate now u l)).
Proof. unfold written_from. simpl. repeat split; reflexivity. Qed.

Lemma existsb_user_id_false u (tbl : list MileageSummary.row) :
  existsb (fun o => MileageSummary.user_id o =? u) tbl = false ->
  ~ In u (map MileageSummary.user_id tbl).
Proof.
  intros Hex Hin. apply in_map_iff in Hin as [r [Hr Hin]].
  assert (Ht : existsb (fun o => MileageSummary.user_id o =? u) tbl = true).
  { apply existsb_exists. exists r. split; [exact Hin | now apply Z.eqb_eq]. }
  congruence.
Qed.

(** What a successful recalculation leaves: the other tables as they
    were, a row for the user, every row of the user written from the
    aggregates, the rows of other users as they were. *)
Lemma recalculate_effect now u db db' :
  Mileage.recalculate_user_mileage now u db = Ok db' ->
  users db' = users db /\ activities db' = activities db /\
  drops db' = drops db /\ drop_access db' = drop_access db /\
  (exists r, In r (mileage_summary db') /\ MileageSummary.user_id r = u) /\
  (forall r, In r (mileage_summary db') -> MileageSummary.user_id r = u ->
             written_from now (Mileage.aggregate now u (activities db)) r) /\
  (forall r, MileageSummary.user_id r <> u ->
             (In r (mileage_summary db') <-> In r (mileage_summary db))) /\
  (NoDup (map MileageSummary.user_id (mileage_summary db)) ->
   NoDup (map MileageSummary.user_id (mileage_summary db'))).
Proof.
  unfold Mileage.recalculate_user_mileage. intros H.
  destruct (existsb _ (mileage_summary db)) eqn:Ex.
  - injection H as <-. simpl. repeat apply conj; try reflexivity.
    + apply existsb_exists in Ex as [OLD [Hin Hu]].
      eexists. split.
      * unfold Mileage.update. apply in_map_iff. exists OLD. split; [reflexivity|exact Hin].
      * rewrite Hu. simpl. now apply Z.eqb_eq.
    + intros r Hin Hr. unfold Mileage.update in Hin.
      apply in_map_iff in Hin as [OLD [<- _]].
      destruct (MileageSummary.user_id OLD =? u) eqn:E.
      * apply recalculate_update_row.
      * apply Z.eqb_neq in E. simpl in Hr. contradiction.
    + intros r Hr. unfold Mileage.update. rewrite in_map_iff. split.
      * intros [OLD [Heq Hin]].
        destruct (MileageSummary.user_id OLD =? u) eqn:E.
        -- exfalso. apply Hr. rewrite <- Heq. simpl. now apply Z.eqb_eq.
        -- now rewrite <- Heq.
      * intros Hin. exists r. split; [|exact Hin].
        apply Z.eqb_neq in Hr. now rewrite Hr.
    + now rewrite update_user_id.
  - destruct (negb _); [discriminate|]. injection H as <-. simpl.
    repeat apply conj; try reflexivity.
    + eexists. split; [apply in_or_app; right; left; reflexivity | reflexivity].
    + intros r Hin Hr. apply in_app_or in Hin as [Hin|[<-|[]]].
      * exfalso. apply (existsb_user_id_false _ _ Ex).
        apply in_map_iff. now exists r.
      * apply recalculate_insert_row.
    + intros r Hr. rewrite in_app_iff. split; [|now left].
      intros [Hin|[<-|[]]]; [exact Hin|]. exfalso. now apply Hr.
    + intros Hnd. rewrite map_app. simpl.
      apply NoDup_snoc; [exact Hnd | now apply existsb_user_id_false].
Qed.

Lemma summarises_written now u l (E r : MileageSummary.row) :
  written_from now E r ->
  Reference.summarises now u l E -> Reference.summarises now u l r.
Proof.
  unfold written_from, Reference.summarises.
  intros (E1 & E2 & E3 & E4 & E5 & E6 & _ & _ & E9 & _).
  rewrite E1, E2, E3, E4, E5, E6, E9.
  intros (H1 & H2 & H3 & H4 & H5 & H6 & _).
  repeat apply conj; assumption || reflexivity.
Qed.

(** C7.  A successful [recalculate_user_mileage] at [now] leaves a row for
    the user; every row of the user (the one row, the key being unique)
    then holds: as current-month distance the in-region miles dated at or
    after the first instant of the current calendar month; as prior-month
    distance those dated from the start of the previous calendar month up
    to, not including, the start of the current one; as current-year
    distance those dated from the first instant of the current year; as
    all-time distance all in-region miles; as counts all the user's
    activities and all the in-region ones, whatever their date. *)
Theorem recalculate_user_mileage_windows now p_user_id db db' :
  Mileage.recalculate_user_mileage now p_user_id db = Ok db' ->
  (exists r, In r (mileage_summary db') /\ MileageSummary.user_id r = p_user_id) /\
  (forall r, In r (mileage_summary db') -> MileageSummary.user_id r = p_user_id ->
             Reference.summarises now p_user_id (activities db) r) /\
  (NoDup (map MileageSummary.user_id (mileage_summary db)) ->
   NoDup (map MileageSummary.user_id (mileage_summary db'))).
Proof.
  intros H.
  destruct (recalculate_effect _ _ _ _ H) as (_ & _ & _ & _ & Hex & Hrows & _ & Hnd).
  repeat apply conj; [exact Hex | | exact Hnd].
  intros r Hin Hr. eapply summarises_written; [now apply Hrows|].
  apply aggregate_summarises.
Qed.

Lemma recalculate_user_mileage_windows_witness :
  Mileage.recalculate_user_mileage example_now 1 example_db = Ok example_db_recalculated /\
  (exists r, In r (mileage_summary example_db_recalculated) /\
             MileageSummary.user_id r = 1 /\
             MileageSummary.current_month_miles r = Some 6.21%Q) /\
  (forall r, In r (mileage_summary example_db_recalculated) ->
             MileageSummary.user_id r = 1 ->
             Reference.summarises example_now 1 (activities example_db) r).
Proof.
  split; [reflexivity|]. split.
  - eexists. split; [left; reflexivity|]. split; reflexivity.
  - exact (proj1 (proj2 (recalculate_user_mileage_windows
                           example_now 1 example_db example_db_recalculated eq_refl))).
Defined.

(* ===================================================================== *)
(** ** Recalculating twice *)
(* ===================================================================== *)

Lemma aggregate_same_month now1 now2 u l :
  Time.year now2 = Time.year now1 -> Time.month now2 = Time.month now1 ->
  forall r, written_from now1 (Mileage.aggregate now1 u l) r ->
            MileageSummary.user_id r = u ->
    Mileage.update_access_tier now2
      (fold_left (Mileage.assign r)
         (Mileage.do_update_set now2
            (Mileage.update_access_tier now2 (Mileage.aggregate now2 u l))) r)
    = touch now2 r.
Proof.
  intros Hy Hm r Hw Hu.
  assert (Et : Time.date_trunc_month now2 = Time.date_trunc_month now1).
  { unfold Time.date_trunc_month. now rewrite Hy, Hm. }
  assert (Ey : Time.date_trunc_year now2 = Time.date_trunc_year now1).
  { unfold Time.date_trunc_year. now rewrite Hy. }
  assert (Ep : Time.date_trunc_month (Time.minus_one_month now2) =
               Time.date_trunc_month (Time.minus_one_month now1)).
  { rewrite !date_trunc_previous_month. unfold Reference.previous_month_start.
    now rewrite Hy, Hm. }
  unfold written_from in Hw.
  destruct Hw as (E1 & E2 & E3 & E4 & E5 & E6 & E7 & E8 & _ & _).
  unfold Mileage.aggregate in *. simpl in *.
  rewrite Et, Ey, Ep.
  destruct r; simpl in *. unfold touch; simpl.
  rewrite <- E1, <- E2, <- E3, <- E4, <- E5, <- E6, <- E7, E8.
  rewrite E1. reflexivity.
Qed.

Lemma touch_written now (E r : MileageSummary.row) :
  written_from now E r -> touch now r = r.
Proof.
  unfold written_from. intros (_ & _ & _ & _ & _ & _ & _ & _ & E9 & E10).
  destruct r; simpl in *. unfold touch; simpl. now rewrite E9, E10.
Qed.

Lemma with_mileage_summary_same (db : database) :
  with_mileage_summary db (mileage_summary db) = db.
Proof. destruct db; reflexivity. Qed.

(** C8 (as amended).  After a successful recalculation, a second one for
    the same user with no new activities, run in the same calendar month,
    succeeds and leaves every distance, count, the last-activity date and
    the tier as they were: the user's row changes only in
    [last_calculated_at] and [updated_at], which take the time of the
    second call, and no other row or table changes.  When the second call
    runs at the same [now()] the whole database is identical. *)
Theorem recalculate_twice_same_month now1 now2 p_user_id db db1 :
  Mileage.recalculate_user_mileage now1 p_user_id db = Ok db1 ->
  Time.year now2 = Time.year now1 ->
  Time.month now2 = Time.month now1 ->
  Mileage.recalculate_user_mileage now2 p_user_id db1 =
    Ok (with_mileage_summary db1
          (map (fun r => if MileageSummary.user_id r =? p_user_id
                         then touch now2 r else r)
               (mileage_summary db1))) /\
  (now2 = now1 -> Mileage.recalculate_user_mileage now2 p_user_id db1 = Ok db1).
Proof.
  intros H Hy Hm.
  destruct (recalculate_effect _ _ _ _ H) as (_ & Hact & _ & _ & Hex & Hrows & _).
  assert (Hfirst :
    Mileage.recalculate_user_mileage now2 p_user_id db1 =
    Ok (with_mileage_summary db1
          (map (fun r => if MileageSummary.user_id r =? p_user_id
                         then touch now2 r else r)
               (mileage_summary db1)))).
  { unfold Mileage.recalculate_user_mileage.
    assert (Ex : existsb (fun o => MileageSummary.user_id o =? p_user_id)
                         (mileage_summary db1) = true).
    { destruct Hex as [r [Hin Hr]]. apply existsb_exists. exists r.
      split; [exact Hin | now apply Z.eqb_eq]. }
    rewrite Ex. do 2 f_equal. unfold Mileage.update.
    apply map_ext_in. intros r Hin.
    destruct (MileageSummary.user_id r =? p_user_id) eqn:E; [|reflexivity].
    apply Z.eqb_eq in E. rewrite Hact.
    apply (aggregate_same_month now1 now2); auto. }
  split; [exact Hfirst|].
  intros ->. rewrite Hfirst. f_equal.
  rewrite <- (with_mileage_summary_same db1) at 3. f_equal.
  rewrite <- (map_id (mileage_summary db1)) at 2.
  apply map_ext_in. intros r Hin.
  destruct (MileageSummary.user_id r =? p_user_id) eqn:E; [|reflexivity].
  apply Z.eqb_eq in E. eapply touch_written. now apply Hrows.
Qed.

Lemma recalculate_twice_same_month_witness :
  Mileage.recalculate_user_mileage example_now 1 example_db = Ok example_db_recalculated /\
  Time.year example_later = Time.year example_now /\
  Time.month example_later = Time.month example_now /\
  Mileage.recalculate_user_mileage example_later 1 example_db_recalculated =
    Ok (with_mileage_summary example_db_recalculated
          (map (fun r => if MileageSummary.user_id r =? 1
                         then touch example_later r else r)
               (mileage_summary example_db_recalculated))).
Proof.
  split; [reflexivity|]. split; [reflexivity|]. split; [reflexivity|].
  exact (proj1 (recalculate_twice_same_month example_now example_later 1
                  example_db example_db_recalculated eq_refl eq_refl eq_refl)).
Defined.

(** C8, as stated, fails.  A second recalculation a minute after the first,
    with no new activity, leaves a row that differs from the first in
    [last_calculated_at]; one run after the month has turned also moves the
    6.21 miles from the current-month to the prior-month distance. *)
Lemma recalculate_twice_not_identical :
  (exists r1 r2 db2,
      mileage_summary example_db_recalculated = [r1] /\
      Mileage.recalculate_user_mileage example_later 1 example_db_recalculated = Ok db2 /\
      mileage_summary db2 = [r2] /\
      MileageSummary.last_calculated_at r1 = Some example_now /\
      MileageSummary.last_calculated_at r2 = Some example_later /\
      r1 <> r2) /\
  (exists r1 r2 db2,
      mileage_summary example_db_recalculated = [r1] /\
      Mileage.recalculate_user_mileage example_next_month 1 example_db_recalculated = Ok db2 /\
      mileage_summary db2 = [r2] /\
      MileageSummary.current_month_miles r1 = Some 6.21%Q /\
      MileageSummary.current_month_miles r2 = Some 0%Q /\
      MileageSummary.last_month_miles r2 = Some 6.21%Q /\
      r1 <> r2).
Proof.
  split.
  - do 3 eexists. repeat apply conj; try reflexivity. discriminate.
  - do 3 eexists. repeat apply conj; try reflexivity. discriminate.
Qed.


(* ===================================================================== *)
(** ** Drop qualification *)
(* ===================================================================== *)

Lemma same_pair_iff d u (g : DropAccess.row) :
  DropGrants.same_pair d u g = true <-> pair_of g = (d, u).
Proof.
  unfold DropGrants.same_pair, pair_of. rewrite andb_true_iff, !Z.eqb_eq.
  split; [intros [-> ->]; reflexivity | intros H; injection H; auto].
Qed.

Lemma has_grant_iff d u (tbl : list DropAccess.row) :
  existsb (DropGrants.same_pair d u) tbl = true <-> In (d, u) (map pair_of tbl).
Proof.
  rewrite existsb_exists, in_map_iff. split.
  - intros [g [Hin Hg]]. exists g. split; [now apply same_pair_iff | exact Hin].
  - intros [g [Hg Hin]]. exists g. split; [exact Hin | now apply same_pair_iff].
Qed.

Lemma has_grant_app d u (tbl new : list DropAccess.row) :
  existsb (DropGrants.same_pair d u) tbl = true ->
  existsb (DropGrants.same_pair d u) (tbl ++ new) = true.
Proof. intros H. rewrite existsb_app, H. reflexivity. Qed.

Lemma propose_failed now p t c (l : list MileageSummary.row) :
  fold_left (DropGrants.propose now p t) l (Error c) = Error c.
Proof. induction l as [|s l IH]; simpl; [reflexivity | exact IH]. Qed.

(** The rows one [INSERT ... SELECT ... ON CONFLICT DO NOTHING] adds. *)
Lemma propose_all now p t (l : list MileageSummary.row) :
  forall tbl,
    (forall s, In s l -> MileageSummary.current_month_miles s <> None) ->
    exists new,
      fold_left (DropGrants.propose now p t) l (Ok tbl) = Ok (tbl ++ new) /\
      Forall (fun g => DropAccess.drop_id g = p) new /\
      (forall d u, existsb (DropGrants.same_pair d u) tbl = true ->
                   filter (DropGrants.same_pair d u) new = []) /\
      (NoDup (map pair_of tbl) -> NoDup (map pair_of (tbl ++ new))) /\
      (forall s, In s l ->
         existsb (DropGrants.same_pair p (MileageSummary.user_id s)) (tbl ++ new) = true) /\
      ((forall s, In s l ->
          existsb (DropGrants.same_pair p (MileageSummary.user_id s)) tbl = true) ->
       new = []).
Proof.
  induction l as [|s l IH]; intros tbl Hnn.
  - exists []. simpl. rewrite app_nil_r.
    repeat apply conj; auto.
  - simpl. destruct (MileageSummary.current_month_miles s) as [m|] eqn:Em.
    2:{ exfalso. apply (Hnn s); [now left | exact Em]. }
    assert (Hnn' : forall s', In s' l -> MileageSummary.current_month_miles s' <> None).
    { intros s' Hs'. apply Hnn. now right. }
    set (g := DropAccess.mk p (MileageSummary.user_id s) t (Some now) m None None (Some now)).
    unfold DropGrants.insert_do_nothing.
    change (DropAccess.drop_id g) with p.
    change (DropAccess.user_id g) with (MileageSummary.user_id s).
    destruct (existsb (DropGrants.same_pair p (MileageSummary.user_id s)) tbl) eqn:Ec.
    + destruct (IH tbl Hnn') as (new & Hfold & Hp & Hold & Hnd & Hall & Hnone).
      exists new. refine (conj Hfold (conj Hp (conj Hold (conj Hnd (conj _ _))))).
      * intros s' [<-|Hs']; [now apply has_grant_app | now apply Hall].
      * intros Hc. apply Hnone. intros s' Hs'. apply Hc. now right.
    + destruct (IH (tbl ++ [g]) Hnn') as (new & Hfold & Hp & Hold & Hnd & Hall & Hnone).
      exists (g :: new).
      assert (Eapp : (tbl ++ [g]) ++ new = tbl ++ g :: new).
      { rewrite <- app_assoc. reflexivity. }
      rewrite Eapp in *.
      refine (conj Hfold (conj _ (conj _ (conj _ (conj _ _))))).
      * constructor; [reflexivity | exact Hp].
      * intros d u Hdu. simpl.
        destruct (DropGrants.same_pair d u g) eqn:Eg.
        -- exfalso. apply same_pair_iff in Eg. unfold pair_of in Eg. simpl in Eg.
           injection Eg as <- <-. congruence.
        -- apply Hold. now apply has_grant_app.
      * intros Hndt. apply Hnd. rewrite map_app. simpl. apply NoDup_snoc; [exact Hndt|].
        intros Hin. apply has_grant_iff in Hin. simpl in Hin. congruence.
      * intros s' [<-|Hs']; [|now apply Hall].
        rewrite existsb_app. simpl.
        unfold DropGrants.same_pair at 2. simpl. rewrite !Z.eqb_refl. simpl.
        apply orb_true_r.
      * intros Hc. exfalso. specialize (Hc s (or_introl eq_refl)). congruence.
Qed.

Lemma ge_holds_non_null (a b : option Q) :
  Sql.holds (Sql.ge a b) = true -> a <> None.
Proof. destruct a; [discriminate | simpl; discriminate]. Qed.

Lemma and3_ge_holds_non_null (a b : option Q) (c : option bool) :
  Sql.holds (Sql.and3 (Sql.ge a b) c) = true -> a <> None.
Proof.
  destruct a; [discriminate|]. simpl. destruct c as [[|]|]; discriminate.
Qed.

Lemma insert_select_effect now p t where_ (ms : list MileageSummary.row) tbl :
  (forall s, Sql.holds (where_ s) = true ->
             MileageSummary.current_month_miles s <> None) ->
  exists new,
    DropGrants.insert_select now p t where_ ms tbl = Ok (tbl ++ new) /\
    Forall (fun g => DropAccess.drop_id g = p) new /\
    (forall d u, existsb (DropGrants.same_pair d u) tbl = true ->
                 filter (DropGrants.same_pair d u) new = []) /\
    (NoDup (map pair_of tbl) -> NoDup (map pair_of (tbl ++ new))) /\
    (forall s, In s ms -> Sql.holds (where_ s) = true ->
       existsb (DropGrants.same_pair p (MileageSummary.user_id s)) (tbl ++ new) = true) /\
    ((forall s, In s ms -> Sql.holds (where_ s) = true ->
        existsb (DropGrants.same_pair p (MileageSummary.user_id s)) tbl = true) ->
     new = []).
Proof.
  intros Hnn. unfold DropGrants.insert_select.
  destruct (propose_all now p t (filter (fun s => Sql.holds (where_ s)) ms) tbl)
    as (new & Hfold & Hp & Hold & Hnd & Hall & Hnone).
  { intros s Hs. apply filter_In in Hs as [_ Hs]. now apply Hnn. }
  exists new. refine (conj Hfold (conj Hp (conj Hold (conj Hnd (conj _ _))))).
  - intros s Hin Hs. apply Hall. apply filter_In. now split.
  - intros Hc. apply Hnone. intros s Hs. apply filter_In in Hs as [Hin Hs]. now apply Hc.
Qed.

Lemma count_where_app {A} (f : A -> bool) (l1 l2 : list A) :
  DropGrants.count_where f (l1 ++ l2) =
  DropGrants.count_where f l1 + DropGrants.count_where f l2.
Proof.
  unfold DropGrants.count_where. rewrite filter_app, length_app. lia.
Qed.

Lemma count_where_all (p : Sql.uuid) (new : list DropAccess.row) :
  Forall (fun g => DropAccess.drop_id g = p) new ->
  DropGrants.count_where (fun g => DropAccess.drop_id g =? p) new =
  Z.of_nat (List.length new).
Proof.
  unfold DropGrants.count_where. intros H. f_equal.
  induction H as [|g new Hg _ IH]; simpl; [reflexivity|].
  rewrite Hg, Z.eqb_refl. simpl. now rewrite IH.
Qed.

(** What a qualification call on an existing drop does: it succeeds, adds
    rows of that drop at the end of [drop_access], none for a pair already
    present, and afterwards every qualifying summary row has a grant. *)
Lemma grant_effect now p db v_drop :
  find (fun d => Drops.id d =? p) (drops db) = Some v_drop ->
  exists new,
    DropGrants.grant_drop_access_to_qualifying_users now p db =
      Ok (DropGrants.count_where (fun g => DropAccess.drop_id g =? p)
                                 (drop_access db ++ new),
          with_drop_access db (drop_access db ++ new)) /\
    Forall (fun g => DropAccess.drop_id g = p) new /\
    (forall d u, existsb (DropGrants.same_pair d u) (drop_access db) = true ->
                 filter (DropGrants.same_pair d u) new = []) /\
    (NoDup (map pair_of (drop_access db)) ->
     NoDup (map pair_of (drop_access db ++ new))) /\
    (forall s, In s (mileage_summary db) -> qualifies v_drop s = true ->
       existsb (DropGrants.same_pair p (MileageSummary.user_id s))
               (drop_access db ++ new) = true) /\
    ((forall s, In s (mileage_summary db) -> qualifies v_drop s = true ->
        existsb (DropGrants.same_pair p (MileageSummary.user_id s))
                (drop_access db) = true) ->
     new = []).
Proof.
  intros Hfind. unfold DropGrants.grant_drop_access_to_qualifying_users.
  rewrite Hfind. set (tbl := drop_access db). set (ms := mileage_summary db).
  destruct (insert_select_effect now p exclusive (meets_exclusive v_drop) ms tbl)
    as (n1 & F1 & P1 & O1 & D1 & A1 & N1).
  { intros s. apply ge_holds_non_null. }
  destruct (insert_select_effect now p premium (meets_premium v_drop) ms (tbl ++ n1))
    as (n2 & F2 & P2 & O2 & D2 & A2 & N2).
  { intros s. apply and3_ge_holds_non_null. }
  destruct (insert_select_effect now p basic (meets_basic v_drop) ms ((tbl ++ n1) ++ n2))
    as (n3 & F3 & P3 & O3 & D3 & A3 & N3).
  { intros s. apply and3_ge_holds_non_null. }
  unfold meets_exclusive in F1. unfold meets_premium in F2. unfold meets_basic in F3.
  rewrite F1, F2, F3.
  assert (Eapp : ((tbl ++ n1) ++ n2) ++ n3 = tbl ++ (n1 ++ n2 ++ n3)).
  { now rewrite <- !app_assoc. }
  rewrite Eapp in *.
  exists (n1 ++ n2 ++ n3).
  refine (conj eq_refl (conj _ (conj _ (conj _ (conj _ _))))).
  - repeat (apply Forall_app; split); assumption.
  - intros d u Hdu. rewrite !filter_app.
    rewrite (O1 d u Hdu), (O2 d u), (O3 d u); auto using has_grant_app.
  - intros Hnd. auto.
  - intros s Hin Hq. unfold qualifies in Hq.
    apply orb_true_iff in Hq as [Hq|Hq]; [apply orb_true_iff in Hq as [Hq|Hq]|].
    + rewrite app_assoc. apply has_grant_app. now apply A1.
    + rewrite !app_assoc. apply has_grant_app. now apply A2.
    + now apply A3.
  - intros Hc.
    assert (E1 : n1 = []).
    { apply N1. intros s Hin Hs. apply Hc; [exact Hin|].
      unfold qualifies. now rewrite Hs. }
    subst n1. rewrite app_nil_r in *.
    assert (E2 : n2 = []).
    { apply N2. intros s Hin Hs. apply Hc; [exact Hin|].
      unfold qualifies. rewrite Hs. now rewrite orb_true_r. }
    subst n2. rewrite app_nil_r in *.
    assert (E3 : n3 = []).
    { apply N3. intros s Hin Hs. apply Hc; [exact Hin|].
      unfold qualifies. rewrite Hs. now rewrite orb_true_r. }
    subst n3. reflexivity.
Qed.

Lemma with_drop_access_same (db : database) :
  with_drop_access db (drop_access db) = db.
Proof. destruct db; reflexivity. Qed.

Lemma grant_finds_drop now p db n db' :
  DropGrants.grant_drop_access_to_qualifying_users now p db = Ok (n, db') ->
  exists v_drop, find (fun d => Drops.id d =? p) (drops db) = Some v_drop.
Proof.
  unfold DropGrants.grant_drop_access_to_qualifying_users.
  destruct (find _ (drops db)) as [v_drop|]; [eauto | discriminate].
Qed.

(** C1.  For a drop id that resolves to a drop, the call succeeds and the
    integer it returns is the number of [drop_access] rows of that drop in
    the table it leaves: the rows of the drop that were there before the
    call plus the rows the call added. *)
Theorem grant_returns_total_count now p_drop_id db v_drop :
  find (fun d => Drops.id d =? p_drop_id) (drops db) = Some v_drop ->
  exists n db' new,
    DropGrants.grant_drop_access_to_qualifying_users now p_drop_id db = Ok (n, db') /\
    drop_access db' = drop_access db ++ new /\
    n = DropGrants.count_where (fun g => DropAccess.drop_id g =? p_drop_id)
                               (drop_access db') /\
    n = DropGrants.count_where (fun g => DropAccess.drop_id g =? p_drop_id)
                               (drop_access db)
        + Z.of_nat (List.length new).
Proof.
  intros Hfind.
  destruct (grant_effect now p_drop_id db v_drop Hfind) as (new & Hcall & Hp & _).
  do 3 eexists. split; [exact Hcall|]. simpl.
  repeat apply conj; try reflexivity.
  rewrite count_where_app. f_equal. now apply count_where_all.
Qed.

Lemma grant_returns_total_count_witness :
  find (fun d => Drops.id d =? 7) (drops example_drop_db) = Some example_drop /\
  DropGrants.grant_drop_access_to_qualifying_users example_now 7 example_drop_db =
    Ok (2, example_drop_db_granted) /\
  exists n db' new,
    DropGrants.grant_drop_access_to_qualifying_users example_now 7 example_drop_db
      = Ok (n, db') /\
    drop_access db' = drop_access example_drop_db ++ new /\
    n = DropGrants.count_where (fun g => DropAccess.drop_id g =? 7) (drop_access db') /\
    n = DropGrants.count_where (fun g => DropAccess.drop_id g =? 7)
                               (drop_access example_drop_db)
        + Z.of_nat (List.length new).
Proof.
  split; [reflexivity|]. split; [reflexivity|].
  exact (grant_returns_total_count example_now 7 example_drop_db example_drop eq_refl).
Defined.

(** C2.  A qualification call only appends to [drop_access]: for a pair
    that already has a grant, the rows of that pair after the call are the
    rows before it (same tier, same frozen mileage, no second row),
    whatever the summaries now say, and pairs stay unique.  After a call,
    a later call returns the same count and leaves the same grants when the
    summaries changed only for users who hold a grant for the drop. *)
Theorem grants_are_frozen :
  (forall now p_drop_id db n db',
      DropGrants.grant_drop_access_to_qualifying_users now p_drop_id db = Ok (n, db') ->
      (exists new, drop_access db' = drop_access db ++ new) /\
      (forall g, In g (drop_access db) ->
         In g (drop_access db') /\
         filter (DropGrants.same_pair (DropAccess.drop_id g) (DropAccess.user_id g))
                (drop_access db') =
         filter (DropGrants.same_pair (DropAccess.drop_id g) (DropAccess.user_id g))
                (drop_access db)) /\
      (NoDup (map pair_of (drop_access db)) -> NoDup (map pair_of (drop_access db')))) /\
  (forall now1 now2 p_drop_id db n1 db1 later,
      DropGrants.grant_drop_access_to_qualifying_users now1 p_drop_id db = Ok (n1, db1) ->
      (forall s, In s later ->
         In s (mileage_summary db1) \/
         DropGrants.user_has_drop_access (MileageSummary.user_id s) p_drop_id db1 = true) ->
      DropGrants.grant_drop_access_to_qualifying_users now2 p_drop_id
        (with_mileage_summary db1 later) = Ok (n1, with_mileage_summary db1 later)).
Proof.
  split.
  - intros now p db n db' H.
    destruct (grant_finds_drop _ _ _ _ _ H) as [v_drop Hfind].
    destruct (grant_effect now p db v_drop Hfind) as (new & Hcall & _ & Hold & Hnd & _).
    rewrite Hcall in H. injection H as <- <-. simpl.
    refine (conj _ (conj _ Hnd)); [eauto|].
    intros g Hin. split; [apply in_or_app; now left|].
    rewrite filter_app, Hold, app_nil_r; [reflexivity|].
    apply has_grant_iff. exact (in_map pair_of _ _ Hin).
  - intros now1 now2 p db n1 db1 later H Hlater.
    destruct (grant_finds_drop _ _ _ _ _ H) as [v_drop Hfind].
    destruct (grant_effect now1 p db v_drop Hfind) as (new & Hcall & _ & _ & _ & Hall & _).
    rewrite Hcall in H. injection H as <- <-.
    set (db1 := with_drop_access db (drop_access db ++ new)) in *.
    set (db2 := with_mileage_summary db1 later).
    destruct (grant_effect now2 p db2 v_drop Hfind) as (new2 & Hcall2 & _ & _ & _ & _ & Hnone).
    assert (E : new2 = []).
    { apply Hnone. intros s Hin Hq. simpl in Hin.
      destruct (Hlater s Hin) as [Hs|Hs]; [|exact Hs].
      simpl. apply Hall; assumption. }
    rewrite Hcall2, E, !app_nil_r. rewrite with_drop_access_same. reflexivity.
Qed.

Lemma grants_are_frozen_witness :
  DropGrants.grant_drop_access_to_qualifying_users example_now 7 example_drop_db =
    Ok (2, example_drop_db_granted) /\
  (forall s, In s example_summaries_later ->
     In s (mileage_summary example_drop_db_granted) \/
     DropGrants.user_has_drop_access (MileageSummary.user_id s) 7
       example_drop_db_granted = true) /\
  In example_grant (drop_access example_drop_db_granted) /\
  DropGrants.grant_drop_access_to_qualifying_users example_later 7
    (with_mileage_summary example_drop_db_granted example_summaries_later)
  = Ok (2, with_mileage_summary example_drop_db_granted example_summaries_later).
Proof.
  assert (Hlater : forall s, In s example_summaries_later ->
     In s (mileage_summary example_drop_db_granted) \/
     DropGrants.user_has_drop_access (MileageSummary.user_id s) 7
       example_drop_db_granted = true).
  { intros s [<-|[<-|[<-|[]]]].
    - left. left. reflexivity.
    - right. reflexivity.
    - left. right. right. left. reflexivity. }
  split; [reflexivity|]. split; [exact Hlater|]. split.
  - exact (proj1 (proj1 (proj2 (proj1 grants_are_frozen example_now 7 example_drop_db 2
                                  example_drop_db_granted eq_refl))
                        example_grant (or_introl eq_refl))).
  - exact (proj2 grants_are_frozen example_now example_later 7 example_drop_db 2
             example_drop_db_granted example_summaries_later eq_refl Hlater).
Defined.


(* ===================================================================== *)
(** ** Activity import *)
(* ===================================================================== *)

Lemma set_dc_metro_area_keeps (r : ActivityStore.new_row) :
  let NEW := ActivityStore.set_dc_metro_area r in
  ActivityStore.user_id NEW = ActivityStore.user_id r /\
  ActivityStore.strava_activity_id NEW = ActivityStore.strava_activity_id r /\
  ActivityStore.activity_date NEW = ActivityStore.activity_date r /\
  ActivityStore.distance_meters NEW = ActivityStore.distance_meters r /\
  ActivityStore.distance_miles NEW = ActivityStore.distance_miles r.
Proof.
  unfold ActivityStore.set_dc_metro_area.
  destruct (ActivityStore.start_latitude r), (ActivityStore.start_longitude r);
    simpl; repeat split; reflexivity.
Qed.

Lemma stored_id_iff (tbl : list Activities.row) (i : Z) :
  existsb (fun o => Activities.strava_activity_id o =? i) tbl = true <->
  In i (stored_ids tbl).
Proof.
  unfold stored_ids. rewrite existsb_exists, in_map_iff. split.
  - intros [o [Hin Ho]]. exists o. split; [now apply Z.eqb_eq | exact Hin].
  - intros [o [Ho Hin]]. exists o. split; [exact Hin | now apply Z.eqb_eq].
Qed.

Lemma insert_ok_row db_users (r : ActivityStore.new_row) tbl tbl' :
  ActivityStore.insert db_users r tbl = Ok tbl' ->
  ActivityStore.insert_row db_users r tbl = Ok tbl'.
Proof.
  unfold ActivityStore.insert.
  destruct (ActivityStore.integer_input 64 _); [|discriminate].
  destruct (ActivityStore.nullable_integer_input 32 (ActivityStore.moving_time_seconds r));
    [|discriminate].
  destruct (ActivityStore.nullable_integer_input 32 (ActivityStore.elapsed_time_seconds r));
    [|discriminate].
  exact (fun H => H).
Qed.

Lemma integer_input_ok bits z :
  0 < bits <= 64 -> - 2 ^ (bits - 1) <= z < 2 ^ (bits - 1) ->
  ActivityStore.integer_input bits z = Ok z.
Proof.
  intros Hb Hz. unfold ActivityStore.integer_input.
  assert (Hp : 2 ^ (bits - 1) <= 2 ^ 63) by (apply Z.pow_le_mono_r; lia).
  assert (H63 : 2 ^ 63 < 10 ^ 21) by (vm_compute; reflexivity).
  assert (E1 : (10 ^ 21 <=? Z.abs z) = false) by (apply Z.leb_gt; lia).
  assert (E2 : (z <? - 2 ^ (bits - 1)) = false) by (apply Z.ltb_ge; lia).
  assert (E3 : (2 ^ (bits - 1) <=? z) = false) by (apply Z.leb_gt; lia).
  rewrite E1, E2, E3. reflexivity.
Qed.

Lemma integer_input_code bits z code :
  ActivityStore.integer_input bits z = Error code -> code <> unique_violation.
Proof.
  unfold ActivityStore.integer_input.
  destruct (10 ^ 21 <=? Z.abs z); [intros [= <-]; discriminate|].
  destruct ((z <? - 2 ^ (bits - 1)) || (2 ^ (bits - 1) <=? z));
    intros [= <-]; discriminate.
Qed.

(** The outcomes of storing one fetched activity. *)
Lemma insert_outcome db_users userId (a : Sync.StravaActivity) tbl :
  match ActivityStore.insert db_users (Sync.insert_values userId a) tbl with
  | Ok tbl' =>
      complete a = true /\ user_exists db_users userId = true /\
      ~ In (Sync.id a) (stored_ids tbl) /\
      exists row, tbl' = tbl ++ [row] /\ Activities.strava_activity_id row = Sync.id a
  | Error code =>
      (code = unique_violation /\ already_stored tbl a = true) \/
      (code <> unique_violation /\ complete a = false) \/
      (code = foreign_key_violation /\ complete a = true /\
       user_exists db_users userId = false /\ ~ In (Sync.id a) (stored_ids tbl))
  end.
Proof.
  unfold ActivityStore.insert, already_stored, complete, readable,
    ActivityStore.nullable_integer_input.
  change (ActivityStore.strava_activity_id (Sync.insert_values userId a))
    with (Sync.id a).
  change (ActivityStore.moving_time_seconds (Sync.insert_values userId a))
    with (Some (Sync.moving_time a)).
  change (ActivityStore.elapsed_time_seconds (Sync.insert_values userId a))
    with (Some (Sync.elapsed_time a)).
  destruct (ActivityStore.integer_input 64 (Sync.id a)) as [?|c] eqn:Ei64;
    [|right; left; split; [exact (integer_input_code _ _ _ Ei64) | reflexivity]].
  destruct (ActivityStore.integer_input 32 (Sync.moving_time a)) as [?|c] eqn:Em32;
    [|right; left; split; [exact (integer_input_code _ _ _ Em32) | reflexivity]].
  destruct (ActivityStore.integer_input 32 (Sync.elapsed_time a)) as [?|c] eqn:Ee32;
    [|right; left; split; [exact (integer_input_code _ _ _ Ee32) | reflexivity]].
  cbn [andb].
  unfold ActivityStore.insert_row.
  destruct (set_dc_metro_area_keeps (Sync.insert_values userId a))
    as (Eu & Ei & Ed & Em & El).
  rewrite Eu, Ei, Ed, Em, El. clear Eu Ei Ed Em El.
  change (ActivityStore.activity_date (Sync.insert_values userId a))
    with (Sync.start_date a).
  change (ActivityStore.distance_meters (Sync.insert_values userId a))
    with (Js.to_decimal (Sync.distance a)).
  change (ActivityStore.distance_miles (Sync.insert_values userId a))
    with (Js.to_decimal (Sync.distanceMiles a)).
  change (ActivityStore.strava_activity_id (Sync.insert_values userId a))
    with (Sync.id a).
  change (ActivityStore.user_id (Sync.insert_values userId a)) with userId.
  destruct (Sync.start_date a); [|right; left; split; [discriminate | reflexivity]].
  destruct (Js.to_decimal (Sync.distance a));
    [|right; left; split; [discriminate | reflexivity]].
  destruct (Js.to_decimal (Sync.distanceMiles a));
    [|right; left; split; [discriminate | reflexivity]].
  destruct (existsb _ tbl) eqn:Ex.
  - left. split; reflexivity.
  - assert (Hnot : ~ In (Sync.id a) (stored_ids tbl)).
    { intros Hin. apply stored_id_iff in Hin. congruence. }
    destruct (user_exists db_users userId); simpl.
    + repeat split; try assumption. eexists. split; reflexivity.
    + right. right. repeat split; assumption.
Qed.

Lemma insert_one_cases db_users userId (p : Sync.progress) (a : Sync.StravaActivity) :
  (complete a = true /\ user_exists db_users userId = true /\
   ~ In (Sync.id a) (stored_ids (Sync.stored p)) /\
   exists row, Activities.strava_activity_id row = Sync.id a /\
     Sync.insert_one db_users userId p a =
     Sync.mk_progress (Sync.stored p ++ [row]) (Sync.insertedCount p + 1)
                      (Sync.skippedCount p)) \/
  (already_stored (Sync.stored p) a = true /\
   Sync.insert_one db_users userId p a =
   Sync.mk_progress (Sync.stored p) (Sync.insertedCount p) (Sync.skippedCount p + 1)) \/
  (already_stored (Sync.stored p) a = false /\
   (complete a = false \/ user_exists db_users userId = false) /\
   Sync.insert_one db_users userId p a = p).
Proof.
  unfold Sync.insert_one.
  pose proof (insert_outcome db_users userId a (Sync.stored p)) as H.
  destruct (ActivityStore.insert db_users (Sync.insert_values userId a) (Sync.stored p))
    as [tbl'|code].
  - destruct H as (Hc & Hu & Hn & row & -> & Hrow).
    left. repeat split; try assumption. exists row. split; [exact Hrow | reflexivity].
  - destruct H as [[-> Hs]|[[Hne Hc]|(-> & Hc & Hu & Hn)]].
    + right. left. split; [exact Hs | reflexivity].
    + right. right. unfold already_stored. rewrite Hc.
      apply String.eqb_neq in Hne. unfold unique_violation in Hne. rewrite Hne.
      split; [reflexivity|]. split; [now left | reflexivity].
    + right. right. unfold already_stored.
      assert (Ex : existsb (fun o => Activities.strava_activity_id o =? Sync.id a)
                           (Sync.stored p) = false).
      { destruct (existsb _ (Sync.stored p)) eqn:Ex; [|reflexivity].
        apply stored_id_iff in Ex. contradiction. }
      rewrite Ex, andb_false_r.
      split; [reflexivity|]. split; [now right | reflexivity].
Qed.

Lemma already_stored_app tbl new (a : Sync.StravaActivity) :
  already_stored tbl a = true -> already_stored (tbl ++ new) a = true.
Proof.
  unfold already_stored. rewrite !andb_true_iff, existsb_app.
  intros [-> ->]. split; reflexivity.
Qed.

Lemma count_already_stored_app tbl new (l : list Sync.StravaActivity) :
  (List.length (filter (already_stored tbl) l) <=
   List.length (filter (already_stored (tbl ++ new)) l))%nat.
Proof.
  induction l as [|a l IH]; simpl; [lia|].
  destruct (already_stored tbl a) eqn:E.
  - rewrite (already_stored_app _ new _ E). simpl. lia.
  - destruct (already_stored (tbl ++ new) a); simpl; lia.
Qed.

(** What the insert loop does to the table and the two counters. *)
Lemma insert_loop_effect db_users userId (l : list Sync.StravaActivity) :
  forall p0,
    let p := fold_left (Sync.insert_one db_users userId) l p0 in
    exists new,
      Sync.stored p = Sync.stored p0 ++ new /\
      Sync.insertedCount p = Sync.insertedCount p0 + Z.of_nat (List.length new) /\
      NoDup (stored_ids new) /\
      (forall r, In r new ->
         ~ In (Activities.strava_activity_id r) (stored_ids (Sync.stored p0)) /\
         exists a, In a l /\ Sync.id a = Activities.strava_activity_id r /\
                   complete a = true /\ user_exists db_users userId = true) /\
      Sync.skippedCount p0 +
        Z.of_nat (List.length (filter (already_stored (Sync.stored p0)) l))
        <= Sync.skippedCount p /\
      (Sync.insertedCount p - Sync.insertedCount p0) +
        (Sync.skippedCount p - Sync.skippedCount p0) <= Z.of_nat (List.length l) /\
      (forall a, In a l -> complete a = true -> user_exists db_users userId = true ->
                 In (Sync.id a) (stored_ids (Sync.stored p))).
Proof.
  induction l as [|a l IH]; intros p0; simpl.
  - exists []. rewrite app_nil_r. simpl.
    repeat apply conj; try lia; try constructor; intros; contradiction.
  - destruct (insert_one_cases db_users userId p0 a)
      as [(Hc & Hu & Hn & row & Hrow & ->)|[(Hs & ->)|(Hs & Hwhy & ->)]].
    + destruct (IH (Sync.mk_progress (Sync.stored p0 ++ [row])
                      (Sync.insertedCount p0 + 1) (Sync.skippedCount p0)))
        as (new & Hst & Hins & Hnd & Hnew & Hskip & Hsum & Hall).
      simpl in *. exists (row :: new).
      assert (Hs : already_stored (Sync.stored p0) a = false).
      { unfold already_stored.
        destruct (existsb _ (Sync.stored p0)) eqn:Ex; [|now rewrite andb_false_r].
        apply stored_id_iff in Ex. contradiction. }
      rewrite Hs.
      refine (conj _ (conj _ (conj _ (conj _ (conj _ (conj _ _)))))).
      * rewrite Hst, <- app_assoc. reflexivity.
      * rewrite Hins. simpl List.length. lia.
      * simpl. constructor; [|exact Hnd].
        intros Hin. unfold stored_ids in Hin. apply in_map_iff in Hin as [r [Hr Hin]].
        destruct (Hnew r Hin) as [Hno _]. apply Hno.
        unfold stored_ids. rewrite map_app, in_app_iff. right. left. congruence.
      * intros r [<-|Hin].
        -- split; [now rewrite Hrow|]. exists a. repeat split; auto.
        -- destruct (Hnew r Hin) as [Hno (a' & Ha' & Hid & Hca & Hue')]. split.
           ++ intros Hin'. apply Hno. unfold stored_ids in *.
              rewrite map_app, in_app_iff. now left.
           ++ exists a'. repeat split; auto.
      * pose proof (count_already_stored_app (Sync.stored p0) [row] l). lia.
      * simpl List.length. lia.
      * intros a' [<-|Ha'] Hca Hue; [|now apply Hall].
        rewrite Hst. unfold stored_ids. rewrite !map_app, !in_app_iff.
        left. right. left. exact Hrow.
    + destruct (IH (Sync.mk_progress (Sync.stored p0) (Sync.insertedCount p0)
                      (Sync.skippedCount p0 + 1)))
        as (new & Hst & Hins & Hnd & Hnew & Hskip & Hsum & Hall).
      simpl in *. exists new. rewrite Hs.
      refine (conj Hst (conj Hins (conj Hnd (conj _ (conj _ (conj _ _)))))).
      * intros r Hin. destruct (Hnew r Hin) as [Hno (a' & Ha' & Hid & Hca & Hue')].
        split; [exact Hno|]. exists a'. repeat split; auto.
      * simpl List.length. lia.
      * simpl List.length. lia.
      * intros a' [<-|Ha'] Hca Hue; [|now apply Hall].
        rewrite Hst. unfold stored_ids. rewrite map_app, in_app_iff. left.
        unfold already_stored in Hs. apply andb_true_iff in Hs as [_ Hs].
        now apply stored_id_iff in Hs.
    + destruct (IH p0) as (new & Hst & Hins & Hnd & Hnew & Hskip & Hsum & Hall).
      exists new. rewrite Hs.
      refine (conj Hst (conj Hins (conj Hnd (conj _ (conj Hskip (conj _ _)))))).
      * intros r Hin. destruct (Hnew r Hin) as [Hno (a' & Ha' & Hid & Hca & Hue')].
        split; [exact Hno|]. exists a'. repeat split; auto.
      * simpl List.length. lia.
      * intros a' [<-|Ha'] Hca Hue; [|now apply Hall].
        destruct Hwhy; congruence.
Qed.

Lemma insert_all_effect db_users userId (l : list Sync.StravaActivity) tbl :
  let p := Sync.insert_all db_users userId l tbl in
  exists new,
    Sync.stored p = tbl ++ new /\
    Sync.insertedCount p = Z.of_nat (List.length new) /\
    NoDup (stored_ids new) /\
    (forall r, In r new ->
       ~ In (Activities.strava_activity_id r) (stored_ids tbl) /\
       exists a, In a l /\ Sync.id a = Activities.strava_activity_id r /\
                 complete a = true /\ user_exists db_users userId = true) /\
    Z.of_nat (List.length (filter (already_stored tbl) l)) <= Sync.skippedCount p /\
    Sync.insertedCount p + Sync.skippedCount p <= Z.of_nat (List.length l) /\
    (forall a, In a l -> complete a = true -> user_exists db_users userId = true ->
               In (Sync.id a) (stored_ids (Sync.stored p))).
Proof.
  unfold Sync.insert_all.
  destruct (insert_loop_effect db_users userId l (Sync.mk_progress tbl 0 0))
    as (new & Hst & Hins & Hnd & Hnew & Hskip & Hsum & Hall).
  simpl in *. exists new.
  refine (conj Hst (conj Hins (conj Hnd (conj Hnew (conj Hskip (conj _ Hall)))))).
  lia.
Qed.

Lemma NoDup_stored_ids_app (tbl new : list Activities.row) :
  NoDup (stored_ids tbl) -> NoDup (stored_ids new) ->
  (forall r, In r new -> ~ In (Activities.strava_activity_id r) (stored_ids tbl)) ->
  NoDup (stored_ids (tbl ++ new)).
Proof.
  intros Ht Hn Hdis. induction new as [|r new IH] using rev_ind.
  - now rewrite app_nil_r.
  - rewrite app_assoc. unfold stored_ids in *. rewrite map_app. simpl.
    rewrite map_app in Hn. simpl in Hn.
    apply NoDup_snoc.
    + apply IH.
      * now apply NoDup_app_remove_r in Hn.
      * intros r' Hr'. apply Hdis. apply in_or_app. now left.
    + rewrite map_app, in_app_iff. intros [Hin|Hin].
      * apply (Hdis r); [apply in_or_app; right; now left | exact Hin].
      * apply NoDup_remove_2 in Hn. apply Hn. now rewrite app_nil_r.
Qed.

(** C6.  Storing a fetched activity whose external id is already present
    never adds a row and never counts as inserted, whatever else the
    activity carries.  The insert ends in the uniqueness conflict 23505
    exactly when the id is present and the activity's own values can be
    stored (an id or a time that its column cannot read, or a missing
    NOT NULL value, fails the insert before the unique index is looked
    at); the conflict leaves the table and the inserted count and raises
    the skipped count by one.  Every import only appends rows whose
    external ids were not stored, one per id, so ids stay unique, and its
    inserted count is the number of those rows.  A second import whose
    fetched list contains the first one's skips at least as many rows as
    the first inserted; over the same list it inserts nothing.  (A stored
    id listed again with a moving time of 3000000000 seconds is refused
    with 22003 and counted neither as inserted nor as skipped.) *)
Theorem import_is_idempotent db_users userId :
  (forall p a,
      In (Sync.id a) (stored_ids (Sync.stored p)) ->
      Sync.stored (Sync.insert_one db_users userId p a) = Sync.stored p /\
      Sync.insertedCount (Sync.insert_one db_users userId p a) = Sync.insertedCount p) /\
  (forall p a,
      (ActivityStore.insert db_users (Sync.insert_values userId a) (Sync.stored p)
         = Error "23505" <->
       already_stored (Sync.stored p) a = true) /\
      (already_stored (Sync.stored p) a = true ->
       Sync.insert_one db_users userId p a =
       Sync.mk_progress (Sync.stored p) (Sync.insertedCount p)
                        (Sync.skippedCount p + 1))) /\
  (forall fetched tbl,
      let p := Sync.insert_all db_users userId fetched tbl in
      exists new,
        Sync.stored p = tbl ++ new /\
        Sync.insertedCount p = Z.of_nat (List.length new) /\
        (forall r, In r new -> ~ In (Activities.strava_activity_id r) (stored_ids tbl)) /\
        (NoDup (stored_ids tbl) -> NoDup (stored_ids (Sync.stored p)))) /\
  (forall fetched fetched2 tbl,
      incl fetched fetched2 ->
      let p1 := Sync.insert_all db_users userId fetched tbl in
      let p2 := Sync.insert_all db_users userId fetched2 (Sync.stored p1) in
      Sync.insertedCount p1 <= Sync.skippedCount p2) /\
  (forall fetched tbl,
      let p1 := Sync.insert_all db_users userId fetched tbl in
      let p2 := Sync.insert_all db_users userId fetched (Sync.stored p1) in
      Sync.stored p2 = Sync.stored p1 /\ Sync.insertedCount p2 = 0) /\
  (let a := Sync.mk_activity 1001 "Run" "Run" (Some (Time.mk 2026 1 10 0))
              (Js.of_Z 10000) 3000000000 0 None false in
   let p := Sync.mk_progress (activities example_db) 0 0 in
   In (Sync.id a) (stored_ids (Sync.stored p)) /\
   ActivityStore.insert db_users (Sync.insert_values userId a) (Sync.stored p)
     = Error "22003" /\
   Sync.insert_one db_users userId p a = p).
Proof.
  assert (Hstored : forall tbl a, already_stored tbl a = true ->
                                  In (Sync.id a) (stored_ids tbl)).
  { intros tbl a Hs. unfold already_stored in Hs.
    apply andb_true_iff in Hs as [_ Hs]. now apply stored_id_iff. }
  refine (conj _ (conj _ (conj _ (conj _ (conj _ _))))).
  6: { cbv zeta. unfold Sync.insert_one.
       refine (conj _ (conj eq_refl eq_refl)). left. reflexivity. }
  - intros p a Hin.
    destruct (insert_one_cases db_users userId p a)
      as [(_ & _ & Hn & _)|[(_ & ->)|(_ & _ & ->)]];
      [contradiction | split; reflexivity | split; reflexivity].
  - intros p a. split; [split|].
    + intros H. pose proof (insert_outcome db_users userId a (Sync.stored p)) as Ho.
      rewrite H in Ho.
      destruct Ho as [[_ Hs]|[[Hne _]|(Hfk & _)]];
        [exact Hs | contradiction Hne; reflexivity | discriminate Hfk].
    + intros Hs. pose proof (insert_outcome db_users userId a (Sync.stored p)) as Ho.
      pose proof (Hstored _ _ Hs) as Hin.
      destruct (ActivityStore.insert db_users (Sync.insert_values userId a)
                  (Sync.stored p)) as [tbl'|code].
      * destruct Ho as (_ & _ & Hn & _). contradiction.
      * destruct Ho as [[-> _]|[[_ Hc]|(_ & _ & _ & Hn)]];
          [reflexivity | | contradiction].
        unfold already_stored in Hs. rewrite Hc in Hs. discriminate Hs.
    + intros Hs.
      destruct (insert_one_cases db_users userId p a)
        as [(_ & _ & Hn & _)|[(_ & ->)|(Hs' & _)]]; [|reflexivity|congruence].
      exfalso. apply Hn. now apply Hstored.
  - intros fetched tbl p.
    destruct (insert_all_effect db_users userId fetched tbl)
      as (new & Hst & Hins & Hnd & Hnew & _).
    exists new. fold p in Hst, Hins.
    refine (conj Hst (conj Hins (conj _ _))).
    + intros r Hin. now destruct (Hnew r Hin).
    + intros Ht. rewrite Hst. apply NoDup_stored_ids_app; auto.
      intros r Hin. now destruct (Hnew r Hin).
  - intros fetched fetched2 tbl Hincl p1 p2.
    destruct (insert_all_effect db_users userId fetched tbl)
      as (new & Hst & Hins & Hnd & Hnew & _).
    destruct (insert_all_effect db_users userId fetched2 (Sync.stored p1))
      as (_ & _ & _ & _ & _ & Hskip & _).
    fold p1 in Hst, Hins. fold p2 in Hskip.
    assert (Hlen : (List.length (stored_ids new) <=
                    List.length (map Sync.id
                       (filter (already_stored (Sync.stored p1)) fetched2)))%nat).
    { apply NoDup_incl_length; [exact Hnd|].
      intros i Hi. unfold stored_ids in Hi. apply in_map_iff in Hi as [r [<- Hr]].
      destruct (Hnew r Hr) as [_ (a & Ha & Hid & Hc & _)].
      apply in_map_iff. exists a. split; [exact Hid|].
      apply filter_In. split; [now apply Hincl|].
      unfold already_stored. rewrite Hc. simpl.
      apply stored_id_iff. rewrite Hst, Hid. unfold stored_ids.
      rewrite map_app, in_app_iff. right. now apply in_map. }
    unfold stored_ids in Hlen. rewrite !length_map in Hlen. lia.
  - intros fetched tbl p1 p2.
    destruct (insert_all_effect db_users userId fetched tbl)
      as (_ & _ & _ & _ & _ & _ & _ & Hall).
    destruct (insert_all_effect db_users userId fetched (Sync.stored p1))
      as (new & Hst & Hins & _ & Hnew & _).
    fold p1 in Hall. fold p2 in Hst, Hins.
    assert (E : new = []).
    { destruct new as [|r new]; [reflexivity|]. exfalso.
      destruct (Hnew r (or_introl eq_refl)) as [Hno (a & Ha & Hid & Hc & Hu)].
      apply Hno. rewrite <- Hid. now apply Hall. }
    subst new. rewrite app_nil_r in Hst. split; [exact Hst | exact Hins].
Qed.

Lemma import_is_idempotent_witness :
  let db_users := users example_db in
  let p0 := Sync.mk_progress (activities example_db) 0 0 in
  let p1 := Sync.insert_all db_users 1 example_fetched (activities example_db) in
  let p2 := Sync.insert_all db_users 1 example_fetched (Sync.stored p1) in
  already_stored (Sync.stored p0) (run_of 1001 (Js.of_Z 10000)) = true /\
  Sync.insert_one db_users 1 p0 (run_of 1001 (Js.of_Z 10000)) =
    Sync.mk_progress (activities example_db) 0 1 /\
  incl example_fetched example_fetched /\
  Sync.insertedCount p1 = 1 /\ Sync.skippedCount p1 = 1 /\
  Sync.insertedCount p1 <= Sync.skippedCount p2.
Proof.
  intros db_users p0 p1 p2.
  assert (Hs : already_stored (Sync.stored p0) (run_of 1001 (Js.of_Z 10000)) = true)
    by (vm_compute; reflexivity).
  split; [exact Hs|]. split.
  - exact (proj2 (proj1 (proj2 (import_is_idempotent db_users 1)) p0 _) Hs).
  - split; [apply incl_refl|]. split; [vm_compute; reflexivity|].
    split; [vm_compute; reflexivity|].
    exact (proj1 (proj2 (proj2 (proj2 (import_is_idempotent db_users 1))))
             example_fetched example_fetched (activities example_db)
             (incl_refl _)).
Defined.


(* ===================================================================== *)
(** ** The sync handler *)
(* ===================================================================== *)

(** C5.  For a connected user whose stored token expiry is at or before
    the handler's [now], the handler calls the token endpoint with the
    stored refresh token, and nothing else; when that exchange does not
    come back [ok], the handler answers 500 with the error message
    ("Failed to refresh Strava token" for a response that is not ok) and
    leaves the database, the stored tokens and expiry in it, as it was. *)
Theorem refresh_failure_keeps_credentials
    env provider clock req db userId user clientId clientSecret access refresh expiry :
  String.eqb (Sync.method req) "OPTIONS" = false ->
  Sync.userId req = Some userId ->
  Sync.STRAVA_CLIENT_ID env = Some clientId -> clientId <> ""%string ->
  Sync.STRAVA_CLIENT_SECRET env = Some clientSecret -> clientSecret <> ""%string ->
  find (fun u => Users.id u =? userId) (users db) = Some user ->
  Users.strava_access_token user = Some access -> access <> ""%string ->
  Users.strava_refresh_token user = Some refresh -> refresh <> ""%string ->
  Users.token_expires_at user = Some expiry ->
  expiry <= Sync.now clock ->
  (forall json, Sync.oauth_token provider refresh clientId clientSecret
                <> Sync.fetch_ok json) ->
  exists message,
    Sync.handler env provider clock req db =
      (Sync.mk_response 500 (Sync.error_body message None), db,
       [Sync.call_oauth_token refresh clientId clientSecret]) /\
    (forall text,
        Sync.oauth_token provider refresh clientId clientSecret = Sync.fetch_not_ok text ->
        message = "Failed to refresh Strava token"%string).
Proof.
  intros Hm Hu Hid Hidne Hsec Hsecne Hfind Ha Hane Hr Hrne He Hle Hfail.
  unfold Sync.handler. rewrite Hm, Hu, Hid, Hsec.
  apply String.eqb_neq in Hidne, Hsecne, Hane, Hrne.
  rewrite Hidne, Hsecne. simpl. rewrite Hfind, Ha, Hr, Hane, Hrne. simpl.
  rewrite He.
  assert (Hge : (Sync.now clock >=? expiry) = true) by (apply Z.geb_le; lia).
  rewrite Hge. unfold Sync.refreshStravaToken.
  destruct (Sync.oauth_token provider refresh clientId clientSecret) as [json|text|message] eqn:E.
  - exfalso. exact (Hfail json eq_refl).
  - eexists. split; [reflexivity|]. intros; reflexivity.
  - eexists. split; [reflexivity|]. intros text Ht. discriminate Ht.
Qed.

Lemma refresh_failure_keeps_credentials_witness :
  find (fun u => Users.id u =? 1) (users example_db) = Some example_user /\
  0 <= Sync.now example_clock /\
  exists message,
    Sync.handler example_env example_provider example_clock example_request example_db =
      (Sync.mk_response 500 (Sync.error_body message None), example_db,
       [Sync.call_oauth_token "refresh" "client-id" "client-secret"]) /\
    (forall text,
        Sync.oauth_token example_provider "refresh" "client-id" "client-secret"
          = Sync.fetch_not_ok text ->
        message = "Failed to refresh Strava token"%string).
Proof.
  split; [reflexivity|]. split; [simpl; lia|].
  apply (refresh_failure_keeps_credentials
           example_env example_provider example_clock example_request example_db
           1 example_user "client-id" "client-secret" "access" "refresh" 0);
    solve [reflexivity | discriminate | simpl; lia].
Defined.

Lemma import_counts provider clock userId last_synced accessToken db calls
      resp db' calls' message total inserted skipped :
  Sync.import provider clock userId last_synced accessToken db calls = (resp, db', calls') ->
  Sync.body resp = Sync.synced_body message total inserted skipped ->
  Sync.status resp = 200 /\
  message = "Activities synced successfully"%string /\
  0 <= inserted /\ 0 <= skipped /\ inserted + skipped <= total.
Proof.
  unfold Sync.import. intros H Hb.
  destruct (Sync.athlete_activities provider accessToken _) as [acts|text|msg].
  - injection H as <- _ _. simpl in Hb. injection Hb as <- <- <- <-.
    destruct (insert_all_effect (users db) userId (filter Sync.is_run acts) (activities db))
      as (new & _ & Hins & _ & _ & Hskip & Hsum & _).
    repeat split; try reflexivity; lia.
  - injection H as <- _ _. discriminate Hb.
  - injection H as <- _ _. discriminate Hb.
Qed.

Lemma handler_counts env provider clock req db resp db' calls
      message total inserted skipped :
  Sync.handler env provider clock req db = (resp, db', calls) ->
  Sync.body resp = Sync.synced_body message total inserted skipped ->
  Sync.status resp = 200 /\
  message = "Activities synced successfully"%string /\
  0 <= inserted /\ 0 <= skipped /\ inserted + skipped <= total.
Proof.
  unfold Sync.handler, Sync.error_response. intros H Hb.
  repeat match type of H with
         | (if ?c then _ else _) = _ => destruct c
         | match ?x with _ => _ end = _ => destruct x eqn:?
         | (_, _, _) = (_, _, _) => injection H as <- _ _; discriminate Hb
         | Sync.import _ _ _ _ _ _ _ = _ => exact (import_counts _ _ _ _ _ _ _ _ _ _ _ _ _ _ H Hb)
         end.
Qed.

(** C10.  An insert that fails with another code than 23505 changes
    neither counter nor the table, and the loop goes on.  Whenever the
    handler answers with the sync report, the status is 200, the message is
    "Activities synced successfully", and inserted plus skipped is at most
    the reported total; the bound can be strict: of two fetched runs, one
    without a storable distance, the report is total 2, inserted 1,
    skipped 0. *)
Theorem failed_inserts_are_not_counted :
  (forall db_users userId p a code,
      ActivityStore.insert db_users (Sync.insert_values userId a) (Sync.stored p)
        = Error code ->
      code <> "23505"%string ->
      forall rest,
        fold_left (Sync.insert_one db_users userId) (a :: rest) p =
        fold_left (Sync.insert_one db_users userId) rest p) /\
  (forall env provider clock req db resp db' calls message total inserted skipped,
      Sync.handler env provider clock req db = (resp, db', calls) ->
      Sync.body resp = Sync.synced_body message total inserted skipped ->
      Sync.status resp = 200 /\
      message = "Activities synced successfully"%string /\
      0 <= inserted /\ 0 <= skipped /\ inserted + skipped <= total) /\
  (exists db' calls,
      Sync.handler example_env example_provider example_clock example_request
                   example_valid_db =
      (Sync.mk_response 200 (Sync.synced_body "Activities synced successfully" 2 1 0),
       db', calls) /\
      List.length (activities db') = 1%nat).
Proof.
  refine (conj _ (conj handler_counts _)).
  - intros db_users userId p a code H Hcode rest. simpl. f_equal.
    unfold Sync.insert_one. rewrite H.
    apply String.eqb_neq in Hcode. now rewrite Hcode.
  - do 2 eexists. split; vm_compute; reflexivity.
Qed.

Lemma failed_inserts_are_not_counted_witness :
  ActivityStore.insert (users example_valid_db)
    (Sync.insert_values 1 (run_of 2002 (S754_infinity false))) []
    = Error not_null_violation /\
  not_null_violation <> "23505"%string /\
  fold_left (Sync.insert_one (users example_valid_db) 1)
            [run_of 2002 (S754_infinity false); run_of 2001 (Js.of_Z 5000)]
            (Sync.mk_progress [] 0 0) =
  fold_left (Sync.insert_one (users example_valid_db) 1)
            [run_of 2001 (Js.of_Z 5000)]
            (Sync.mk_progress [] 0 0).
Proof.
  assert (H : ActivityStore.insert (users example_valid_db)
                (Sync.insert_values 1 (run_of 2002 (S754_infinity false))) []
              = Error not_null_violation) by reflexivity.
  assert (Hcode : not_null_violation <> "23505"%string) by discriminate.
  split; [exact H|]. split; [exact Hcode|].
  exact (proj1 failed_inserts_are_not_counted (users example_valid_db) 1
           (Sync.mk_progress [] 0 0) (run_of 2002 (S754_infinity false))
           not_null_violation H Hcode [run_of 2001 (Js.of_Z 5000)]).
Defined.

(* ===================================================================== *)
(** ** Further properties: tiers and conversion *)
(* ===================================================================== *)

(** X1.  [calculate_access_tier] is monotone: a larger current-month
    distance never gives a lower tier, in the order none, basic, premium,
    exclusive. *)
Theorem calculate_access_tier_monotone (m1 m2 : Q) :
  (m1 <= m2)%Q ->
  tier_rank (Mileage.calculate_access_tier (Some m1)) <=
  tier_rank (Mileage.calculate_access_tier (Some m2)).
Proof.
  intros Hle.
  pose proof (calculate_access_tier_reference m1) as H1.
  pose proof (calculate_access_tier_reference m2) as H2.
  destruct H1; destruct H2; simpl; try lia; exfalso; lra.
Qed.

Lemma calculate_access_tier_monotone_witness :
  (99.99 <= 100)%Q /\
  tier_rank (Mileage.calculate_access_tier (Some 99.99%Q)) <=
  tier_rank (Mileage.calculate_access_tier (Some 100%Q)).
Proof.
  assert (H : (99.99 <= 100)%Q) by (unfold Qle; simpl; lia).
  split; [exact H | exact (calculate_access_tier_monotone 99.99%Q 100%Q H)].
Defined.

Lemma round_half_away_monotone (q1 q2 : Q) :
  (q1 <= q2)%Q -> Sql.round_half_away q1 <= Sql.round_half_away q2.
Proof.
  intros Hle. unfold Sql.round_half_away.
  destruct (Qle_bool 0 q1) eqn:E1; destruct (Qle_bool 0 q2) eqn:E2.
  - apply Qfloor_resp_le. lra.
  - apply Qle_bool_iff in E1. apply Qle_bool_false_lt in E2. lra.
  - apply Qle_bool_false_lt in E1. apply Qle_bool_iff in E2.
    assert (H1 : 0 <= Qfloor (- q1 + (1 # 2))).
    { change 0 with (Qfloor 0). apply Qfloor_resp_le. lra. }
    assert (H2 : 0 <= Qfloor (q2 + (1 # 2))).
    { change 0 with (Qfloor 0). apply Qfloor_resp_le. lra. }
    lia.
  - assert (H : Qfloor (- q2 + (1 # 2)) <= Qfloor (- q1 + (1 # 2))).
    { apply Qfloor_resp_le. lra. }
    lia.
Qed.

Lemma round_half_away_integer (k : Z) :
  Sql.round_half_away (inject_Z k) = k.
Proof.
  unfold Sql.round_half_away.
  assert (Hf : forall j, Qfloor (inject_Z j + (1 # 2)) = j).
  { intros j.
    pose proof (Qfloor_le (inject_Z j + (1 # 2))) as Hlo.
    pose proof (Qlt_floor (inject_Z j + (1 # 2))) as Hhi.
    set (f := Qfloor (inject_Z j + (1 # 2))) in *. clearbody f.
    unfold Qle, Qlt, Qplus, inject_Z in *. simpl in *. lia. }
  destruct (Qle_bool 0 (inject_Z k)).
  - apply Hf.
  - assert (E : Qfloor (- inject_Z k + (1 # 2)) = - k).
    { rewrite <- (Hf (- k)). reflexivity. }
    rewrite E. lia.
Qed.

(** X2.  [meters_to_miles] is monotone, sends a distance that is not
    negative to miles that are not negative, and sends a distance whose
    product with the factor is already a whole number of hundredths to
    exactly that number. *)
Theorem meters_to_miles_monotone :
  (forall m1 m2 : Q, (m1 <= m2)%Q ->
     (ActivityStore.meters_to_miles m1 <= ActivityStore.meters_to_miles m2)%Q) /\
  (forall m : Q, (0 <= m)%Q -> (0 <= ActivityStore.meters_to_miles m)%Q) /\
  (forall (m : Q) (k : Z), (m * 0.000621371 * 100 == inject_Z k)%Q ->
     ActivityStore.meters_to_miles m = Qmake k 100).
Proof.
  assert (Hmono : forall m1 m2 : Q, (m1 <= m2)%Q ->
     (ActivityStore.meters_to_miles m1 <= ActivityStore.meters_to_miles m2)%Q).
  { intros m1 m2 Hle. rewrite !meters_to_miles_hundredths.
    assert (H : Sql.round_half_away (m1 * 0.000621371 * 100) <=
                Sql.round_half_away (m2 * 0.000621371 * 100)).
    { apply round_half_away_monotone. lra. }
    unfold Qle. simpl. lia. }
  refine (conj Hmono (conj _ _)).
  - intros m Hm. apply Qle_trans with (ActivityStore.meters_to_miles 0).
    + unfold Qle. simpl. lia.
    + apply (Hmono 0%Q m Hm).
  - intros m k Hk. rewrite meters_to_miles_hundredths. f_equal.
    rewrite <- (round_half_away_integer k).
    pose proof (round_half_away_monotone (m * 0.000621371 * 100) (inject_Z k)) as H1.
    pose proof (round_half_away_monotone (inject_Z k) (m * 0.000621371 * 100)) as H2.
    assert (Hle1 : (m * 0.000621371 * 100 <= inject_Z k)%Q) by (rewrite Hk; apply Qle_refl).
    assert (Hle2 : (inject_Z k <= m * 0.000621371 * 100)%Q) by (rewrite Hk; apply Qle_refl).
    specialize (H1 Hle1). specialize (H2 Hle2). lia.
Qed.

Lemma meters_to_miles_monotone_witness :
  (1609.34 <= 10000)%Q /\
  (ActivityStore.meters_to_miles 1609.34 <= ActivityStore.meters_to_miles 10000)%Q.
Proof.
  assert (H : (1609.34 <= 10000)%Q) by (unfold Qle; simpl; lia).
  split; [exact H | exact (proj1 meters_to_miles_monotone 1609.34%Q 10000%Q H)].
Defined.

(* ===================================================================== *)
(** ** Further properties: the activity store *)
(* ===================================================================== *)

Lemma is_in_dc_metro_box (lat lon : Q) :
  exists b, ActivityStore.is_in_dc_metro (Some lat) (Some lon) = Some b /\
    (b = true <->
     (38.8 <= lat)%Q /\ (lat <= 39.2)%Q /\ (-77.5 <= lon)%Q /\ (lon <= -76.9)%Q).
Proof.
  unfold ActivityStore.is_in_dc_metro, Sql.le, Sql.ge, Sql.and3.
  destruct (Qle_bool 38.8 lat) eqn:E1, (Qle_bool lat 39.2) eqn:E2,
    (Qle_bool (-77.5) lon) eqn:E3, (Qle_bool lon (-76.9)) eqn:E4;
    eexists; (split; [reflexivity|]);
    repeat match goal with
           | H : Qle_bool _ _ = true |- _ => apply Qle_bool_iff in H
           | H : Qle_bool _ _ = false |- _ => apply Qle_bool_false_lt in H
           end;
    split; intros H; try discriminate H; try reflexivity;
    try (repeat split; assumption);
    exfalso; destruct H as (? & ? & ? & ?); lra.
Qed.

(** X3.  A row stored in [activities] gets its region flag from the
    trigger: with both start coordinates given, the flag is not NULL and
    is true exactly when 38.8 <= latitude <= 39.2 and -77.5 <= longitude
    <= -76.9, edges included, whatever flag the statement supplied; with
    a coordinate missing, the supplied flag is stored as it is.  The
    coordinates themselves are stored as given. *)
Theorem insert_sets_region_flag db_users (r : ActivityStore.new_row) tbl tbl' :
  ActivityStore.insert db_users r tbl = Ok tbl' ->
  exists row,
    tbl' = tbl ++ [row] /\
    Activities.start_latitude row = ActivityStore.start_latitude r /\
    Activities.start_longitude row = ActivityStore.start_longitude r /\
    (forall lat lon,
        ActivityStore.start_latitude r = Some lat ->
        ActivityStore.start_longitude r = Some lon ->
        exists b, Activities.is_dc_metro_area row = Some b /\
          (b = true <->
           (38.8 <= lat)%Q /\ (lat <= 39.2)%Q /\
           (-77.5 <= lon)%Q /\ (lon <= -76.9)%Q)) /\
    (ActivityStore.start_latitude r = None \/ ActivityStore.start_longitude r = None ->
     Activities.is_dc_metro_area row = ActivityStore.is_dc_metro_area r).
Proof.
  intros H. apply insert_ok_row in H.
  unfold ActivityStore.insert_row, ActivityStore.set_dc_metro_area in H.
  destruct (ActivityStore.start_latitude r) as [lat|] eqn:Elat;
    destruct (ActivityStore.start_longitude r) as [lon|] eqn:Elon;
    simpl in H;
    destruct (ActivityStore.activity_date r); try discriminate;
    destruct (ActivityStore.distance_meters r); try discriminate;
    destruct (ActivityStore.distance_miles r); try discriminate;
    destruct (existsb _ tbl); try discriminate;
    destruct (negb _); try discriminate;
    injection H as <-; eexists; (split; [reflexivity|]); simpl;
    rewrite ?Elat, ?Elon; (split; [reflexivity|]); (split; [reflexivity|]); split.
  all: try (intros lat' lon' Hlat Hlon; discriminate).
  all: try (intros _; reflexivity).
  - intros lat' lon' Hlat Hlon. injection Hlat as <-. injection Hlon as <-.
    apply is_in_dc_metro_box.
  - intros [Hn|Hn]; discriminate.
Qed.

Lemma insert_sets_region_flag_witness :
  let r := Sync.insert_values 1
             (Sync.mk_activity 3001 "Run" "Run" (Some (Time.mk 2026 1 12 0))
                (Js.of_Z 8000) 0 0 (Some (Js.literal 390 1, Js.literal (-770) 1)) false) in
  exists row,
    ActivityStore.insert (users example_db) r [] = Ok [row] /\
    Activities.is_dc_metro_area row = Some true.
Proof.
  intros r.
  assert (H : exists tbl', ActivityStore.insert (users example_db) r [] = Ok tbl').
  { eexists. vm_compute. reflexivity. }
  destruct H as [tbl' H].
  destruct (insert_sets_region_flag (users example_db) r [] tbl' H)
    as (row & -> & _ & _ & Hflag & _).
  exists row. split; [exact H|].
  destruct (Hflag 39%Q (-77)%Q) as (b & Hb & Hiff);
    [vm_compute; reflexivity | vm_compute; reflexivity |].
  rewrite Hb. f_equal. apply Hiff.
  repeat split; unfold Qle; simpl; lia.
Defined.

Lemma insert_values_stored db_users userId (a : Sync.StravaActivity) tbl tbl' :
  ActivityStore.insert db_users (Sync.insert_values userId a) tbl = Ok tbl' ->
  exists row, tbl' = tbl ++ [row] /\ stored_from userId a row.
Proof.
  intros H. apply insert_ok_row in H. revert H.
  unfold ActivityStore.insert_row, ActivityStore.set_dc_metro_area, Sync.insert_values,
    stored_from.
  cbn [ActivityStore.user_id ActivityStore.strava_activity_id
       ActivityStore.activity_type ActivityStore.activity_date
       ActivityStore.distance_meters ActivityStore.distance_miles
       ActivityStore.moving_time_seconds ActivityStore.elapsed_time_seconds
       ActivityStore.start_latitude ActivityStore.start_longitude
       ActivityStore.is_dc_metro_area ActivityStore.manual].
  intros H.
  assert (Hbox : forall lat lon,
             ActivityStore.is_in_dc_metro (Some lat) (Some lon) <> None).
  { intros lat lon. destruct (is_in_dc_metro_box lat lon) as (b & -> & _). discriminate. }
  destruct (Sync.start_latlng a) as [[lat lng]|];
    [destruct (Js.to_decimal lat) as [dlat|]; destruct (Js.to_decimal lng) as [dlng|]|];
    cbn [ActivityStore.user_id ActivityStore.strava_activity_id
         ActivityStore.activity_type ActivityStore.activity_date
         ActivityStore.distance_meters ActivityStore.distance_miles
         ActivityStore.moving_time_seconds ActivityStore.elapsed_time_seconds
         ActivityStore.start_latitude ActivityStore.start_longitude
         ActivityStore.is_dc_metro_area ActivityStore.manual] in H;
    destruct (Sync.start_date a); try discriminate;
    destruct (Js.to_decimal (Sync.distance a)); try discriminate;
    destruct (Js.to_decimal (Sync.distanceMiles a)); try discriminate;
    destruct (existsb _ tbl); try discriminate;
    destruct (negb _); try discriminate;
    injection H as <-; eexists; (split; [reflexivity|]); simpl;
    repeat split; try reflexivity; try discriminate; apply Hbox.
Qed.

Lemma insert_loop_rows db_users userId (l : list Sync.StravaActivity) :
  forall p0,
    exists new,
      Sync.stored (fold_left (Sync.insert_one db_users userId) l p0) =
        Sync.stored p0 ++ new /\
      Forall (fun r => exists a, In a l /\ stored_from userId a r) new.
Proof.
  induction l as [|a l IH]; intros p0; simpl.
  - exists []. rewrite app_nil_r. split; [reflexivity | constructor].
  - assert (Hweak : forall new,
        Forall (fun r => exists a', In a' l /\ stored_from userId a' r) new ->
        Forall (fun r => exists a', (a = a' \/ In a' l) /\ stored_from userId a' r) new).
    { intros new Hn. eapply Forall_impl; [|exact Hn].
      intros r (a' & Ha' & Hr). exists a'. split; [now right | exact Hr]. }
    unfold Sync.insert_one at 2.
    destruct (ActivityStore.insert db_users (Sync.insert_values userId a) (Sync.stored p0))
      as [tbl'|code] eqn:E.
    + destruct (insert_values_stored _ _ _ _ _ E) as (row & -> & Hrow).
      destruct (IH (Sync.mk_progress (Sync.stored p0 ++ [row])
                      (Sync.insertedCount p0 + 1) (Sync.skippedCount p0)))
        as (new & Hst & Hnew).
      exists (row :: new). simpl in Hst. rewrite Hst, <- app_assoc. split; [reflexivity|].
      constructor; [exists a; split; [now left | exact Hrow] | now apply Hweak].
    + destruct (String.eqb code "23505").
      * destruct (IH (Sync.mk_progress (Sync.stored p0) (Sync.insertedCount p0)
                        (Sync.skippedCount p0 + 1))) as (new & Hst & Hnew).
        exists new. split; [exact Hst | now apply Hweak].
      * destruct (IH p0) as (new & Hst & Hnew).
        exists new. split; [exact Hst | now apply Hweak].
Qed.

Lemma import_stores_runs provider clock userId last_synced accessToken db calls
      resp db' calls' message total inserted skipped :
  Sync.import provider clock userId last_synced accessToken db calls = (resp, db', calls') ->
  Sync.body resp = Sync.synced_body message total inserted skipped ->
  exists after fetched new,
    Sync.athlete_activities provider accessToken after = Sync.fetch_ok fetched /\
    total = Z.of_nat (List.length (filter Sync.is_run fetched)) /\
    activities db' = activities db ++ new /\
    Forall (fun r => exists a, In a fetched /\ Sync.is_run a = true /\
                               stored_from userId a r) new.
Proof.
  unfold Sync.import. intros H Hb.
  match type of H with
  | context [Sync.athlete_activities provider accessToken ?x] => set (after := x) in *
  end.
  destruct (Sync.athlete_activities provider accessToken after) as [acts|text|msg] eqn:E.
  - injection H as <- <- _. simpl in Hb. injection Hb as _ <- _ _.
    exists after, acts.
    destruct (insert_loop_rows (users db) userId (filter Sync.is_run acts)
                (Sync.mk_progress (activities db) 0 0)) as (new & Hst & Hnew).
    exists new. refine (conj E (conj eq_refl (conj _ _))).
    + match goal with
      | |- activities (match ?r with _ => _ end) = _ => destruct r as [dbr|] eqn:Er
      end.
      * destruct (recalculate_effect _ _ _ _ Er) as (_ & -> & _). simpl. exact Hst.
      * simpl. exact Hst.
    + eapply Forall_impl; [|exact Hnew].
      intros r (a & Ha & Hr). apply filter_In in Ha as [Ha Hrun].
      exists a. split; [exact Ha | split; [exact Hrun | exact Hr]].
  - injection H as <- _ _. discriminate Hb.
  - injection H as <- _ _. discriminate Hb.
Qed.

(** X4.  Whenever the sync handler answers with its report, the provider
    listed activities for the access token, the reported total is the
    number of listed activities that are runs by [type] or by
    [sport_type], and the handler only appended to [activities]: each new
    row belongs to the requesting user and comes from a listed run, with
    its external id, its [type] (its [sport_type] when the type is empty),
    its start date, the JSON decimals of its distance and of its computed
    miles, and a region flag that is never NULL (false without start
    coordinates). *)
Theorem sync_stores_only_listed_runs env provider clock req db resp db' calls
      message total inserted skipped :
  Sync.handler env provider clock req db = (resp, db', calls) ->
  Sync.body resp = Sync.synced_body message total inserted skipped ->
  exists userId accessToken after fetched new,
    Sync.userId req = Some userId /\
    Sync.athlete_activities provider accessToken after = Sync.fetch_ok fetched /\
    total = Z.of_nat (List.length (filter Sync.is_run fetched)) /\
    activities db' = activities db ++ new /\
    Forall (fun r => exists a, In a fetched /\ Sync.is_run a = true /\
                               stored_from userId a r) new.
Proof.
  unfold Sync.handler, Sync.error_response. intros H Hb.
  repeat match type of H with
         | (if ?c then _ else _) = _ => destruct c
         | match ?x with _ => _ end = _ => destruct x eqn:?
         | (_, _, _) = (_, _, _) => injection H as <- _ _; discriminate Hb
         end.
  - destruct (import_stores_runs _ _ _ _ _ _ _ _ _ _ _ _ _ _ H Hb)
      as (after & fetched & new & Hf & Ht & Hact & Hnew).
    do 5 eexists. repeat split; try eassumption.
  - destruct (import_stores_runs _ _ _ _ _ _ _ _ _ _ _ _ _ _ H Hb)
      as (after & fetched & new & Hf & Ht & Hact & Hnew).
    do 5 eexists. repeat split; try eassumption.
Qed.

Lemma sync_stores_only_listed_runs_witness :
  exists db' calls userId accessToken after fetched new,
    Sync.handler example_env example_provider example_clock example_request
                 example_valid_db =
      (Sync.mk_response 200 (Sync.synced_body "Activities synced successfully" 2 1 0),
       db', calls) /\
    Sync.userId example_request = Some userId /\
    Sync.athlete_activities example_provider accessToken after = Sync.fetch_ok fetched /\
    activities db' = activities example_valid_db ++ new /\
    Forall (fun r => exists a, In a fetched /\ Sync.is_run a = true /\
                               stored_from userId a r) new.
Proof.
  assert (H : exists db' calls,
             Sync.handler example_env example_provider example_clock example_request
                          example_valid_db =
             (Sync.mk_response 200
                (Sync.synced_body "Activities synced successfully" 2 1 0), db', calls)).
  { do 2 eexists. vm_compute. reflexivity. }
  destruct H as (db' & calls & H).
  destruct (sync_stores_only_listed_runs _ _ _ _ _ _ _ _ _ _ _ _ H eq_refl)
    as (userId & accessToken & after & fetched & new & Hu & Hf & _ & Ha & Hnew).
  exists db', calls, userId, accessToken, after, fetched, new.
  repeat split; assumption.
Defined.

(* ===================================================================== *)
(** ** Further properties: drop qualification *)
(* ===================================================================== *)

(** X5.  The qualification call fails exactly when the drop id resolves
    to no drop, and then with 'Drop not found': no summary row, whatever
    its values (NULL mileage, NULL thresholds), makes a statement of the
    function fail. *)
Theorem grant_fails_only_without_drop now p_drop_id db :
  (find (fun d => Drops.id d =? p_drop_id) (drops db) = None ->
   DropGrants.grant_drop_access_to_qualifying_users now p_drop_id db =
   Error "Drop not found") /\
  (forall code,
      DropGrants.grant_drop_access_to_qualifying_users now p_drop_id db = Error code ->
      find (fun d => Drops.id d =? p_drop_id) (drops db) = None /\
      code = "Drop not found"%string).
Proof.
  split.
  - intros H. unfold DropGrants.grant_drop_access_to_qualifying_users.
    now rewrite H.
  - intros code H.
    destruct (find (fun d => Drops.id d =? p_drop_id) (drops db)) as [v_drop|] eqn:Hfind.
    + destruct (grant_effect now p_drop_id db v_drop Hfind) as (new & Hcall & _).
      rewrite Hcall in H. discriminate H.
    + unfold DropGrants.grant_drop_access_to_qualifying_users in H.
      rewrite Hfind in H. injection H as <-. split; reflexivity.
Qed.

Lemma grant_fails_only_without_drop_witness :
  find (fun d => Drops.id d =? 8) (drops example_drop_db) = None /\
  DropGrants.grant_drop_access_to_qualifying_users example_now 8 example_drop_db =
  Error "Drop not found".
Proof.
  split; [reflexivity|].
  exact (proj1 (grant_fails_only_without_drop example_now 8 example_drop_db) eq_refl).
Defined.

Lemma propose_extends now p t (l : list MileageSummary.row) :
  forall tbl tbl',
    fold_left (DropGrants.propose now p t) l (Ok tbl) = Ok tbl' ->
    exists new,
      tbl' = tbl ++ new /\
      Forall (fun g => exists s,
                In s l /\
                DropAccess.drop_id g = p /\
                DropAccess.user_id g = MileageSummary.user_id s /\
                MileageSummary.current_month_miles s =
                  Some (DropAccess.mileage_at_qualification g) /\
                DropAccess.qualified_at g = Some now /\
                DropAccess.notified_at g = None /\
                DropAccess.first_viewed_at g = None /\
                DropAccess.access_tier g = t) new.
Proof.
  induction l as [|s l IH]; intros tbl tbl' H; simpl in H.
  - injection H as <-. exists []. rewrite app_nil_r. split; [reflexivity | constructor].
  - destruct (MileageSummary.current_month_miles s) as [m|] eqn:Em.
    2:{ rewrite propose_failed in H. discriminate H. }
    destruct (IH _ _ H) as (new & -> & Hnew).
    assert (Hweak :
      Forall (fun g => exists s',
                In s' (s :: l) /\
                DropAccess.drop_id g = p /\
                DropAccess.user_id g = MileageSummary.user_id s' /\
                MileageSummary.current_month_miles s' =
                  Some (DropAccess.mileage_at_qualification g) /\
                DropAccess.qualified_at g = Some now /\
                DropAccess.notified_at g = None /\
                DropAccess.first_viewed_at g = None /\
                DropAccess.access_tier g = t) new).
    { eapply Forall_impl; [|exact Hnew]. intros g (s' & Hs' & Hg).
      exists s'. split; [now right | exact Hg]. }
    unfold DropGrants.insert_do_nothing.
    destruct (existsb _ tbl).
    + exists new. split; [reflexivity | exact Hweak].
    + eexists (_ :: new). rewrite <- app_assoc. split; [reflexivity|].
      constructor; [|exact Hweak].
      exists s. simpl. split; [now left|]. repeat split; auto.
Qed.

Lemma insert_select_rows now p t where_ (ms : list MileageSummary.row) tbl tbl' :
  DropGrants.insert_select now p t where_ ms tbl = Ok tbl' ->
  exists new,
    tbl' = tbl ++ new /\
    Forall (fun g => exists s,
              In s ms /\ Sql.holds (where_ s) = true /\
              DropAccess.drop_id g = p /\
              DropAccess.user_id g = MileageSummary.user_id s /\
              MileageSummary.current_month_miles s =
                Some (DropAccess.mileage_at_qualification g) /\
              DropAccess.qualified_at g = Some now /\
              DropAccess.notified_at g = None /\
              DropAccess.first_viewed_at g = None /\
              DropAccess.access_tier g = t) new.
Proof.
  unfold DropGrants.insert_select. intros H.
  destruct (propose_extends _ _ _ _ _ _ H) as (new & -> & Hnew).
  exists new. split; [reflexivity|].
  eapply Forall_impl; [|exact Hnew]. intros g (s & Hs & Hg).
  apply filter_In in Hs as [Hin Hw]. exists s. split; [exact Hin | split; [exact Hw | exact Hg]].
Qed.

Lemma grant_rows now p db v_drop n db' :
  find (fun d => Drops.id d =? p) (drops db) = Some v_drop ->
  DropGrants.grant_drop_access_to_qualifying_users now p db = Ok (n, db') ->
  exists new,
    drop_access db' = drop_access db ++ new /\
    Forall (fun g => exists s, In s (mileage_summary db) /\
                               granted_from now p v_drop s g) new.
Proof.
  intros Hfind H. unfold DropGrants.grant_drop_access_to_qualifying_users in H.
  rewrite Hfind in H.
  destruct (DropGrants.insert_select now p exclusive _ _ _) as [t1|] eqn:F1;
    [|discriminate].
  destruct (DropGrants.insert_select now p premium _ _ _) as [t2|] eqn:F2;
    [|discriminate].
  destruct (DropGrants.insert_select now p basic _ _ _) as [t3|] eqn:F3;
    [|discriminate].
  injection H as _ <-. simpl.
  destruct (insert_select_rows _ _ _ _ _ _ _ F1) as (n1 & -> & H1).
  destruct (insert_select_rows _ _ _ _ _ _ _ F2) as (n2 & -> & H2).
  destruct (insert_select_rows _ _ _ _ _ _ _ F3) as (n3 & -> & H3).
  exists (n1 ++ n2 ++ n3). split; [now rewrite <- !app_assoc|].
  repeat (apply Forall_app; split);
    (eapply Forall_impl; [|eassumption]);
    intros g (s & Hin & Hw & Hd & Hu & Hm & Hq & Hn & Hv & Ht);
    exists s; (split; [exact Hin|]); unfold granted_from;
    rewrite Ht; simpl; repeat split; assumption.
Qed.

(** X6.  Every grant a qualification call adds is written from a summary
    row of that moment: it is for the drop of the call and the user of the
    row, it freezes the row's current-month distance (never NULL), it is
    stamped with the time of the call, not yet notified or viewed, and its
    tier is the one whose condition the row meets: exclusive at or above
    the exclusive threshold, premium at or above the premium and below the
    exclusive threshold, basic at or above the basic and below the premium
    threshold.  A tier [none] is never granted. *)
Theorem grants_record_qualification now p_drop_id db n db' :
  DropGrants.grant_drop_access_to_qualifying_users now p_drop_id db = Ok (n, db') ->
  exists v_drop new,
    find (fun d => Drops.id d =? p_drop_id) (drops db) = Some v_drop /\
    drop_access db' = drop_access db ++ new /\
    Forall (fun g => exists s, In s (mileage_summary db) /\
                               granted_from now p_drop_id v_drop s g) new /\
    Forall (fun g => DropAccess.access_tier g <> none) new.
Proof.
  intros H. destruct (grant_finds_drop _ _ _ _ _ H) as [v_drop Hfind].
  destruct (grant_rows _ _ _ _ _ _ Hfind H) as (new & Hda & Hnew).
  exists v_drop, new. refine (conj Hfind (conj Hda (conj Hnew _))).
  eapply Forall_impl; [|exact Hnew].
  intros g (s & _ & Hg) Hnone. unfold granted_from in Hg.
  destruct Hg as (_ & _ & _ & _ & _ & _ & Hg). rewrite Hnone in Hg. exact Hg.
Qed.

Lemma grants_record_qualification_witness :
  DropGrants.grant_drop_access_to_qualifying_users example_now 7 example_drop_db =
    Ok (2, example_drop_db_granted) /\
  exists v_drop new,
    find (fun d => Drops.id d =? 7) (drops example_drop_db) = Some v_drop /\
    drop_access example_drop_db_granted = drop_access example_drop_db ++ new /\
    Forall (fun g => exists s, In s (mileage_summary example_drop_db) /\
                               granted_from example_now 7 v_drop s g) new /\
    Forall (fun g => DropAccess.access_tier g <> none) new.
Proof.
  split; [reflexivity|].
  exact (grants_record_qualification example_now 7 example_drop_db 2
           example_drop_db_granted eq_refl).
Defined.

Lemma granted_as_qualifies v_drop s t :
  granted_as v_drop s t -> qualifies v_drop s = true.
Proof.
  unfold qualifies. destruct t; simpl; intros H; try contradiction;
    rewrite H; rewrite ?orb_true_r; reflexivity.
Qed.

(** X7.  For a drop whose three thresholds are set and ascending, a
    summary row qualifies exactly when its current-month distance reaches
    the basic threshold, and it meets the condition of one tier only, so
    the tier of a grant is determined by the distance.  A row whose
    distance is NULL qualifies for nothing, whatever the thresholds. *)
Theorem ordered_thresholds_give_one_tier (v_drop : Drops.row)
    (s : MileageSummary.row) :
  (MileageSummary.current_month_miles s = None -> qualifies v_drop s = false) /\
  (forall m B P E,
      MileageSummary.current_month_miles s = Some m ->
      Drops.required_miles_basic v_drop = Some B ->
      Drops.required_miles_premium v_drop = Some P ->
      Drops.required_miles_exclusive v_drop = Some E ->
      (B <= P)%Q -> (P <= E)%Q ->
      (qualifies v_drop s = true <-> (B <= m)%Q) /\
      (forall t1 t2, granted_as v_drop s t1 -> granted_as v_drop s t2 -> t1 = t2)).
Proof.
  split.
  - intros Hm. unfold qualifies, meets_exclusive, meets_premium, meets_basic.
    rewrite Hm. simpl.
    destruct (Drops.required_miles_basic v_drop),
      (Drops.required_miles_premium v_drop),
      (Drops.required_miles_exclusive v_drop); reflexivity.
  - intros m B P E Hm HB HP HE HBP HPE.
    unfold qualifies, granted_as, meets_exclusive, meets_premium, meets_basic.
    rewrite Hm, HB, HP, HE. simpl.
    destruct (Qle_bool E m) eqn:E1; destruct (Qle_bool P m) eqn:E2;
      destruct (Qle_bool B m) eqn:E3; simpl;
      repeat match goal with
             | H : Qle_bool _ _ = true |- _ => apply Qle_bool_iff in H
             | H : Qle_bool _ _ = false |- _ => apply Qle_bool_false_lt in H
             end;
      (split;
       [split; intros H; try reflexivity; try discriminate H; try assumption;
        exfalso; lra
       | intros t1 t2 H1 H2; destruct t1; destruct t2;
         try reflexivity; try contradiction; try discriminate;
         exfalso; lra]).
Qed.

Lemma ordered_thresholds_give_one_tier_witness :
  MileageSummary.current_month_miles (example_summary 2 60) = Some 60%Q /\
  (50 <= 100)%Q /\ (100 <= 150)%Q /\
  (qualifies example_drop (example_summary 2 60) = true <-> (50 <= 60)%Q).
Proof.
  assert (H1 : (50 <= 100)%Q) by (unfold Qle; simpl; lia).
  assert (H2 : (100 <= 150)%Q) by (unfold Qle; simpl; lia).
  split; [reflexivity|]. split; [exact H1|]. split; [exact H2|].
  exact (proj1 (proj2 (ordered_thresholds_give_one_tier example_drop
                         (example_summary 2 60))
                      60%Q 50%Q 100%Q 150%Q eq_refl eq_refl eq_refl eq_refl H1 H2)).
Defined.

(** X8.  After a successful qualification call for a drop, a user has
    access to a drop exactly when the user had it before the call, or the
    drop is the one of the call and a summary row of the user qualifies.
    So every qualifying user gets access, nobody else does, and access to
    other drops is untouched. *)
Theorem access_after_grant now p_drop_id db v_drop n db' :
  find (fun d => Drops.id d =? p_drop_id) (drops db) = Some v_drop ->
  DropGrants.grant_drop_access_to_qualifying_users now p_drop_id db = Ok (n, db') ->
  forall u d,
    DropGrants.user_has_drop_access u d db' = true <->
    DropGrants.user_has_drop_access u d db = true \/
    (d = p_drop_id /\
     exists s, In s (mileage_summary db) /\ MileageSummary.user_id s = u /\
               qualifies v_drop s = true).
Proof.
  intros Hfind H u d.
  destruct (grant_rows _ _ _ _ _ _ Hfind H) as (new & Hda & Hnew).
  destruct (grant_effect now p_drop_id db v_drop Hfind)
    as (new' & Hcall & _ & _ & _ & Hall & _).
  rewrite Hcall in H. injection H as _ <-. simpl in Hda.
  apply app_inv_head in Hda. subst new'.
  unfold DropGrants.user_has_drop_access. simpl. split.
  - rewrite existsb_app. intros Hex. apply orb_true_iff in Hex as [Hex|Hex]; [now left|].
    right. apply existsb_exists in Hex as (g & Hg & Hpair).
    rewrite Forall_forall in Hnew. destruct (Hnew g Hg) as (s & Hs & Hfrom).
    unfold granted_from in Hfrom. destruct Hfrom as (Hd & Hu & _ & _ & _ & _ & Hgr).
    apply same_pair_iff in Hpair. unfold pair_of in Hpair. injection Hpair as Ed Eu.
    split; [congruence|]. exists s. split; [exact Hs|]. split; [congruence|].
    eapply granted_as_qualifies. exact Hgr.
  - intros [Hold|(-> & s & Hs & <- & Hq)].
    + now apply has_grant_app.
    + now apply Hall.
Qed.

Lemma access_after_grant_witness :
  find (fun d => Drops.id d =? 7) (drops example_drop_db) = Some example_drop /\
  DropGrants.grant_drop_access_to_qualifying_users example_now 7 example_drop_db =
    Ok (2, example_drop_db_granted) /\
  DropGrants.user_has_drop_access 2 7 example_drop_db = false /\
  DropGrants.user_has_drop_access 2 7 example_drop_db_granted = true /\
  DropGrants.user_has_drop_access 3 7 example_drop_db_granted = false.
Proof.
  split; [reflexivity|]. split; [reflexivity|]. split; [reflexivity|]. split.
  - apply (access_after_grant example_now 7 example_drop_db example_drop 2
             example_drop_db_granted eq_refl eq_refl 2 7).
    right. split; [reflexivity|]. exists (example_summary 2 60).
    split; [right; left; reflexivity|]. split; reflexivity.
  - reflexivity.
Defined.

(* ===================================================================== *)
(** ** Further properties: recalculation *)
(* ===================================================================== *)

Lemma recalculate_succeeds_for_user now p_user_id db :
  user_exists (users db) p_user_id = true ->
  exists db', Mileage.recalculate_user_mileage now p_user_id db = Ok db'.
Proof.
  unfold Mileage.recalculate_user_mileage. intros Hu. rewrite Hu. simpl.
  destruct (existsb _ (mileage_summary db)); eexists; reflexivity.
Qed.

(** X9.  [recalculate_user_mileage] fails exactly for a user who has no
    summary row and no row in [users], and then with the foreign-key
    violation 23503; for every user of [users], and for every user who
    already has a summary row, it succeeds. *)
Theorem recalculate_fails_only_for_unknown_user now p_user_id db :
  (forall code,
      Mileage.recalculate_user_mileage now p_user_id db = Error code <->
      (existsb (fun o => MileageSummary.user_id o =? p_user_id) (mileage_summary db) = false /\
       user_exists (users db) p_user_id = false /\
       code = "23503"%string)) /\
  (user_exists (users db) p_user_id = true ->
   exists db', Mileage.recalculate_user_mileage now p_user_id db = Ok db').
Proof.
  unfold Mileage.recalculate_user_mileage. split.
  - intros code.
    destruct (existsb _ (mileage_summary db)); [split; [discriminate | intros (H & _); discriminate]|].
    destruct (user_exists (users db) p_user_id); simpl.
    + split; [discriminate | intros (_ & H & _); discriminate].
    + split.
      * intros H. injection H as <-. repeat split.
      * intros (_ & _ & ->). reflexivity.
  - apply recalculate_succeeds_for_user.
Qed.

Lemma recalculate_fails_only_for_unknown_user_witness :
  user_exists (users example_db) 1 = true /\
  user_exists (users example_db) 9 = false /\
  Mileage.recalculate_user_mileage example_now 9 example_db = Error "23503" /\
  exists db', Mileage.recalculate_user_mileage example_now 1 example_db = Ok db'.
Proof.
  split; [reflexivity|]. split; [reflexivity|]. split.
  - apply (proj1 (recalculate_fails_only_for_unknown_user example_now 9 example_db)).
    repeat split.
  - exact (proj2 (recalculate_fails_only_for_unknown_user example_now 1 example_db)
             eq_refl).
Defined.

(** X10.  For a user with no activity record the recalculation still
    writes a row: the four distances are 0 (not NULL), both counts are 0,
    the last activity date is NULL and the tier is [none]. *)
Theorem recalculate_without_activities now p_user_id db db' :
  Reference.activities_of p_user_id (activities db) = [] ->
  Mileage.recalculate_user_mileage now p_user_id db = Ok db' ->
  (exists r, In r (mileage_summary db') /\ MileageSummary.user_id r = p_user_id) /\
  (forall r, In r (mileage_summary db') -> MileageSummary.user_id r = p_user_id ->
     MileageSummary.current_month_miles r = Some 0%Q /\
     MileageSummary.last_month_miles r = Some 0%Q /\
     MileageSummary.current_year_miles r = Some 0%Q /\
     MileageSummary.total_miles r = Some 0%Q /\
     MileageSummary.total_activities r = Some 0 /\
     MileageSummary.dc_activities r = Some 0 /\
     MileageSummary.last_activity_date r = None /\
     MileageSummary.access_tier r = Some none).
Proof.
  intros Hnone H.
  destruct (recalculate_effect _ _ _ _ H) as (_ & _ & _ & _ & Hex & Hrows & _).
  split; [exact Hex|]. intros r Hin Hr.
  destruct (Hrows r Hin Hr) as (E1 & E2 & E3 & E4 & E5 & E6 & E7 & E8 & _).
  unfold Mileage.aggregate in *. unfold Reference.activities_of in Hnone.
  rewrite Hnone in *. simpl in *.
  repeat split; assumption.
Qed.

Lemma recalculate_without_activities_witness :
  Reference.activities_of 1 (activities example_valid_db) = [] /\
  exists db',
    Mileage.recalculate_user_mileage example_now 1 example_valid_db = Ok db' /\
    exists r, In r (mileage_summary db') /\ MileageSummary.user_id r = 1.
Proof.
  split; [reflexivity|]. eexists. split; [reflexivity|].
  exact (proj1 (recalculate_without_activities example_now 1 example_valid_db _
                  eq_refl eq_refl)).
Defined.

Lemma do_update_rowwise now (E : MileageSummary.row) u (l : list MileageSummary.row) :
  Forall2 (fun OLD NEW =>
             MileageSummary.user_id NEW = MileageSummary.user_id OLD /\
             MileageSummary.created_at NEW = MileageSummary.created_at OLD /\
             (MileageSummary.user_id OLD <> u -> NEW = OLD))
          l
          (Mileage.update now (Mileage.do_update_set now E)
             (fun o => MileageSummary.user_id o =? u) l).
Proof.
  unfold Mileage.update.
  induction l as [|OLD l IH]; simpl; constructor; [|exact IH].
  destruct (MileageSummary.user_id OLD =? u) eqn:Eu.
  - simpl. repeat split. intros Hne. apply Z.eqb_eq in Eu. contradiction.
  - repeat split.
Qed.

(** X11.  A successful recalculation changes nothing but the summary row
    of its user: the other tables are as they were; the rows of
    [mileage_summary] keep their order and every row of another user is
    unchanged; a row of the user that existed keeps its [created_at]; when
    the user had no row, one row is added at the end, created at the time
    of the call. *)
Theorem recalculate_touches_one_row now p_user_id db db' :
  Mileage.recalculate_user_mileage now p_user_id db = Ok db' ->
  users db' = users db /\ activities db' = activities db /\
  drops db' = drops db /\ drop_access db' = drop_access db /\
  exists added,
    Forall2 (fun OLD NEW =>
               MileageSummary.user_id NEW = MileageSummary.user_id OLD /\
               MileageSummary.created_at NEW = MileageSummary.created_at OLD /\
               (MileageSummary.user_id OLD <> p_user_id -> NEW = OLD))
            (mileage_summary db)
            (firstn (List.length (mileage_summary db)) (mileage_summary db')) /\
    mileage_summary db' =
      firstn (List.length (mileage_summary db)) (mileage_summary db') ++ added /\
    (existsb (fun o => MileageSummary.user_id o =? p_user_id) (mileage_summary db) = true ->
     added = []) /\
    (existsb (fun o => MileageSummary.user_id o =? p_user_id) (mileage_summary db) = false ->
     exists r, added = [r] /\ MileageSummary.user_id r = p_user_id /\
               MileageSummary.created_at r = Some now).
Proof.
  intros H.
  destruct (recalculate_effect _ _ _ _ H) as (Hu & Ha & Hd & Hg & _).
  refine (conj Hu (conj Ha (conj Hd (conj Hg _)))).
  unfold Mileage.recalculate_user_mileage in H.
  assert (Hsame : forall l : list MileageSummary.row,
             Forall2 (fun OLD NEW =>
               MileageSummary.user_id NEW = MileageSummary.user_id OLD /\
               MileageSummary.created_at NEW = MileageSummary.created_at OLD /\
               (MileageSummary.user_id OLD <> p_user_id -> NEW = OLD)) l l).
  { induction l; constructor; auto. }
  destruct (existsb _ (mileage_summary db)) eqn:Ex.
  - injection H as <-. simpl. exists [].
    pose proof (do_update_rowwise now
                  (Mileage.update_access_tier now
                     (Mileage.aggregate now p_user_id (activities db)))
                  p_user_id (mileage_summary db)) as Hrow.
    pose proof (Forall2_length Hrow) as Hlen.
    rewrite Hlen at 1 2. rewrite firstn_all, app_nil_r.
    refine (conj Hrow (conj eq_refl (conj (fun _ => eq_refl) _))). discriminate.
  - destruct (negb _); [discriminate|]. injection H as <-. simpl.
    eexists. rewrite firstn_app, Nat.sub_diag, firstn_all. simpl. rewrite app_nil_r.
    refine (conj (Hsame _) (conj eq_refl (conj _ _))); [discriminate|].
    intros _. eexists. repeat split.
Qed.

Lemma recalculate_touches_one_row_witness :
  Mileage.recalculate_user_mileage example_now 1 example_db = Ok example_db_recalculated /\
  users example_db_recalculated = users example_db /\
  activities example_db_recalculated = activities example_db.
Proof.
  split; [reflexivity|].
  destruct (recalculate_touches_one_row example_now 1 example_db
              example_db_recalculated eq_refl) as (Hu & Ha & _).
  split; [exact Hu | exact Ha].
Defined.

Lemma time_leb_refl (a : Time.timestamptz) : Time.leb a a = true.
Proof.
  unfold Time.leb, Time.compare. rewrite !Z.compare_refl. reflexivity.
Qed.

Lemma time_compare_antisym (a b : Time.timestamptz) :
  Time.compare b a = CompOpp (Time.compare a b).
Proof.
  unfold Time.compare.
  rewrite (Z.compare_antisym (Time.year a) (Time.year b)).
  rewrite (Z.compare_antisym (Time.month a) (Time.month b)).
  rewrite (Z.compare_antisym (Time.day a) (Time.day b)).
  rewrite (Z.compare_antisym (Time.usec a) (Time.usec b)).
  destruct (Time.year a ?= Time.year b); simpl; try reflexivity.
  destruct (Time.month a ?= Time.month b); simpl; try reflexivity.
  destruct (Time.day a ?= Time.day b); simpl; reflexivity.
Qed.

Lemma time_leb_total (a b : Time.timestamptz) :
  Time.leb a b = true \/ Time.leb b a = true.
Proof.
  unfold Time.leb. rewrite (time_compare_antisym a b).
  destruct (Time.compare a b); simpl; auto.
Qed.

Lemma time_ltb_not_leb (a b : Time.timestamptz) :
  Time.ltb a b = true -> Time.leb b a = false.
Proof.
  unfold Time.ltb, Time.leb. rewrite (time_compare_antisym a b).
  destruct (Time.compare a b); simpl; intros H; try discriminate; reflexivity.
Qed.

Lemma time_leb_trans (a b c : Time.timestamptz) :
  Time.leb a b = true -> Time.leb b c = true -> Time.leb a c = true.
Proof.
  destruct a as [a1 a2 a3 a4], b as [b1 b2 b3 b4], c as [c1 c2 c3 c4].
  unfold Time.leb, Time.compare. simpl.
  destruct (Z.compare_spec a1 b1); try discriminate;
    destruct (Z.compare_spec b1 c1); try discriminate;
    destruct (Z.compare_spec a1 c1); try reflexivity; try lia; subst;
    destruct (Z.compare_spec a2 b2); try discriminate;
    destruct (Z.compare_spec b2 c2); try discriminate;
    destruct (Z.compare_spec a2 c2); try reflexivity; try lia; subst;
    destruct (Z.compare_spec a3 b3); try discriminate;
    destruct (Z.compare_spec b3 c3); try discriminate;
    destruct (Z.compare_spec a3 c3); try reflexivity; try lia; subst;
    destruct (Z.compare_spec a4 b4); try discriminate;
    destruct (Z.compare_spec b4 c4); try discriminate;
    destruct (Z.compare_spec a4 c4); try reflexivity; try lia.
Qed.

Lemma fold_later_spec (l : list Time.timestamptz) :
  forall t,
    let d := fold_left Time.later l t in
    In d (t :: l) /\ Time.leb t d = true /\ forall x, In x l -> Time.leb x d = true.
Proof.
  induction l as [|y l IH]; intros t; simpl.
  - split; [now left|]. split; [apply time_leb_refl | intros x []].
  - destruct (IH (Time.later t y)) as (Hin & Hge & Hall).
    assert (Ht : Time.leb t (Time.later t y) = true /\
                 Time.leb y (Time.later t y) = true /\
                 (Time.later t y = t \/ Time.later t y = y)).
    { unfold Time.later. destruct (Time.leb t y) eqn:E.
      - split; [exact E|]. split; [apply time_leb_refl | now right].
      - split; [apply time_leb_refl|]. split; [|now left].
        destruct (time_leb_total t y) as [H|H]; [congruence | exact H]. }
    destruct Ht as (Ht & Hy & Hor). split; [|split].
    + simpl in Hin. destruct Hin as [Hin|Hin]; [|now right; right].
      rewrite <- Hin. destruct Hor as [->| ->]; [now left | now right; left].
    + eapply time_leb_trans; eassumption.
    + intros x [<-|Hx]; [eapply time_leb_trans; eassumption | now apply Hall].
Qed.

Lemma time_max_spec (l : list Time.timestamptz) :
  match Time.max l with
  | None => l = []
  | Some d => In d l /\ forall x, In x l -> Time.leb x d = true
  end.
Proof.
  destruct l as [|t l]; simpl; [reflexivity|].
  destruct (fold_later_spec l t) as (Hin & Hge & Hall).
  split; [exact Hin|]. intros x [<-|Hx]; [exact Hge | now apply Hall].
Qed.

(** X12.  After a recalculation the user's [last_activity_date] is NULL
    exactly when the user has no activity record; otherwise it is the date
    of one of the user's records and no record of the user, in the region
    or not, is dated later. *)
Theorem last_activity_date_is_latest now p_user_id db db' :
  Mileage.recalculate_user_mileage now p_user_id db = Ok db' ->
  forall r, In r (mileage_summary db') -> MileageSummary.user_id r = p_user_id ->
    match MileageSummary.last_activity_date r with
    | None => Reference.activities_of p_user_id (activities db) = []
    | Some d =>
        (exists a, In a (Reference.activities_of p_user_id (activities db)) /\
                   Activities.activity_date a = d) /\
        (forall a, In a (Reference.activities_of p_user_id (activities db)) ->
                   Time.leb (Activities.activity_date a) d = true)
    end.
Proof.
  intros H r Hin Hr.
  destruct (recalculate_effect _ _ _ _ H) as (_ & _ & _ & _ & _ & Hrows & _).
  destruct (Hrows r Hin Hr) as (_ & _ & _ & _ & _ & _ & E7 & _).
  rewrite E7. unfold Mileage.aggregate. simpl.
  fold (Reference.activities_of p_user_id (activities db)).
  pose proof (time_max_spec
                (map Activities.activity_date
                     (Reference.activities_of p_user_id (activities db)))) as Hmax.
  destruct (Time.max _) as [d|].
  - destruct Hmax as [Hd Hall]. split.
    + apply in_map_iff in Hd as (a & Ha & Hina). now exists a.
    + intros a Ha. apply Hall. now apply in_map.
  - now apply map_eq_nil in Hmax.
Qed.

Lemma last_activity_date_is_latest_witness :
  Mileage.recalculate_user_mileage example_now 1 example_db = Ok example_db_recalculated /\
  exists r, In r (mileage_summary example_db_recalculated) /\
            MileageSummary.last_activity_date r = Some (Time.mk 2026 1 10 0) /\
            forall a, In a (Reference.activities_of 1 (activities example_db)) ->
                      Time.leb (Activities.activity_date a) (Time.mk 2026 1 10 0) = true.
Proof.
  split; [reflexivity|].
  eexists. split; [left; reflexivity|]. split; [reflexivity|].
  exact (proj2 (last_activity_date_is_latest example_now 1 example_db
                  example_db_recalculated eq_refl _ (or_introl eq_refl) eq_refl)).
Defined.

Lemma sum_filter_disjoint {A} (d : A -> Q) (P1 P2 P3 : A -> bool) (l : list A) :
  (forall a, In a l -> (0 <= d a)%Q) ->
  (forall a, In a l -> P1 a = true -> P2 a = false /\ P3 a = true) ->
  (forall a, In a l -> P2 a = true -> P3 a = true) ->
  (0 <= fold_right Qplus 0 (map d (filter P1 l)) /\
   0 <= fold_right Qplus 0 (map d (filter P2 l)) /\
   fold_right Qplus 0 (map d (filter P1 l)) + fold_right Qplus 0 (map d (filter P2 l))
   <= fold_right Qplus 0 (map d (filter P3 l)))%Q.
Proof.
  induction l as [|a l IH]; intros Hpos H1 H2; simpl.
  - repeat split; lra.
  - destruct IH as (I1 & I2 & I3).
    { intros x Hx. apply Hpos. now right. }
    { intros x Hx. apply H1. now right. }
    { intros x Hx. apply H2. now right. }
    pose proof (Hpos a (or_introl eq_refl)) as Ha.
    pose proof (H1 a (or_introl eq_refl)) as Ha1.
    pose proof (H2 a (or_introl eq_refl)) as Ha2.
    destruct (P1 a) eqn:E1.
    + destruct (Ha1 eq_refl) as [-> ->]. simpl. repeat split; lra.
    + destruct (P2 a) eqn:E2.
      * rewrite (Ha2 eq_refl). simpl. repeat split; lra.
      * destruct (P3 a); simpl; repeat split; lra.
Qed.

Lemma filter_none {A} (l : list A) : filter (fun _ => false) l = [].
Proof. induction l; simpl; auto. Qed.

Lemma year_start_before_month_start (now d : Time.timestamptz) :
  1 <= Time.month now ->
  Reference.in_current_month now d = true -> Reference.in_current_year now d = true.
Proof.
  unfold Reference.in_current_month, Reference.in_current_year. intros Hm H.
  eapply time_leb_trans; [|exact H].
  unfold Time.leb, Time.compare, Reference.current_year_start,
    Reference.current_month_start, Reference.first_instant_of_month.
  cbn [Time.year Time.month Time.day Time.usec].
  rewrite Z.compare_refl.
  destruct (Z.compare_spec 1 (Time.month now)); try reflexivity; lia.
Qed.

(** X13.  When no activity of the user has a negative distance and the
    month of [now] is at least 1, the distances a recalculation writes are
    ordered: 0 <= current month <= current year <= all time, and prior
    month plus current month <= all time, no activity being counted in both
    months; and 0 <= in-region count <= total count. *)
Theorem recalculated_distances_are_ordered now p_user_id db db' :
  Mileage.recalculate_user_mileage now p_user_id db = Ok db' ->
  (forall a, In a (Reference.activities_of p_user_id (activities db)) ->
             (0 <= Activities.distance_miles a)%Q) ->
  1 <= Time.month now ->
  forall r, In r (mileage_summary db') -> MileageSummary.user_id r = p_user_id ->
    exists cur last yr total n k,
      MileageSummary.current_month_miles r = Some cur /\
      MileageSummary.last_month_miles r = Some last /\
      MileageSummary.current_year_miles r = Some yr /\
      MileageSummary.total_miles r = Some total /\
      MileageSummary.total_activities r = Some n /\
      MileageSummary.dc_activities r = Some k /\
      (0 <= cur)%Q /\ (cur <= yr)%Q /\ (yr <= total)%Q /\
      (0 <= last)%Q /\ (last + cur <= total)%Q /\
      0 <= k <= n.
Proof.
  intros H Hpos Hm r Hin Hr.
  destruct (recalculate_effect _ _ _ _ H) as (_ & _ & _ & _ & _ & Hrows & _).
  pose proof (summarises_written now p_user_id (activities db) _ r
                (Hrows r Hin Hr) (aggregate_summarises now p_user_id (activities db)))
    as Hs.
  unfold Reference.summarises in Hs.
  destruct Hs as ((cur & Ec & Hc) & (last & El & Hl) & (yr & Ey & Hy) &
                  (total & Et & Ht) & En & Ek & _).
  set (mine := Reference.activities_of p_user_id (activities db)) in *.
  exists cur, last, yr, total. do 2 eexists.
  refine (conj Ec (conj El (conj Ey (conj Et (conj En (conj Ek _)))))).
  unfold Reference.region_miles in *.
  destruct (sum_filter_disjoint Activities.distance_miles
              (fun a => Reference.in_region a &&
                        Reference.in_current_month now (Activities.activity_date a))
              (fun _ => false)
              (fun a => Reference.in_region a &&
                        Reference.in_current_year now (Activities.activity_date a))
              mine Hpos) as (C0 & _ & C1).
  { intros a _ Ha. apply andb_true_iff in Ha as [Hreg Hw]. split; [reflexivity|].
    rewrite Hreg. simpl. now apply year_start_before_month_start. }
  { intros a _ Ha. discriminate Ha. }
  destruct (sum_filter_disjoint Activities.distance_miles
              (fun a => Reference.in_region a &&
                        Reference.in_current_year now (Activities.activity_date a))
              (fun _ => false)
              (fun a => Reference.in_region a && true)
              mine Hpos) as (_ & _ & C2).
  { intros a _ Ha. apply andb_true_iff in Ha as [Hreg Hw]. split; [reflexivity|].
    now rewrite Hreg. }
  { intros a _ Ha. discriminate Ha. }
  destruct (sum_filter_disjoint Activities.distance_miles
              (fun a => Reference.in_region a &&
                        Reference.in_previous_month now (Activities.activity_date a))
              (fun a => Reference.in_region a &&
                        Reference.in_current_month now (Activities.activity_date a))
              (fun a => Reference.in_region a && true)
              mine Hpos) as (C3 & _ & C4).
  { intros a _ Ha. apply andb_true_iff in Ha as [Hreg Hw]. rewrite Hreg. simpl.
    split; [|reflexivity].
    unfold Reference.in_previous_month in Hw. apply andb_true_iff in Hw as [_ Hw].
    unfold Reference.in_current_month. now apply time_ltb_not_leb. }
  { intros a _ Ha. apply andb_true_iff in Ha as [Hreg _]. now rewrite Hreg. }
  rewrite filter_none in C1, C2. simpl in C1, C2.
  repeat split; try lra.
  - lia.
  - apply inj_le. clear. induction mine as [|a l IH]; simpl; [lia|].
    destruct (Reference.in_region a); simpl; lia.
Qed.

Lemma recalculated_distances_are_ordered_witness :
  Mileage.recalculate_user_mileage example_now 1 example_db = Ok example_db_recalculated /\
  1 <= Time.month example_now /\
  exists r cur last yr total n k,
    In r (mileage_summary example_db_recalculated) /\
    MileageSummary.current_month_miles r = Some cur /\
    MileageSummary.last_month_miles r = Some last /\
    MileageSummary.current_year_miles r = Some yr /\
    MileageSummary.total_miles r = Some total /\
    MileageSummary.total_activities r = Some n /\
    MileageSummary.dc_activities r = Some k /\
    (0 <= cur)%Q /\ (cur <= yr)%Q /\ (yr <= total)%Q /\
    (0 <= last)%Q /\ (last + cur <= total)%Q /\
    0 <= k <= n.
Proof.
  split; [reflexivity|]. split; [simpl; lia|].
  assert (Hpos : forall a, In a (Reference.activities_of 1 (activities example_db)) ->
                           (0 <= Activities.distance_miles a)%Q).
  { intros a [<-|[]]. unfold Qle. simpl. lia. }
  assert (Hm : 1 <= Time.month example_now) by (simpl; lia).
  destruct (mileage_summary example_db_recalculated) as [|r l] eqn:E; [discriminate E|].
  destruct (recalculated_distances_are_ordered example_now 1 example_db
              example_db_recalculated eq_refl Hpos Hm r)
    as (cur & last & yr & total & n & k & Hrest).
  - rewrite E. now left.
  - injection E as <- _. reflexivity.
  - exists r, cur, last, yr, total, n, k. split; [now left | exact Hrest].
Defined.

(* ===================================================================== *)
(** ** Further properties: the sync handler *)
(* ===================================================================== *)

Lemma changed_only_for_refl userId db : changed_only_for userId db db.
Proof.
  unfold changed_only_for. repeat split; auto.
  - induction (users db); constructor; auto.
  - exists []. now rewrite app_nil_r.
Qed.

Lemma update_tokens_rowwise userId refreshData t (tbl : list Users.row) :
  Forall2 (fun u u' => Users.id u' = Users.id u /\ (Users.id u <> userId -> u' = u))
          tbl (Sync.update_tokens userId refreshData t tbl).
Proof.
  unfold Sync.update_tokens. destruct (Sync.timestamptz_input t).
  - induction tbl as [|u tbl IH]; simpl; constructor; auto.
    destruct (Users.id u =? userId) eqn:E; simpl; split; auto.
    intros Hne. apply Z.eqb_eq in E. contradiction.
  - induction tbl; constructor; auto.
Qed.

Lemma update_last_synced_rowwise userId t (tbl : list Users.row) :
  Forall2 (fun u u' => Users.id u' = Users.id u /\ (Users.id u <> userId -> u' = u))
          tbl (Sync.update_last_synced userId t tbl).
Proof.
  unfold Sync.update_last_synced. induction tbl as [|u tbl IH]; simpl; constructor; auto.
  destruct (Users.id u =? userId) eqn:E; simpl; split; auto.
  intros Hne. apply Z.eqb_eq in E. contradiction.
Qed.

Lemma rowwise_trans userId (l1 l2 l3 : list Users.row) :
  Forall2 (fun u u' => Users.id u' = Users.id u /\ (Users.id u <> userId -> u' = u)) l1 l2 ->
  Forall2 (fun u u' => Users.id u' = Users.id u /\ (Users.id u <> userId -> u' = u)) l2 l3 ->
  Forall2 (fun u u' => Users.id u' = Users.id u /\ (Users.id u <> userId -> u' = u)) l1 l3.
Proof.
  intros H12. revert l3. induction H12 as [|u u' l1 l2 [Hid Hsame] _ IH]; intros l3 H23.
  - inversion H23. constructor.
  - inversion H23 as [|? u'' ? l3' [Hid' Hsame'] Hrest]; subst. constructor.
    + split; [congruence|]. intros Hne. rewrite Hsame', Hsame; auto. congruence.
    + now apply IH.
Qed.

Lemma user_exists_rowwise userId (l1 l2 : list Users.row) u :
  Forall2 (fun u u' => Users.id u' = Users.id u /\ (Users.id u <> userId -> u' = u)) l1 l2 ->
  user_exists l2 u = user_exists l1 u.
Proof.
  unfold user_exists. induction 1 as [|x y l1 l2 [Hid _] _ IH]; simpl; [reflexivity|].
  now rewrite Hid, IH.
Qed.

Lemma find_user_exists (tbl : list Users.row) userId user :
  find (fun u => Users.id u =? userId) tbl = Some user ->
  user_exists tbl userId = true.
Proof.
  intros H. apply find_some in H as [Hin Hid].
  unfold user_exists. apply existsb_exists. now exists user.
Qed.

(** What the part of the handler from the listing on does. *)
Lemma import_effect provider clock userId last_synced accessToken db calls
      resp db' calls' :
  Sync.import provider clock userId last_synced accessToken db calls = (resp, db', calls') ->
  calls' = calls ++ [Sync.call_athlete_activities accessToken (horizon clock last_synced)] /\
  changed_only_for userId db db' /\
  ((Sync.status resp = 500 /\ db' = db) \/
   (Sync.status resp = 200 /\
    (exists total inserted skipped,
        Sync.body resp =
        Sync.synced_body "Activities synced successfully" total inserted skipped) /\
    users db' = Sync.update_last_synced userId (Sync.synced_now clock) (users db) /\
    (user_exists (users db) userId = true ->
     (exists r, In r (mileage_summary db') /\ MileageSummary.user_id r = userId) /\
     forall r, In r (mileage_summary db') -> MileageSummary.user_id r = userId ->
               Reference.summarises (Sync.db_now clock) userId (activities db') r /\
               tier_fresh r))).
Proof.
  unfold Sync.import. fold (horizon clock last_synced). intros H.
  destruct (Sync.athlete_activities provider accessToken (horizon clock last_synced))
    as [acts|text|msg].
  2,3: injection H as <- <- <-; split; [reflexivity|];
       split; [apply changed_only_for_refl | left; split; reflexivity].
  injection H as <- <- <-. split; [reflexivity|].
  set (p := Sync.insert_all (users db) userId (filter Sync.is_run acts) (activities db)).
  destruct (insert_all_effect (users db) userId (filter Sync.is_run acts) (activities db))
    as (new & Hst & _).
  fold p in Hst.
  set (db1 := with_users (with_activities db (Sync.stored p))
                (Sync.update_last_synced userId (Sync.synced_now clock) (users db))).
  assert (Hrow : Forall2 (fun u u' => Users.id u' = Users.id u /\
                                      (Users.id u <> userId -> u' = u))
                         (users db) (users db1)).
  { apply update_last_synced_rowwise. }
  destruct (Mileage.recalculate_user_mileage (Sync.db_now clock) userId db1)
    as [db2|code] eqn:Er.
  - destruct (recalculate_effect _ _ _ _ Er)
      as (Hu & Ha & Hd & Hg & Hex & Hrows & Hother & _).
    cbv iota. split.
    + unfold changed_only_for. rewrite Hd, Hg, Hu, Ha.
      refine (conj eq_refl (conj eq_refl (conj Hrow (conj _ _)))).
      * exists new. exact Hst.
      * exact Hother.
    + right. split; [reflexivity|]. split; [do 3 eexists; reflexivity|].
      split; [exact Hu|]. intros _. split; [exact Hex|].
      intros r Hin Hr. rewrite Ha. split.
      * eapply summarises_written; [now apply Hrows | apply aggregate_summarises].
      * eapply recalculate_written_row_fresh; eassumption.
  - cbv iota. split.
    + unfold changed_only_for. simpl.
      refine (conj eq_refl (conj eq_refl (conj Hrow (conj _ _)))).
      * exists new. exact Hst.
      * intros r _. reflexivity.
    + right. split; [reflexivity|]. split; [do 3 eexists; reflexivity|].
      split; [reflexivity|]. intros Hue. exfalso.
      destruct (recalculate_succeeds_for_user (Sync.db_now clock) userId db1)
        as [dbx Hx].
      * rewrite (user_exists_rowwise userId _ _ _ Hrow). exact Hue.
      * congruence.
Qed.

(** The paths of the handler. *)
Lemma handler_paths env provider clock req db resp db' calls :
  Sync.handler env provider clock req db = (resp, db', calls) ->
  (calls = [] /\ db' = db /\
   (forall message total inserted skipped,
       Sync.body resp <> Sync.synced_body message total inserted skipped) /\
   ((Sync.status resp = 200 /\ Sync.body resp = Sync.no_body) \/
    Sync.status resp = 400 \/ Sync.status resp = 404 \/
    (Sync.status resp = 500 /\
     Sync.body resp = Sync.error_body "Strava not configured" None))) \/
  (exists userId user clientId clientSecret access refresh,
      Sync.userId req = Some userId /\
      find (fun u => Users.id u =? userId) (users db) = Some user /\
      Users.strava_access_token user = Some access /\
      Users.strava_refresh_token user = Some refresh /\
      ((Sync.now clock >=?
          match Users.token_expires_at user with Some t => t | None => 0 end) = true /\
       ((exists message,
            (Sync.refreshStravaToken provider refresh clientId clientSecret
               = Error message \/
             exists refreshData,
               Sync.refreshStravaToken provider refresh clientId clientSecret
                 = Ok refreshData /\
               Sync.toISOString (Sync.expires_at refreshData * 1000) = Error message) /\
            resp = Sync.error_response 500 message /\ db' = db /\
            calls = [Sync.call_oauth_token refresh clientId clientSecret]) \/
        (exists refreshData t,
            Sync.refreshStravaToken provider refresh clientId clientSecret = Ok refreshData /\
            Sync.toISOString (Sync.expires_at refreshData * 1000) = Ok t /\
            Sync.import provider clock userId (Users.last_synced_at user)
              (Sync.access_token refreshData)
              (with_users db (Sync.update_tokens userId refreshData t (users db)))
              [Sync.call_oauth_token refresh clientId clientSecret] = (resp, db', calls)))
       \/
       ((Sync.now clock >=?
           match Users.token_expires_at user with Some t => t | None => 0 end) = false /\
        Sync.import provider clock userId (Users.last_synced_at user) access db []
          = (resp, db', calls)))).
Proof.
  unfold Sync.handler. intros H.
  destruct (String.eqb (Sync.method req) "OPTIONS").
  { injection H as <- <- <-. left. simpl. repeat split; auto; discriminate. }
  destruct (Sync.userId req) as [userId|].
  2:{ injection H as <- <- <-. left. simpl. repeat split; auto; discriminate. }
  destruct (Sync.STRAVA_CLIENT_ID env) as [clientId|].
  2:{ injection H as <- <- <-. left. simpl. repeat split; auto 8; discriminate. }
  destruct (Sync.STRAVA_CLIENT_SECRET env) as [clientSecret|].
  2:{ injection H as <- <- <-. left. simpl. repeat split; auto 8; discriminate. }
  destruct (String.eqb clientId "" || String.eqb clientSecret "").
  { injection H as <- <- <-. left. simpl. repeat split; auto 8; discriminate. }
  destruct (find (fun u => Users.id u =? userId) (users db)) as [user|] eqn:Hfind.
  2:{ injection H as <- <- <-. left. simpl. repeat split; auto 8; discriminate. }
  destruct (Users.strava_access_token user) as [access|] eqn:Ha.
  2:{ injection H as <- <- <-. left. simpl. repeat split; auto 8; discriminate. }
  destruct (Users.strava_refresh_token user) as [refresh|] eqn:Hr.
  2:{ injection H as <- <- <-. left. simpl. repeat split; auto 8; discriminate. }
  destruct (String.eqb access "" || String.eqb refresh "").
  { injection H as <- <- <-. left. simpl. repeat split; auto 8; discriminate. }
  right. exists userId, user, clientId, clientSecret, access, refresh.
  refine (conj eq_refl (conj Hfind (conj Ha (conj Hr _)))).
  destruct (Sync.now clock >=? _) eqn:Ege.
  - left. split; [reflexivity|].
    destruct (Sync.refreshStravaToken provider refresh clientId clientSecret)
      as [refreshData|message].
    + destruct (Sync.toISOString (Sync.expires_at refreshData * 1000))
        as [t|message] eqn:Et.
      * right. exists refreshData, t. split; [reflexivity | split; [exact Et | exact H]].
      * left. exists message. injection H as <- <- <-.
        split; [right; exists refreshData; split; [reflexivity | exact Et] | auto].
    + left. exists message. injection H as <- <- <-. auto.
  - right. split; [reflexivity | exact H].
Qed.

Lemma changed_only_for_tokens userId refreshData t db :
  changed_only_for userId db
    (with_users db (Sync.update_tokens userId refreshData t (users db))).
Proof.
  unfold changed_only_for. simpl. repeat split; auto.
  - apply update_tokens_rowwise.
  - exists []. now rewrite app_nil_r.
Qed.

Lemma changed_only_for_trans userId db1 db2 db3 :
  changed_only_for userId db1 db2 -> changed_only_for userId db2 db3 ->
  changed_only_for userId db1 db3.
Proof.
  unfold changed_only_for.
  intros (D1 & G1 & U1 & (n1 & A1) & M1) (D2 & G2 & U2 & (n2 & A2) & M2).
  refine (conj _ (conj _ (conj _ (conj _ _)))); try congruence.
  - eapply rowwise_trans; eassumption.
  - exists (n1 ++ n2). rewrite A2, A1, app_assoc. reflexivity.
  - intros r Hr. rewrite (M2 r Hr). now apply M1.
Qed.

(** X14.  An answer with status 400 or 404 (no user id, unknown user, user
    without both tokens) comes with no call to the provider and no change
    to the database.  In particular a user whose access token or refresh
    token is absent or empty is answered 400 'User has not connected
    Strava', and an unknown user id 404 'User not found'. *)
Theorem client_errors_change_nothing env provider clock req db :
  (forall resp db' calls,
      Sync.handler env provider clock req db = (resp, db', calls) ->
      Sync.status resp = 400 \/ Sync.status resp = 404 ->
      db' = db /\ calls = []) /\
  (forall userId clientId clientSecret,
      String.eqb (Sync.method req) "OPTIONS" = false ->
      Sync.userId req = Some userId ->
      Sync.STRAVA_CLIENT_ID env = Some clientId -> clientId <> ""%string ->
      Sync.STRAVA_CLIENT_SECRET env = Some clientSecret -> clientSecret <> ""%string ->
      (find (fun u => Users.id u =? userId) (users db) = None ->
       Sync.handler env provider clock req db =
       (Sync.error_response 404 "User not found", db, [])) /\
      (forall user,
          find (fun u => Users.id u =? userId) (users db) = Some user ->
          Users.strava_access_token user = None \/
          Users.strava_access_token user = Some ""%string \/
          Users.strava_refresh_token user = None \/
          Users.strava_refresh_token user = Some ""%string ->
          Sync.handler env provider clock req db =
          (Sync.error_response 400 "User has not connected Strava", db, []))).
Proof.
  split.
  - intros resp db' calls H Hst.
    destruct (handler_paths _ _ _ _ _ _ _ _ H)
      as [(-> & -> & _)|(userId & user & cid & sec & access & refresh & _ & _ & _ & _ & Hp)];
      [split; reflexivity|].
    exfalso.
    destruct Hp as [(_ & [(message & _ & -> & _)|(rd & t & _ & _ & Hi)])|(_ & Hi)].
    + simpl in Hst. destruct Hst; discriminate.
    + destruct (import_effect _ _ _ _ _ _ _ _ _ _ Hi) as (_ & _ & [(Hs & _)|(Hs & _)]);
        rewrite Hs in Hst; destruct Hst; discriminate.
    + destruct (import_effect _ _ _ _ _ _ _ _ _ _ Hi) as (_ & _ & [(Hs & _)|(Hs & _)]);
        rewrite Hs in Hst; destruct Hst; discriminate.
  - intros userId clientId clientSecret Hm Hu Hid Hidne Hsec Hsecne.
    apply String.eqb_neq in Hidne, Hsecne.
    unfold Sync.handler. rewrite Hm, Hu, Hid, Hsec, Hidne, Hsecne. simpl. split.
    + intros ->. reflexivity.
    + intros user -> Htok.
      destruct (Users.strava_access_token user) as [access|];
        destruct (Users.strava_refresh_token user) as [refresh|]; try reflexivity.
      destruct Htok as [Ht|[Ht|[Ht|Ht]]]; try discriminate Ht;
        injection Ht as ->; simpl; try reflexivity.
      rewrite orb_true_r. reflexivity.
Qed.

Lemma client_errors_change_nothing_witness :
  find (fun u => Users.id u =? 1) (users example_drop_db) =
    Some (Users.mk 1 None None None None) /\
  Sync.handler example_env example_provider example_clock example_request
               example_drop_db =
  (Sync.error_response 400 "User has not connected Strava", example_drop_db, []).
Proof.
  split; [reflexivity|].
  assert (H1 : "client-id"%string <> ""%string) by discriminate.
  assert (H2 : "client-secret"%string <> ""%string) by discriminate.
  exact (proj2 (proj2 (client_errors_change_nothing example_env example_provider
                         example_clock example_request example_drop_db)
                      1 "client-id"%string "client-secret"%string
                      eq_refl eq_refl eq_refl H1 eq_refl H2)
               (Users.mk 1 None None None None) eq_refl (or_introl eq_refl)).
Defined.

(** X15.  Whatever it answers, the sync handler changes nothing outside
    the requesting user's data: [drops] and [drop_access] are as they were,
    every [users] row keeps its id and its place and the rows of other
    users are unchanged, [activities] only has rows appended, and the
    summary rows of other users are as they were.  A request without a
    user id changes nothing at all. *)
Theorem sync_changes_only_the_user env provider clock req db resp db' calls :
  Sync.handler env provider clock req db = (resp, db', calls) ->
  match Sync.userId req with
  | Some userId => changed_only_for userId db db'
  | None => db' = db
  end.
Proof.
  intros H.
  destruct (handler_paths _ _ _ _ _ _ _ _ H)
    as [(_ & -> & _)|(userId & user & cid & sec & access & refresh & -> & _ & _ & _ & Hp)].
  - destruct (Sync.userId req); [apply changed_only_for_refl | reflexivity].
  - destruct Hp as [(_ & [(message & _ & _ & -> & _)|(rd & t & _ & _ & Hi)])|(_ & Hi)].
    + apply changed_only_for_refl.
    + destruct (import_effect _ _ _ _ _ _ _ _ _ _ Hi) as (_ & Hc & _).
      eapply changed_only_for_trans; [apply changed_only_for_tokens | exact Hc].
    + now destruct (import_effect _ _ _ _ _ _ _ _ _ _ Hi) as (_ & Hc & _).
Qed.

Lemma sync_changes_only_the_user_witness :
  exists db' calls,
    Sync.handler example_env example_provider example_clock example_request
                 example_valid_db =
      (Sync.mk_response 200 (Sync.synced_body "Activities synced successfully" 2 1 0),
       db', calls) /\
    changed_only_for 1 example_valid_db db'.
Proof.
  assert (H : exists db' calls,
             Sync.handler example_env example_provider example_clock example_request
                          example_valid_db =
             (Sync.mk_response 200
                (Sync.synced_body "Activities synced successfully" 2 1 0), db', calls)).
  { do 2 eexists. vm_compute. reflexivity. }
  destruct H as (db' & calls & H). exists db', calls. split; [exact H|].
  exact (sync_changes_only_the_user _ _ _ _ _ _ _ _ H).
Defined.

Lemma toISOString_ok (t : Z) :
  - 8640000000000000 <= t <= 8640000000000000 -> Sync.toISOString t = Ok t.
Proof.
  intros H. unfold Sync.toISOString.
  assert (E : (Z.abs t <=? 8640000000000000) = true) by (apply Z.leb_le; lia).
  rewrite E. reflexivity.
Qed.

Lemma toISOString_throws (t : Z) :
  8640000000000000 < Z.abs t -> Sync.toISOString t = Error "Invalid time value".
Proof.
  intros H. unfold Sync.toISOString.
  assert (E : (Z.abs t <=? 8640000000000000) = false) by (apply Z.leb_gt; lia).
  rewrite E. reflexivity.
Qed.

Lemma timestamptz_input_ok (t : Z) :
  -62135596800000 <= t <= 253402300799999 -> Sync.timestamptz_input t = Ok t.
Proof.
  intros H. unfold Sync.timestamptz_input.
  assert (E1 : (-62135596800000 <=? t) = true) by (apply Z.leb_le; lia).
  assert (E2 : (t <=? 253402300799999) = true) by (apply Z.leb_le; lia).
  rewrite E1, E2. reflexivity.
Qed.

Lemma update_tokens_credentials userId refreshData t (tbl : list Users.row) u :
  Sync.timestamptz_input t = Ok t ->
  In u (Sync.update_tokens userId refreshData t tbl) -> Users.id u = userId ->
  credentials u = (Some (Sync.access_token refreshData),
                   Some (Sync.refresh_token refreshData),
                   Some t).
Proof.
  unfold Sync.update_tokens. intros -> Hin Hid.
  apply in_map_iff in Hin as (o & <- & _).
  destruct (Users.id o =? userId) eqn:E; [reflexivity|].
  apply Z.eqb_neq in E. contradiction.
Qed.

Lemma update_last_synced_credentials userId t (tbl : list Users.row) :
  map credentials (Sync.update_last_synced userId t tbl) = map credentials tbl /\
  map Users.id (Sync.update_last_synced userId t tbl) = map Users.id tbl.
Proof.
  unfold Sync.update_last_synced. rewrite !map_map.
  split; apply map_ext; intros u; destruct (Users.id u =? userId); reflexivity.
Qed.

Lemma update_last_synced_in userId t (tbl : list Users.row) u' :
  In u' (Sync.update_last_synced userId t tbl) ->
  exists u, In u tbl /\ Users.id u' = Users.id u /\ credentials u' = credentials u /\
            (Users.id u' = userId -> Users.last_synced_at u' = Some t).
Proof.
  unfold Sync.update_last_synced. intros Hin.
  apply in_map_iff in Hin as (u & <- & Hu). exists u. split; [exact Hu|].
  destruct (Users.id u =? userId) eqn:E; simpl; repeat split; try reflexivity.
  intros Hid. apply Z.eqb_neq in E. contradiction.
Qed.

(** X16.  For a connected user whose stored expiry is at or before [now],
    a refresh exchange that comes back ok with an expiry in the years 0001
    to 9999 is persisted before the listing: the handler calls the token
    endpoint, then the activity listing with the new access token and the
    user's horizon, and whatever the listing answers, the user's stored
    access token, refresh token and expiry are afterwards the ones of the
    exchange (the expiry in milliseconds).  An exchange whose expiry is no
    valid date, more than 8.64e15 ms from the epoch, is not persisted: the
    handler answers 500 'Invalid time value' after the call to the token
    endpoint, lists nothing and leaves the database as it was. *)
Theorem refresh_success_is_persisted
    env provider clock req db userId user clientId clientSecret access refresh
    expiry refreshData :
  String.eqb (Sync.method req) "OPTIONS" = false ->
  Sync.userId req = Some userId ->
  Sync.STRAVA_CLIENT_ID env = Some clientId -> clientId <> ""%string ->
  Sync.STRAVA_CLIENT_SECRET env = Some clientSecret -> clientSecret <> ""%string ->
  find (fun u => Users.id u =? userId) (users db) = Some user ->
  Users.strava_access_token user = Some access -> access <> ""%string ->
  Users.strava_refresh_token user = Some refresh -> refresh <> ""%string ->
  Users.token_expires_at user = Some expiry ->
  expiry <= Sync.now clock ->
  Sync.oauth_token provider refresh clientId clientSecret = Sync.fetch_ok refreshData ->
  (-62135596800000 <= Sync.expires_at refreshData * 1000 <= 253402300799999 ->
   exists resp db',
     Sync.handler env provider clock req db =
       (resp, db',
        [Sync.call_oauth_token refresh clientId clientSecret;
         Sync.call_athlete_activities (Sync.access_token refreshData)
           (horizon clock (Users.last_synced_at user))]) /\
     (exists u, In u (users db') /\ Users.id u = userId) /\
     (forall u, In u (users db') -> Users.id u = userId ->
        credentials u = (Some (Sync.access_token refreshData),
                         Some (Sync.refresh_token refreshData),
                         Some (Sync.expires_at refreshData * 1000)))) /\
  (8640000000000000 < Z.abs (Sync.expires_at refreshData * 1000) ->
   Sync.handler env provider clock req db =
     (Sync.error_response 500 "Invalid time value", db,
      [Sync.call_oauth_token refresh clientId clientSecret])).
Proof.
  intros Hm Hu Hid Hidne Hsec Hsecne Hfind Ha Hane Hr Hrne He Hle Hok.
  unfold Sync.handler. rewrite Hm, Hu, Hid, Hsec.
  apply String.eqb_neq in Hidne, Hsecne, Hane, Hrne.
  rewrite Hidne, Hsecne. simpl. rewrite Hfind, Ha, Hr, Hane, Hrne. simpl.
  rewrite He.
  assert (Hge : (Sync.now clock >=? expiry) = true) by (apply Z.geb_le; lia).
  rewrite Hge. unfold Sync.refreshStravaToken. rewrite Hok.
  split; [|intros Hbig; rewrite (toISOString_throws _ Hbig); reflexivity].
  intros Hplain.
  set (t := Sync.expires_at refreshData * 1000) in *.
  rewrite (toISOString_ok t) by lia.
  pose proof (timestamptz_input_ok t Hplain) as Hin_t.
  set (db1 := with_users db (Sync.update_tokens userId refreshData t (users db))).
  destruct (Sync.import provider clock userId (Users.last_synced_at user)
              (Sync.access_token refreshData) db1
              [Sync.call_oauth_token refresh clientId clientSecret])
    as [[resp db'] calls] eqn:Hi.
  destruct (import_effect _ _ _ _ _ _ _ _ _ _ Hi) as (-> & _ & Hcase).
  exists resp, db'. split; [reflexivity|].
  assert (Hin1 : exists u, In u (users db1) /\ Users.id u = userId).
  { apply find_some in Hfind as [Hin Hidu]. apply Z.eqb_eq in Hidu.
    exists (Users.mk (Users.id user) (Some (Sync.access_token refreshData))
              (Some (Sync.refresh_token refreshData))
              (Some t) (Users.last_synced_at user)).
    split; [|exact Hidu]. simpl. unfold Sync.update_tokens. rewrite Hin_t.
    apply in_map_iff. exists user. split; [|exact Hin].
    apply Z.eqb_eq in Hidu. now rewrite Hidu. }
  destruct Hcase as [(_ & ->)|(_ & _ & Hus & _)].
  - split; [exact Hin1|]. intros u Hin Hidu. simpl in Hin.
    now apply (update_tokens_credentials userId refreshData t (users db)).
  - split.
    + destruct Hin1 as (u & Hin & Hidu). rewrite Hus.
      exists (if Users.id u =? userId
              then Users.mk (Users.id u) (Users.strava_access_token u)
                     (Users.strava_refresh_token u) (Users.token_expires_at u)
                     (Some (Sync.synced_now clock))
              else u).
      split.
      * unfold Sync.update_last_synced. apply in_map_iff. exists u. split; [reflexivity|exact Hin].
      * destruct (Users.id u =? userId); exact Hidu.
    + intros u Hin Hidu. rewrite Hus in Hin.
      apply update_last_synced_in in Hin as (o & Ho & Hido & -> & _).
      apply (update_tokens_credentials userId refreshData t (users db));
        [exact Hin_t | exact Ho | congruence].
Qed.

Lemma refresh_success_is_persisted_witness :
  let provider :=
    Sync.mk_provider
      (fun _ _ _ => Sync.fetch_ok (Sync.mk_refresh "new-access" 1768932000 "new-refresh"))
      (fun _ _ => Sync.fetch_not_ok "Service Unavailable") in
  find (fun u => Users.id u =? 1) (users example_db) = Some example_user /\
  0 <= Sync.now example_clock /\
  exists resp db',
    Sync.handler example_env provider example_clock example_request example_db =
      (resp, db',
       [Sync.call_oauth_token "refresh" "client-id" "client-secret";
        Sync.call_athlete_activities "new-access"
          (horizon example_clock (Users.last_synced_at example_user))]) /\
    (exists u, In u (users db') /\ Users.id u = 1) /\
    (forall u, In u (users db') -> Users.id u = 1 ->
       credentials u = (Some "new-access"%string, Some "new-refresh"%string,
                        Some (1768932000 * 1000))).
Proof.
  intros provider. split; [reflexivity|]. split; [simpl; lia|].
  apply (refresh_success_is_persisted
           example_env provider example_clock example_request example_db
           1 example_user "client-id" "client-secret" "access" "refresh" 0
           (Sync.mk_refresh "new-access" 1768932000 "new-refresh"));
    solve [reflexivity | discriminate | simpl; lia].
Defined.

(** X17.  For a connected user whose stored expiry is after [now] the
    handler does not refresh: its only call to the provider is the
    activity listing, with the stored access token and the user's
    horizon, and the stored credentials of every user are afterwards what
    they were. *)
Theorem valid_token_is_not_refreshed
    env provider clock req db userId user clientId clientSecret access refresh expiry :
  String.eqb (Sync.method req) "OPTIONS" = false ->
  Sync.userId req = Some userId ->
  Sync.STRAVA_CLIENT_ID env = Some clientId -> clientId <> ""%string ->
  Sync.STRAVA_CLIENT_SECRET env = Some clientSecret -> clientSecret <> ""%string ->
  find (fun u => Users.id u =? userId) (users db) = Some user ->
  Users.strava_access_token user = Some access -> access <> ""%string ->
  Users.strava_refresh_token user = Some refresh -> refresh <> ""%string ->
  Users.token_expires_at user = Some expiry ->
  Sync.now clock < expiry ->
  exists resp db',
    Sync.handler env provider clock req db =
      (resp, db',
       [Sync.call_athlete_activities access (horizon clock (Users.last_synced_at user))]) /\
    map credentials (users db') = map credentials (users db).
Proof.
  intros Hm Hu Hid Hidne Hsec Hsecne Hfind Ha Hane Hr Hrne He Hlt.
  unfold Sync.handler. rewrite Hm, Hu, Hid, Hsec.
  apply String.eqb_neq in Hidne, Hsecne, Hane, Hrne.
  rewrite Hidne, Hsecne. simpl. rewrite Hfind, Ha, Hr, Hane, Hrne. simpl.
  rewrite He.
  assert (Hge : (Sync.now clock >=? expiry) = false).
  { rewrite Z.geb_leb. apply Z.leb_gt. exact Hlt. }
  rewrite Hge.
  destruct (Sync.import provider clock userId (Users.last_synced_at user) access db [])
    as [[resp db'] calls] eqn:Hi.
  destruct (import_effect _ _ _ _ _ _ _ _ _ _ Hi) as (-> & _ & Hcase).
  exists resp, db'. split; [reflexivity|].
  destruct Hcase as [(_ & ->)|(_ & _ & -> & _)]; [reflexivity|].
  apply update_last_synced_credentials.
Qed.

Lemma valid_token_is_not_refreshed_witness :
  Sync.now example_clock < 1768996800000 /\
  exists resp db',
    Sync.handler example_env example_provider example_clock example_request
                 example_valid_db =
      (resp, db', [Sync.call_athlete_activities "access" 1768824000]) /\
    map credentials (users db') = map credentials (users example_valid_db).
Proof.
  split; [simpl; lia|].
  apply (valid_token_is_not_refreshed
           example_env example_provider example_clock example_request example_valid_db
           1 (Users.mk 1 (Some "access"%string) (Some "refresh"%string)
                (Some 1768996800000) (Some 1768824000000))
           "client-id" "client-secret" "access" "refresh" 1768996800000);
    solve [reflexivity | discriminate | simpl; lia].
Defined.

Lemma synced_report_effect env provider clock req db resp db' calls
      message total inserted skipped :
  Sync.handler env provider clock req db = (resp, db', calls) ->
  Sync.body resp = Sync.synced_body message total inserted skipped ->
  exists userId dbx,
    Sync.userId req = Some userId /\
    user_exists (users dbx) userId = true /\
    users db' = Sync.update_last_synced userId (Sync.synced_now clock) (users dbx) /\
    (exists r, In r (mileage_summary db') /\ MileageSummary.user_id r = userId) /\
    (forall r, In r (mileage_summary db') -> MileageSummary.user_id r = userId ->
               Reference.summarises (Sync.db_now clock) userId (activities db') r /\
               tier_fresh r).
Proof.
  intros H Hb.
  destruct (handler_paths _ _ _ _ _ _ _ _ H)
    as [(_ & _ & Hnb & _)|(userId & user & cid & sec & access & refresh &
                           Hu & Hfind & _ & _ & Hp)].
  { exfalso. exact (Hnb _ _ _ _ Hb). }
  pose proof (find_user_exists _ _ _ Hfind) as Hue.
  assert (Himp : forall tok dbx calls0,
             user_exists (users dbx) userId = true ->
             Sync.import provider clock userId (Users.last_synced_at user) tok dbx calls0
               = (resp, db', calls) ->
             exists userId dbx,
               Sync.userId req = Some userId /\
               user_exists (users dbx) userId = true /\
               users db' = Sync.update_last_synced userId (Sync.synced_now clock)
                             (users dbx) /\
               (exists r, In r (mileage_summary db') /\ MileageSummary.user_id r = userId) /\
               (forall r, In r (mileage_summary db') -> MileageSummary.user_id r = userId ->
                          Reference.summarises (Sync.db_now clock) userId (activities db') r /\
                          tier_fresh r)).
  { intros tok dbx calls0 Hex Hi.
    destruct (import_counts _ _ _ _ _ _ _ _ _ _ _ _ _ _ Hi Hb) as (Hst & _).
    destruct (import_effect _ _ _ _ _ _ _ _ _ _ Hi)
      as (_ & _ & [(Hs & _)|(_ & _ & Hus & Hsum)]); [congruence|].
    destruct (Hsum Hex) as (Hr1 & Hr2).
    exists userId, dbx. repeat split; try assumption; now apply Hr2. }
  destruct Hp as [(_ & [(msg & _ & -> & _)|(rd & t & _ & _ & Hi)])|(_ & Hi)].
  - discriminate Hb.
  - eapply Himp; [|exact Hi]. simpl.
    rewrite (user_exists_rowwise userId _ _ _
               (update_tokens_rowwise userId rd t (users db))).
    exact Hue.
  - eapply Himp; [exact Hue | exact Hi].
Qed.

(** X18.  Two invocations compose through [last_synced_at]: after an
    invocation that answered with the sync report, any later invocation
    for the same request on the database it left asks the provider for
    the activities after that invocation's sync time, in whole seconds,
    whether or not it refreshes the token first. *)
Theorem next_sync_starts_at_last_sync
    env provider clock req db resp db' calls message total inserted skipped :
  Sync.handler env provider clock req db = (resp, db', calls) ->
  Sync.body resp = Sync.synced_body message total inserted skipped ->
  forall env2 provider2 clock2 resp2 db2 calls2,
    Sync.handler env2 provider2 clock2 req db' = (resp2, db2, calls2) ->
    forall accessToken after,
      In (Sync.call_athlete_activities accessToken after) calls2 ->
      after = Sync.synced_now clock / 1000.
Proof.
  intros H Hb env2 provider2 clock2 resp2 db2 calls2 H2 tok after Hin.
  destruct (synced_report_effect _ _ _ _ _ _ _ _ _ _ _ _ H Hb)
    as (userId & dbx & Hu & _ & Hus & _).
  destruct (handler_paths _ _ _ _ _ _ _ _ H2)
    as [(-> & _)|(userId2 & user & cid & sec & access & refresh &
                  Hu2 & Hfind & _ & _ & Hp)].
  { destruct Hin. }
  assert (userId2 = userId) by congruence. subst userId2.
  assert (Hls : Users.last_synced_at user = Some (Sync.synced_now clock)).
  { apply find_some in Hfind as [Huin Hidu]. apply Z.eqb_eq in Hidu.
    rewrite Hus in Huin. apply update_last_synced_in in Huin as (o & _ & _ & _ & Hl).
    now apply Hl. }
  assert (Hh : horizon clock2 (Users.last_synced_at user) = Sync.synced_now clock / 1000).
  { rewrite Hls. reflexivity. }
  destruct Hp as [(_ & [(msg & _ & _ & _ & ->)|(rd & t & _ & _ & Hi)])|(_ & Hi)].
  - destruct Hin as [Hin|[]]. discriminate Hin.
  - destruct (import_effect _ _ _ _ _ _ _ _ _ _ Hi) as (-> & _).
    destruct Hin as [Hin|[Hin|[]]]; [discriminate Hin|].
    injection Hin as _ <-. exact Hh.
  - destruct (import_effect _ _ _ _ _ _ _ _ _ _ Hi) as (-> & _).
    destruct Hin as [Hin|[]]. injection Hin as _ <-. exact Hh.
Qed.

Lemma next_sync_starts_at_last_sync_witness :
  exists db' calls resp2 db2 calls2,
    Sync.handler example_env example_provider example_clock example_request
                 example_valid_db =
      (Sync.mk_response 200 (Sync.synced_body "Activities synced successfully" 2 1 0),
       db', calls) /\
    Sync.handler example_env example_provider example_clock example_request db' =
      (resp2, db2, calls2) /\
    calls2 = [Sync.call_athlete_activities "access" 1768910400] /\
    forall accessToken after,
      In (Sync.call_athlete_activities accessToken after) calls2 ->
      after = Sync.synced_now example_clock / 1000.
Proof.
  assert (H : exists db' calls,
             Sync.handler example_env example_provider example_clock example_request
                          example_valid_db =
             (Sync.mk_response 200
                (Sync.synced_body "Activities synced successfully" 2 1 0), db', calls)).
  { do 2 eexists. vm_compute. reflexivity. }
  destruct H as (db' & calls & H).
  assert (H2 : exists resp2 db2,
             Sync.handler example_env example_provider example_clock example_request db' =
             (resp2, db2, [Sync.call_athlete_activities "access" 1768910400])).
  { vm_compute in H. injection H as <- _. do 2 eexists. vm_compute. reflexivity. }
  destruct H2 as (resp2 & db2 & H2).
  exists db', calls, resp2, db2, [Sync.call_athlete_activities "access" 1768910400].
  split; [exact H|]. split; [exact H2|]. split; [reflexivity|].
  exact (next_sync_starts_at_last_sync _ _ _ _ _ _ _ _ _ _ _ _ H eq_refl
           _ _ _ _ _ _ H2).
Defined.

(** X19.  A sync that answers with its report leaves the requesting
    user's summary in step with the activities it leaves: the user has a
    summary row, and every summary row of the user holds the windowed
    in-region distances and the counts of the user's stored activities,
    new rows included, at the database time of the recalculation, with the
    tier those distances give. *)
Theorem sync_leaves_summary_in_step
    env provider clock req db resp db' calls message total inserted skipped :
  Sync.handler env provider clock req db = (resp, db', calls) ->
  Sync.body resp = Sync.synced_body message total inserted skipped ->
  exists userId,
    Sync.userId req = Some userId /\
    (exists r, In r (mileage_summary db') /\ MileageSummary.user_id r = userId) /\
    (forall r, In r (mileage_summary db') -> MileageSummary.user_id r = userId ->
               Reference.summarises (Sync.db_now clock) userId (activities db') r /\
               MileageSummary.access_tier r =
               Some (Mileage.calculate_access_tier (MileageSummary.current_month_miles r))).
Proof.
  intros H Hb.
  destruct (synced_report_effect _ _ _ _ _ _ _ _ _ _ _ _ H Hb)
    as (userId & dbx & Hu & _ & _ & Hex & Hrows).
  exists userId. refine (conj Hu (conj Hex Hrows)).
Qed.

Lemma sync_leaves_summary_in_step_witness :
  exists db' calls userId,
    Sync.handler example_env example_provider example_clock example_request
                 example_valid_db =
      (Sync.mk_response 200 (Sync.synced_body "Activities synced successfully" 2 1 0),
       db', calls) /\
    Sync.userId example_request = Some userId /\
    (exists r, In r (mileage_summary db') /\ MileageSummary.user_id r = userId) /\
    (forall r, In r (mileage_summary db') -> MileageSummary.user_id r = userId ->
               Reference.summarises (Sync.db_now example_clock) userId (activities db') r /\
               MileageSummary.access_tier r =
               Some (Mileage.calculate_access_tier (MileageSummary.current_month_miles r))).
Proof.
  assert (H : exists db' calls,
             Sync.handler example_env example_provider example_clock example_request
                          example_valid_db =
             (Sync.mk_response 200
                (Sync.synced_body "Activities synced successfully" 2 1 0), db', calls)).
  { do 2 eexists. vm_compute. reflexivity. }
  destruct H as (db' & calls & H).
  destruct (sync_leaves_summary_in_step _ _ _ _ _ _ _ _ _ _ _ _ H eq_refl)
    as (userId & Hrest).
  exists db', calls, userId. split; [exact H | exact Hrest].
Defined.

(* ===================================================================== *)
(** ** Further properties: community statistics *)
(* ===================================================================== *)

Lemma fold_left_Zadd (l : list Z) (x : Z) :
  fold_left Z.add l x = x + fold_right Z.add 0 l.
Proof.
  revert x. induction l as [|y l IH]; intros x; simpl; [lia|]. rewrite IH. lia.
Qed.

Lemma sum_int_coalesce (l : list Z) :
  Sql.coalesce (CommunityStats.sum_int l) 0 = fold_right Z.add 0 l.
Proof.
  destruct l as [|x l]; simpl; [reflexivity | apply fold_left_Zadd].
Qed.

Lemma recalculate_row_count now u db db' :
  Mileage.recalculate_user_mileage now u db = Ok db' ->
  List.length (mileage_summary db') =
  (List.length (mileage_summary db) +
   (if existsb (fun o => (MileageSummary.user_id o =? u)%Z) (mileage_summary db)
    then 0 else 1))%nat.
Proof.
  unfold Mileage.recalculate_user_mileage. intros H.
  destruct (existsb _ (mileage_summary db)).
  - injection H as <-. simpl. unfold Mileage.update. rewrite length_map. lia.
  - destruct (negb _); [discriminate|]. injection H as <-. simpl.
    rewrite length_app. reflexivity.
Qed.

Lemma round_tenths_near (q : Q) : (Qabs (Sql.round q 1 - q) <= 1 # 20)%Q.
Proof.
  change (Sql.round q 1) with (Qmake (Sql.round_half_away (q * 10)) 10).
  pose proof (round_half_away_near (q * 10)) as H.
  set (k := Sql.round_half_away (q * 10)) in *.
  apply Qabs_Qle_condition in H. apply Qabs_Qle_condition.
  assert (E : (k # 10 == inject_Z k / 10)%Q).
  { rewrite (Qmake_Qdiv k 10). reflexivity. }
  rewrite E. split.
  - apply Qle_minus_iff. destruct H as [H _]. apply Qle_minus_iff in H.
    setoid_replace (inject_Z k / 10 - q + - - (1 # 20))%Q
      with ((inject_Z k - q * 10 + - - (1 # 2)) * (1 # 10))%Q by (field).
    apply Qmult_le_0_compat; [exact H | discriminate].
  - apply Qle_minus_iff. destruct H as [_ H]. apply Qle_minus_iff in H.
    setoid_replace ((1 # 20) + - (inject_Z k / 10 - q))%Q
      with (((1 # 2) + - (inject_Z k - q * 10)) * (1 # 10))%Q by (field).
    apply Qmult_le_0_compat; [exact H | discriminate].
Qed.

(** X20.  [get_community_stats] reports: as [connected_users] the number
    of summary rows; as [total_activities] the sum of the rows' activity
    counts and as [total_miles] the sum of their all-time distances
    rounded to the nearest tenth with ties away from zero, a NULL value
    counting as nothing, and all of them 0 on an empty table.  The rounding
    in full: [total_miles] is a whole number of tenths [t], and the sum
    lies in [t - 0.05, t + 0.05) when it is not negative and in
    (t - 0.05, t + 0.05] when it is negative, so it is within 0.05 of the
    sum and determined by it.  A recalculation leaves [waitlist_count]
    and, for a user who already has a summary row, [connected_users] as
    they were, and raises [connected_users] by one for a user who had
    none. *)
Theorem community_stats_count_summaries {W} (waitlist : list W) (db : database) :
  let s := CommunityStats.get_community_stats waitlist db in
  CommunityStats.connected_users s = Z.of_nat (List.length (mileage_summary db)) /\
  CommunityStats.total_activities s =
    fold_right Z.add 0
      (CommunityStats.non_null (map MileageSummary.total_activities (mileage_summary db))) /\
  (Qabs (CommunityStats.total_miles s -
         fold_right Qplus 0
           (CommunityStats.non_null (map MileageSummary.total_miles (mileage_summary db))))
   <= 1 # 20)%Q /\
  (let t := CommunityStats.total_miles s in
   let sum := fold_right Qplus 0%Q
                (CommunityStats.non_null
                   (map MileageSummary.total_miles (mileage_summary db))) in
   (exists k : Z, t = Qmake k 10) /\
   ((0 <= sum)%Q -> (t - (1 # 20) <= sum)%Q /\ (sum < t + (1 # 20))%Q) /\
   ((sum < 0)%Q -> (t - (1 # 20) < sum)%Q /\ (sum <= t + (1 # 20))%Q)) /\
  (mileage_summary db = [] ->
   s = CommunityStats.mk_stats (Z.of_nat (List.length waitlist)) (0 # 10) 0 0) /\
  (forall now u db',
      Mileage.recalculate_user_mileage now u db = Ok db' ->
      let s' := CommunityStats.get_community_stats waitlist db' in
      CommunityStats.waitlist_count s' = CommunityStats.waitlist_count s /\
      CommunityStats.connected_users s' =
        CommunityStats.connected_users s +
        (if existsb (fun o => (MileageSummary.user_id o =? u)%Z) (mileage_summary db)
         then 0 else 1)).
Proof.
  intros s. unfold s, CommunityStats.get_community_stats.
  cbn [CommunityStats.waitlist_count CommunityStats.total_miles
       CommunityStats.connected_users CommunityStats.total_activities].
  refine (conj eq_refl (conj _ (conj _ (conj _ (conj _ _))))).
  - apply sum_int_coalesce.
  - set (l := CommunityStats.non_null
                (map MileageSummary.total_miles (mileage_summary db))).
    pose proof (round_tenths_near (Sql.coalesce (Sql.sum l) 0%Q)) as H.
    pose proof (sum_coalesce l) as E.
    apply Qabs_Qle_condition in H. destruct H as [H1 H2].
    apply Qabs_Qle_condition. split; lra.
  - set (l := CommunityStats.non_null
                (map MileageSummary.total_miles (mileage_summary db))).
    cbv zeta.
    destruct (round_interval (Sql.coalesce (Sql.sum l) 0%Q) 1) as (Hk & Hnon & Hneg).
    pose proof (sum_coalesce l) as E.
    change (1 # 2 * Z.to_pos (10 ^ Z.of_nat 1))%Q with (1 # 20)%Q in Hnon, Hneg.
    set (t := Sql.round (Sql.coalesce (Sql.sum l) 0%Q) 1) in *.
    refine (conj Hk (conj _ _)).
    + intros H0. destruct Hnon as [H1 H2]; [lra|]. split; lra.
    + intros H0. destruct Hneg as [H1 H2]; [lra|]. split; lra.
  - intros ->. reflexivity.
  - intros now u db' H. split; [reflexivity|].
    rewrite (recalculate_row_count _ _ _ _ H).
    destruct (existsb _ (mileage_summary db)); lia.
Qed.


Lemma community_stats_count_summaries_witness :
  Mileage.recalculate_user_mileage example_now 1 example_db =
    Ok example_db_recalculated /\
  CommunityStats.connected_users
    (CommunityStats.get_community_stats [tt; tt] example_db_recalculated) =
  CommunityStats.connected_users
    (CommunityStats.get_community_stats [tt; tt] example_db) + 1.
Proof.
  split; [vm_compute; reflexivity|].
  exact (proj2 (proj2 (proj2 (proj2 (proj2 (proj2
           (community_stats_count_summaries [tt; tt] example_db)))))
           example_now 1 example_db_recalculated ltac:(vm_compute; reflexivity))).
Defined.

(* ===================================================================== *)
(** ** Further properties: the OAuth callback *)
(* ===================================================================== *)

Lemma missing_false_or_else (s : option string) (d : string) :
  OAuth.missing s = false ->
  s = Some (OAuth.or_else s d) /\ String.eqb (OAuth.or_else s d) "" = false.
Proof.
  destruct s as [s|]; simpl; [|discriminate].
  intros H. rewrite H. split; [reflexivity | exact H].
Qed.

(** The two ways the callback ends: without a write and without a sync
    request, or with the row written, the sync request sent and the
    redirect. *)
Lemma callback_paths env provider connected_now req tbl resp tbl' calls :
  OAuth.handler env provider connected_now req tbl = (resp, tbl', calls) ->
  (tbl' = tbl /\ OAuth.Location resp = None /\
   (OAuth.status resp = 200 \/ OAuth.status resp = 400 \/ OAuth.status resp = 500) /\
   (calls = [] \/ exists i s c, calls = [OAuth.call_oauth_token i s c])) \/
  (exists userId tokenData,
      let i := OAuth.or_else (OAuth.STRAVA_CLIENT_ID env) "" in
      let s := OAuth.or_else (OAuth.STRAVA_CLIENT_SECRET env) "" in
      let c := OAuth.or_else (OAuth.code req) "" in
      OAuth.state req = Some userId /\
      OAuth.missing (OAuth.STRAVA_CLIENT_ID env) = false /\
      OAuth.missing (OAuth.STRAVA_CLIENT_SECRET env) = false /\
      String.eqb (OAuth.method req) "OPTIONS" = false /\
      OAuth.oauth_token provider i s c = Sync.fetch_ok tokenData /\
      OAuth.update_user userId tokenData connected_now tbl = Ok tbl' /\
      resp = OAuth.mk_response 302 OAuth.no_body
               (Some (OAuth.or_else (OAuth.APP_URL env) "https://www.districtrun.co"
                      ++ "/dashboard?strava=connected")%string) /\
      calls = [OAuth.call_oauth_token i s c; OAuth.call_sync userId]).
Proof.
  unfold OAuth.handler. intros H.
  destruct (String.eqb (OAuth.method req) "OPTIONS") eqn:Hm.
  { injection H as <- <- <-. left. cbn. auto 6. }
  destruct (OAuth.missing (OAuth.code req)) eqn:Hc.
  { injection H as <- <- <-. left. cbn. auto 6. }
  destruct (OAuth.state req) as [userId|] eqn:Hs.
  2: { injection H as <- <- <-. left. cbn. auto 6. }
  destruct (OAuth.missing (OAuth.STRAVA_CLIENT_ID env)) eqn:Hi.
  { injection H as <- <- <-. left. cbn. auto 6. }
  destruct (OAuth.missing (OAuth.STRAVA_CLIENT_SECRET env)) eqn:Hk.
  { injection H as <- <- <-. left. cbn. auto 6. }
  cbn [orb] in H.
  destruct (OAuth.oauth_token provider _ _ _) as [tokenData|text|msg] eqn:Ht.
  2,3: injection H as <- <- <-; left; cbn;
       refine (conj eq_refl (conj eq_refl (conj _ _))); [auto | right; eauto].
  destruct (Sync.toISOString (OAuth.expires_at tokenData * 1000)) as [iso|message].
  2: { injection H as <- <- <-. left. cbn.
       refine (conj eq_refl (conj eq_refl (conj _ _))); [auto | right; eauto]. }
  destruct (OAuth.update_user userId tokenData connected_now tbl) as [t|e] eqn:Hu.
  - injection H as <- <- <-. right. exists userId, tokenData. cbn zeta.
    refine (conj eq_refl (conj eq_refl (conj eq_refl (conj eq_refl
             (conj eq_refl (conj Hu (conj eq_refl eq_refl))))))).
  - injection H as <- <- <-. left. cbn.
    refine (conj eq_refl (conj eq_refl (conj _ _))); [auto | right; eauto].
Qed.

Lemma filter_is_user_none userId (tbl : list Accounts.row) :
  filter (OAuth.is_user userId) tbl = [] ->
  filter (fun a => negb (OAuth.is_user userId a)) tbl = tbl.
Proof.
  induction tbl as [|x tbl IH]; simpl; [reflexivity|].
  destruct (OAuth.is_user userId x); simpl; [discriminate|].
  intros H. rewrite (IH H). reflexivity.
Qed.

Lemma map_connected_none userId f (tbl : list Accounts.row) :
  filter (OAuth.is_user userId) tbl = [] ->
  map (fun a => if OAuth.is_user userId a then f a else a) tbl = tbl.
Proof.
  induction tbl as [|x tbl IH]; simpl; [reflexivity|].
  destruct (OAuth.is_user userId x); simpl; [discriminate|].
  intros H. rewrite (IH H). reflexivity.
Qed.

Lemma in_strava_ids z (tbl : list Accounts.row) :
  In z (OAuth.strava_ids tbl) <->
  exists a, In a tbl /\ Accounts.strava_id a = Some z.
Proof.
  unfold OAuth.strava_ids. rewrite in_flat_map. split.
  - intros (a & Ha & Hz). exists a. split; [exact Ha|].
    destruct (Accounts.strava_id a) as [s|]; simpl in Hz; [|contradiction].
    destruct Hz as [->|[]]. reflexivity.
  - intros (a & Ha & Hz). exists a. split; [exact Ha|]. rewrite Hz. left. reflexivity.
Qed.

Lemma has_strava_id_none z (tbl : list Accounts.row) :
  existsb (OAuth.has_strava_id z) tbl = false -> ~ In z (OAuth.strava_ids tbl).
Proof.
  intros H Hin. apply in_strava_ids in Hin. destruct Hin as (a & Ha & Hz).
  assert (E : existsb (OAuth.has_strava_id z) tbl = true).
  { apply existsb_exists. exists a. split; [exact Ha|].
    unfold OAuth.has_strava_id. rewrite Hz. apply Z.eqb_refl. }
  congruence.
Qed.

(** What a successful [update] is: nothing for an unknown id; else the one
    row of that id rewritten, no other row holding the athlete's id. *)
Lemma update_user_ok userId tokenData connected_now tbl tbl' :
  OAuth.update_user userId tokenData connected_now tbl = Ok tbl' ->
  tbl' = map (fun a => if OAuth.is_user userId a
                       then OAuth.connected tokenData connected_now a else a) tbl /\
  (filter (OAuth.is_user userId) tbl = [] \/
   (exists a, filter (OAuth.is_user userId) tbl = [a]) /\
   existsb (OAuth.has_strava_id (Athlete.id (OAuth.athlete tokenData)))
           (filter (fun a => negb (OAuth.is_user userId a)) tbl) = false).
Proof.
  unfold OAuth.update_user. intros H.
  destruct (ActivityStore.integer_input 64 (Athlete.id (OAuth.athlete tokenData)))
    as [sid|]; [|discriminate].
  destruct (Sync.timestamptz_input (OAuth.expires_at tokenData * 1000)) as [iso|];
    [|discriminate].
  unfold OAuth.update_rows in H.
  destruct (filter (OAuth.is_user userId) tbl) as [|a [|b r]] eqn:Hf.
  - injection H as <-. split; [|left; reflexivity].
    symmetry. apply map_connected_none. exact Hf.
  - destruct (existsb _ _) eqn:He; [discriminate|]. injection H as <-.
    split; [reflexivity|]. right. split; [exists a; reflexivity | reflexivity].
  - discriminate.
Qed.

Lemma strava_ids_rewritten userId tokenData connected_now tbl z :
  In z (OAuth.strava_ids
          (map (fun a => if OAuth.is_user userId a
                         then OAuth.connected tokenData connected_now a else a) tbl)) ->
  z = Athlete.id (OAuth.athlete tokenData) \/
  In z (OAuth.strava_ids (filter (fun a => negb (OAuth.is_user userId a)) tbl)).
Proof.
  intros H. apply in_strava_ids in H. destruct H as (a' & Ha & Hz).
  apply in_map_iff in Ha. destruct Ha as (a & <- & Ha).
  destruct (OAuth.is_user userId a) eqn:Hu.
  - left. simpl in Hz. congruence.
  - right. apply in_strava_ids. exists a. split; [|exact Hz].
    apply filter_In. split; [exact Ha|]. rewrite Hu. reflexivity.
Qed.

Lemma strava_ids_others userId tbl z :
  In z (OAuth.strava_ids (filter (fun a => negb (OAuth.is_user userId a)) tbl)) ->
  In z (OAuth.strava_ids tbl).
Proof.
  intros H. apply in_strava_ids in H. destruct H as (a & Ha & Hz).
  apply filter_In in Ha. apply in_strava_ids. exists a. tauto.
Qed.

Lemma update_user_keeps_unique userId tokenData connected_now tbl :
  (exists a, filter (OAuth.is_user userId) tbl = [a]) ->
  existsb (OAuth.has_strava_id (Athlete.id (OAuth.athlete tokenData)))
          (filter (fun a => negb (OAuth.is_user userId a)) tbl) = false ->
  NoDup (OAuth.strava_ids tbl) ->
  NoDup (OAuth.strava_ids
           (map (fun a => if OAuth.is_user userId a
                          then OAuth.connected tokenData connected_now a else a) tbl)).
Proof.
  set (upd := fun a => if OAuth.is_user userId a
                       then OAuth.connected tokenData connected_now a else a).
  set (aid := Athlete.id (OAuth.athlete tokenData)).
  induction tbl as [|x tbl IH]; intros [a Hf] He Hn.
  - discriminate.
  - simpl in Hf, He. cbn [map]. unfold upd at 1.
    destruct (OAuth.is_user userId x) eqn:Hx.
    + injection Hf as _ Hf. simpl in He.
      rewrite (filter_is_user_none _ _ Hf) in He.
      fold upd. unfold upd. rewrite (map_connected_none _ _ _ Hf).
      change (NoDup (aid :: OAuth.strava_ids tbl)).
      constructor; [apply has_strava_id_none; exact He|].
      change (OAuth.strava_ids (x :: tbl))
        with ((match Accounts.strava_id x with Some s => [s] | None => [] end)
                ++ OAuth.strava_ids tbl) in Hn.
      destruct (Accounts.strava_id x); [inversion Hn; assumption | exact Hn].
    + simpl in He. apply orb_false_iff in He. destruct He as [He1 He2].
      change (OAuth.strava_ids (x :: tbl))
        with ((match Accounts.strava_id x with Some s => [s] | None => [] end)
                ++ OAuth.strava_ids tbl) in Hn.
      change (NoDup ((match Accounts.strava_id x with Some s => [s] | None => [] end)
                       ++ OAuth.strava_ids (map upd tbl))).
      unfold OAuth.has_strava_id in He1.
      destruct (Accounts.strava_id x) as [s|].
      * simpl in Hn |- *. inversion Hn as [|? ? Hnin Hn']; subst.
        constructor; [|apply IH; [exists a; exact Hf | exact He2 | exact Hn']].
        intros Hin. apply strava_ids_rewritten in Hin. destruct Hin as [->|Hin].
        -- fold aid in He1. rewrite Z.eqb_refl in He1. discriminate.
        -- apply Hnin. eapply strava_ids_others. exact Hin.
      * simpl in Hn |- *. apply IH; [exists a; exact Hf | exact He2 | exact Hn].
Qed.

(** X21.  The callback writes and asks for a sync only when it redirects:
    it answers 200, 400, 500 or 302; with any status but 302 the [users]
    table is as before, no sync request was sent and there is no
    [Location]; with 302 the request named a user, exactly one token
    exchange was followed by exactly one sync request for that user, and
    the [Location] is the dashboard of [APP_URL] or, without one, of
    https://www.districtrun.co.  A missing (or empty) [code] gives 400
    before anything is sent. *)
Theorem callback_writes_only_on_redirect env provider connected_now req tbl :
  let '(resp, tbl', calls) := OAuth.handler env provider connected_now req tbl in
  (OAuth.status resp = 200 \/ OAuth.status resp = 400 \/
   OAuth.status resp = 500 \/ OAuth.status resp = 302) /\
  (OAuth.status resp <> 302 ->
   tbl' = tbl /\ OAuth.Location resp = None /\
   forall u, ~ In (OAuth.call_sync u) calls) /\
  (OAuth.status resp = 302 ->
   exists userId i s c,
     OAuth.state req = Some userId /\
     calls = [OAuth.call_oauth_token i s c; OAuth.call_sync userId] /\
     OAuth.Location resp =
       Some (OAuth.or_else (OAuth.APP_URL env) "https://www.districtrun.co"
             ++ "/dashboard?strava=connected")%string) /\
  (String.eqb (OAuth.method req) "OPTIONS" = false ->
   OAuth.missing (OAuth.code req) = true ->
   OAuth.status resp = 400 /\ calls = []).
Proof.
  destruct (OAuth.handler env provider connected_now req tbl) as [[resp tbl'] calls] eqn:H.
  assert (Hlast : String.eqb (OAuth.method req) "OPTIONS" = false ->
                  OAuth.missing (OAuth.code req) = true ->
                  OAuth.status resp = 400 /\ calls = []).
  { intros Hm Hc. unfold OAuth.handler in H. rewrite Hm, Hc in H.
    injection H as <- _ <-. split; reflexivity. }
  destruct (callback_paths _ _ _ _ _ _ _ _ H)
    as [(Ht & Hl & Hs & Hc) | (userId & tokenData & Hst & _ & _ & _ & _ & _ & -> & ->)].
  - refine (conj _ (conj _ (conj _ Hlast))).
    + tauto.
    + intros _. refine (conj Ht (conj Hl _)). intros u Hin.
      destruct Hc as [->|(i & s & c & ->)]; simpl in Hin; [tauto|].
      destruct Hin as [Hin|[]]. discriminate.
    + intros E. rewrite E in Hs. destruct Hs as [Hs|[Hs|Hs]]; discriminate.
  - refine (conj _ (conj _ (conj _ Hlast))).
    + cbn. tauto.
    + cbn. intros E. contradiction E. reflexivity.
    + intros _. eexists userId, _, _, _. cbn.
      refine (conj Hst (conj eq_refl eq_refl)).
Qed.

Lemma callback_writes_only_on_redirect_witness :
  OAuth.status (fst (fst (OAuth.handler example_oauth_env example_oauth_provider 5
                            (OAuth.mk_request "GET" None (Some 1)) example_accounts)))
    <> 302 /\
  snd (fst (OAuth.handler example_oauth_env example_oauth_provider 5
              (OAuth.mk_request "GET" None (Some 1)) example_accounts))
    = example_accounts.
Proof.
  pose proof (callback_writes_only_on_redirect example_oauth_env example_oauth_provider 5
                (OAuth.mk_request "GET" None (Some 1)) example_accounts) as H.
  destruct (OAuth.handler example_oauth_env example_oauth_provider 5
              (OAuth.mk_request "GET" None (Some 1)) example_accounts)
    as [[resp tbl'] calls] eqn:E.
  assert (Hs : OAuth.status resp <> 302).
  { vm_compute in E. injection E as <- _ _. discriminate. }
  split; [exact Hs|]. exact (proj1 (proj1 (proj2 H) Hs)).
Defined.

(** X22.  The callback keeps [strava_id] unique: if no two rows of [users]
    share a [strava_id] before it, none do after it, whatever the token
    endpoint answers.  When the athlete is already linked to another row
    and the request names exactly one existing user, the callback answers
    500, writes nothing and asks for no sync; if the expiry the endpoint
    gave lies in the years 0001 to 9999 and the athlete's id is within the
    range of the bigint column (as every stored [strava_id] is), the
    answer carries the database's unique violation 23505. *)
Theorem callback_keeps_strava_id_unique env provider connected_now req tbl :
  NoDup (OAuth.strava_ids tbl) ->
  let '(resp, tbl', calls) := OAuth.handler env provider connected_now req tbl in
  NoDup (OAuth.strava_ids tbl') /\
  (forall userId tokenData a b,
      String.eqb (OAuth.method req) "OPTIONS" = false ->
      OAuth.missing (OAuth.code req) = false ->
      OAuth.state req = Some userId ->
      OAuth.missing (OAuth.STRAVA_CLIENT_ID env) = false ->
      OAuth.missing (OAuth.STRAVA_CLIENT_SECRET env) = false ->
      OAuth.oauth_token provider
        (OAuth.or_else (OAuth.STRAVA_CLIENT_ID env) "")
        (OAuth.or_else (OAuth.STRAVA_CLIENT_SECRET env) "")
        (OAuth.or_else (OAuth.code req) "") = Sync.fetch_ok tokenData ->
      filter (OAuth.is_user userId) tbl = [a] ->
      In b tbl -> OAuth.is_user userId b = false ->
      Accounts.strava_id b = Some (Athlete.id (OAuth.athlete tokenData)) ->
      OAuth.status resp = 500 /\ tbl' = tbl /\
      (forall u, ~ In (OAuth.call_sync u) calls) /\
      (-62135596800000 <= OAuth.expires_at tokenData * 1000 <= 253402300799999 ->
       - 2 ^ 63 <= Athlete.id (OAuth.athlete tokenData) < 2 ^ 63 ->
       resp = OAuth.mk_response 500 (OAuth.database_error "23505") None)).
Proof.
  intros Hn.
  destruct (OAuth.handler env provider connected_now req tbl) as [[resp tbl'] calls] eqn:H.
  split.
  - destruct (callback_paths _ _ _ _ _ _ _ _ H)
      as [(-> & _) | (userId & tokenData & _ & _ & _ & _ & _ & Hu & _)];
      [exact Hn|].
    destruct (update_user_ok _ _ _ _ _ Hu) as (-> & [Hf | [Hf He]]).
    + rewrite (map_connected_none _ _ _ Hf). exact Hn.
    + apply update_user_keeps_unique; assumption.
  - intros userId tokenData a b Hm Hc Hs Hi Hk Ht Hf Hb Hbu Hbs.
    unfold OAuth.handler in H. rewrite Hm, Hc, Hs, Hi, Hk in H. cbn [orb] in H.
    rewrite Ht in H.
    assert (E : existsb (OAuth.has_strava_id (Athlete.id (OAuth.athlete tokenData)))
                        (filter (fun a0 => negb (OAuth.is_user userId a0)) tbl) = true).
    { apply existsb_exists. exists b. split.
      - apply filter_In. split; [exact Hb|]. rewrite Hbu. reflexivity.
      - unfold OAuth.has_strava_id. rewrite Hbs. apply Z.eqb_refl. }
    unfold OAuth.update_user, OAuth.update_rows in H. rewrite Hf, E in H.
    destruct (Sync.toISOString (OAuth.expires_at tokenData * 1000)) as [iso|message] eqn:Eiso.
    + destruct (ActivityStore.integer_input 64 (Athlete.id (OAuth.athlete tokenData)))
        as [sid|sqlstate] eqn:Eid.
      * destruct (Sync.timestamptz_input (OAuth.expires_at tokenData * 1000))
          as [t|sqlstate] eqn:Ein.
        -- injection H as <- <- <-.
           refine (conj eq_refl (conj eq_refl (conj _ (fun _ _ => eq_refl)))).
           intros u [Hc'|[]]. discriminate Hc'.
        -- injection H as <- <- <-.
           refine (conj eq_refl (conj eq_refl (conj _ _))).
           ++ intros u [Hc'|[]]. discriminate Hc'.
           ++ intros Hplain _. rewrite (timestamptz_input_ok _ Hplain) in Ein.
              discriminate Ein.
      * injection H as <- <- <-.
        refine (conj eq_refl (conj eq_refl (conj _ _))).
        -- intros u [Hc'|[]]. discriminate Hc'.
        -- intros _ Hrange. rewrite (integer_input_ok 64) in Eid by (try exact Hrange; lia).
           discriminate Eid.
    + injection H as <- <- <-.
      refine (conj eq_refl (conj eq_refl (conj _ _))).
      * intros u [Hc'|[]]. discriminate Hc'.
      * intros Hplain _. rewrite toISOString_ok in Eiso by lia. discriminate Eiso.
Qed.

Lemma callback_keeps_strava_id_unique_witness :
  NoDup (OAuth.strava_ids example_accounts) /\
  NoDup (OAuth.strava_ids
           (snd (fst (OAuth.handler example_oauth_env example_oauth_provider 5
                        example_callback example_accounts)))).
Proof.
  assert (Hn : NoDup (OAuth.strava_ids example_accounts)).
  { vm_compute. constructor; [intros []|constructor]. }
  split; [exact Hn|].
  pose proof (callback_keeps_strava_id_unique example_oauth_env example_oauth_provider 5
                example_callback example_accounts Hn) as H.
  destruct (OAuth.handler example_oauth_env example_oauth_provider 5
              example_callback example_accounts) as [[resp tbl'] calls].
  exact (proj1 H).
Defined.


Lemma find_rewritten userId (f : Accounts.row -> Accounts.row) tbl :
  (forall a, OAuth.is_user userId (f a) = OAuth.is_user userId a) ->
  find (OAuth.is_user userId)
       (map (fun a => if OAuth.is_user userId a then f a else a) tbl) =
  option_map f (find (OAuth.is_user userId) tbl).
Proof.
  intros Hf. induction tbl as [|x tbl IH]; simpl; [reflexivity|].
  destruct (OAuth.is_user userId x) eqn:Hx.
  - rewrite Hf, Hx. reflexivity.
  - rewrite Hx. exact IH.
Qed.

Lemma find_sync_view userId tbl :
  find (fun u => Users.id u =? userId) (map Accounts.user tbl) =
  option_map Accounts.user (find (OAuth.is_user userId) tbl).
Proof.
  induction tbl as [|x tbl IH]; simpl; [reflexivity|].
  unfold OAuth.is_user at 1. destruct (Users.id (Accounts.user x) =? userId);
    [reflexivity | exact IH].
Qed.

(** X23.  A user the callback has connected can be synced at once.  When
    the callback redirects for a user who has a row, that row holds the
    token endpoint's answer; and if neither token of the answer is empty,
    the sync function, run for that user on the table the callback left,
    passes its connection check and starts with the new credentials: with
    the activity listing under the new access token, from the user's
    unchanged sync horizon, or, if the new expiry has already passed, with
    a refresh under the new refresh token. *)
Theorem connected_user_can_sync env provider connected_now req tbl resp tbl' calls
    userId a :
  OAuth.handler env provider connected_now req tbl = (resp, tbl', calls) ->
  OAuth.status resp = 302 ->
  OAuth.state req = Some userId ->
  find (OAuth.is_user userId) tbl = Some a ->
  exists tokenData,
    OAuth.oauth_token provider
      (OAuth.or_else (OAuth.STRAVA_CLIENT_ID env) "")
      (OAuth.or_else (OAuth.STRAVA_CLIENT_SECRET env) "")
      (OAuth.or_else (OAuth.code req) "") = Sync.fetch_ok tokenData /\
    find (OAuth.is_user userId) tbl' =
      Some (OAuth.connected tokenData connected_now a) /\
    (OAuth.access_token tokenData <> ""%string ->
     OAuth.refresh_token tokenData <> ""%string ->
     forall sync_provider clock db,
       hd_error
         (snd (Sync.handler (OAuth.sync_env env) sync_provider clock
                 (Sync.mk_request "POST" (Some userId)) (OAuth.sync_view tbl' db))) =
       Some (if Sync.now clock >=? OAuth.expires_at tokenData * 1000
             then Sync.call_oauth_token (OAuth.refresh_token tokenData)
                    (OAuth.or_else (OAuth.STRAVA_CLIENT_ID env) "")
                    (OAuth.or_else (OAuth.STRAVA_CLIENT_SECRET env) "")
             else Sync.call_athlete_activities (OAuth.access_token tokenData)
                    (horizon clock (Users.last_synced_at (Accounts.user a))))).
Proof.
  intros H Hst Hs Hfind.
  destruct (callback_paths _ _ _ _ _ _ _ _ H)
    as [(_ & _ & Hc & _) | (u & tokenData & Hs' & Hi & Hk & _ & Ht & Hu & _ & _)].
  { rewrite Hst in Hc. destruct Hc as [Hc|[Hc|Hc]]; discriminate. }
  cbv zeta in Ht. rewrite Hs in Hs'. injection Hs' as <-.
  exists tokenData. split; [exact Ht|].
  destruct (update_user_ok _ _ _ _ _ Hu) as (-> & _).
  assert (Hf' : find (OAuth.is_user userId)
                  (map (fun a0 => if OAuth.is_user userId a0
                                  then OAuth.connected tokenData connected_now a0
                                  else a0) tbl) =
                Some (OAuth.connected tokenData connected_now a)).
  { rewrite find_rewritten; [rewrite Hfind; reflexivity|]. intros x. reflexivity. }
  split; [exact Hf'|].
  intros Ha Hr sync_provider clock db.
  destruct (missing_false_or_else _ ""%string Hi) as [Ei Ni].
  destruct (missing_false_or_else _ ""%string Hk) as [Ek Nk].
  set (i := OAuth.or_else (OAuth.STRAVA_CLIENT_ID env) "") in *.
  set (s := OAuth.or_else (OAuth.STRAVA_CLIENT_SECRET env) "") in *.
  apply String.eqb_neq in Ha. apply String.eqb_neq in Hr.
  unfold Sync.handler.
  cbn [Sync.method Sync.userId OAuth.sync_env Sync.STRAVA_CLIENT_ID
       Sync.STRAVA_CLIENT_SECRET].
  change (String.eqb "POST" "OPTIONS") with false. cbv iota.
  rewrite Ei, Ek, Ni, Nk. cbn [orb].
  change (users (OAuth.sync_view
                   (map (fun a0 => if OAuth.is_user userId a0
                                   then OAuth.connected tokenData connected_now a0
                                   else a0) tbl) db))
    with (map Accounts.user
            (map (fun a0 => if OAuth.is_user userId a0
                            then OAuth.connected tokenData connected_now a0
                            else a0) tbl)).
  rewrite find_sync_view, Hf'.
  cbn [option_map OAuth.connected Accounts.user Users.strava_access_token
       Users.strava_refresh_token Users.token_expires_at Users.last_synced_at].
  rewrite Ha, Hr. cbn [orb].
  destruct (Sync.now clock >=? OAuth.expires_at tokenData * 1000).
  - destruct (Sync.refreshStravaToken sync_provider (OAuth.refresh_token tokenData) i s)
      as [refreshData|message]; [|reflexivity].
    destruct (Sync.toISOString (Sync.expires_at refreshData * 1000))
      as [iso|message]; [|reflexivity].
    match goal with
    | |- hd_error (snd ?t) = _ => destruct t as [[r d] cs] eqn:E
    end.
    destruct (import_effect _ _ _ _ _ _ _ _ _ _ E) as (-> & _). reflexivity.
  - match goal with
    | |- hd_error (snd ?t) = _ => destruct t as [[r d] cs] eqn:E
    end.
    destruct (import_effect _ _ _ _ _ _ _ _ _ _ E) as (-> & _). reflexivity.
Qed.

Lemma connected_user_can_sync_witness :
  hd_error
    (snd (Sync.handler (OAuth.sync_env example_oauth_env) example_provider example_clock
            (Sync.mk_request "POST" (Some 1))
            (OAuth.sync_view
               (snd (fst (OAuth.handler example_oauth_env example_oauth_provider 5
                            example_callback example_accounts)))
               example_db))) =
  Some (Sync.call_athlete_activities "new-access"
          ((1768910400100 - 90 * 24 * 60 * 60 * 1000) / 1000)).
Proof.
  destruct (OAuth.handler example_oauth_env example_oauth_provider 5
              example_callback example_accounts) as [[resp tbl'] calls] eqn:E.
  destruct (connected_user_can_sync example_oauth_env example_oauth_provider 5
              example_callback example_accounts resp tbl' calls 1
              (Accounts.mk (Users.mk 1 None None None None) None None
                           "" None None None None) E)
    as (tokenData & Ht & _ & Hsync).
  - vm_compute in E. injection E as <- _ _. reflexivity.
  - reflexivity.
  - reflexivity.
  - injection Ht as <-.
    exact (Hsync ltac:(discriminate) ltac:(discriminate)
                 example_provider example_clock example_db).
Defined.

(** X24.  The callback rewrites at most the row of the user its request
    names: the table keeps its rows in order, every row keeps its id and
    its [last_synced_at] (so connecting again does not move the sync
    horizon), and every row of another id is left as it was. *)
Theorem callback_changes_one_row env provider connected_now req tbl :
  Forall2 (fun a a' =>
             Users.id (Accounts.user a') = Users.id (Accounts.user a) /\
             Users.last_synced_at (Accounts.user a') =
               Users.last_synced_at (Accounts.user a) /\
             (OAuth.state req <> Some (Users.id (Accounts.user a)) -> a' = a))
          tbl
          (snd (fst (OAuth.handler env provider connected_now req tbl))).
Proof.
  assert (Hrefl : forall l : list Accounts.row,
             Forall2 (fun a a' =>
                        Users.id (Accounts.user a') = Users.id (Accounts.user a) /\
                        Users.last_synced_at (Accounts.user a') =
                          Users.last_synced_at (Accounts.user a) /\
                        (OAuth.state req <> Some (Users.id (Accounts.user a)) -> a' = a))
                     l l).
  { induction l; constructor; auto. }
  destruct (OAuth.handler env provider connected_now req tbl) as [[resp tbl'] calls] eqn:H.
  cbn [fst snd].
  destruct (callback_paths _ _ _ _ _ _ _ _ H)
    as [(-> & _) | (userId & tokenData & Hs & _ & _ & _ & _ & Hu & _)];
    [apply Hrefl|].
  destruct (update_user_ok _ _ _ _ _ Hu) as (-> & _).
  clear H Hu Hrefl. induction tbl as [|x tbl IH]; cbn [map]; constructor; [|exact IH].
  unfold OAuth.is_user. destruct (Users.id (Accounts.user x) =? userId) eqn:Hx.
  - refine (conj eq_refl (conj eq_refl _)). intros Hne. exfalso. apply Hne.
    rewrite Hs. f_equal. symmetry. apply Z.eqb_eq. exact Hx.
  - auto.
Qed.


Lemma callback_changes_one_row_witness :
  Forall2 (fun a a' =>
             Users.id (Accounts.user a') = Users.id (Accounts.user a) /\
             Users.last_synced_at (Accounts.user a') =
               Users.last_synced_at (Accounts.user a) /\
             (OAuth.state example_callback <> Some (Users.id (Accounts.user a)) ->
              a' = a))
          example_accounts
          (snd (fst (OAuth.handler example_oauth_env example_oauth_provider 5
                       example_callback example_accounts))).
Proof.
  exact (callback_changes_one_row example_oauth_env example_oauth_provider 5
           example_callback example_accounts).
Defined.
